(** * Acquisition-pulse: OAuth state tokens, credential vault, code exchange

    A shallow embedding of the token and vault logic of the dashboard:

    - [connectors/state.py]          signed, expiring state tokens;
    - [connectors/meta_connector.py],
      [connectors/google_connector.py],
      [connectors/tiktok_connector.py]  the per-platform credential vault
                                         and the spend fetch with its demo fallback;
    - [connectors/oauth_server.py]   the callback handler;
    - [backend.py], [app_dashboard.py]  the TikTok code exchange.

    Python values are modelled as the interpreter has them: a [str] is a
    list of Unicode code points, [bytes] a list of octets, a dict a finite
    map, an exception a [Raise] result.  What lives outside the process
    (environment, keyring, metadata file, clock, HTTP peers) is a field of
    the [world] record that every effectful function threads. *)

From stdpp Require Import gmap strings list.

Local Open Scope Z_scope.

(** ** Results of Python calls *)

Inductive exn :=
  | TypeError | AttributeError | ValueError | KeyError
  | UnicodeError | BinasciiError | InvalidToken | KeyringError
  | ConnectionError.

Inductive res (A : Type) :=
  | Ok (a : A)
  | Raise (e : exn).
Arguments Ok {A} a.
Arguments Raise {A} e.

#[global] Instance res_ret : MRet res := λ A a, Ok a.
#[global] Instance res_bind : MBind res := λ A B f m,
  match m with Ok a => f a | Raise e => Raise e end.
#[global] Instance res_fmap : FMap res := λ A B f m,
  match m with Ok a => Ok (f a) | Raise e => Raise e end.

(** [try: m except Exception: h] *)
Definition try_except {A} (m : res A) (h : res A) : res A :=
  match m with Ok a => Ok a | Raise _ => h end.

Definition raises {A} (m : res A) : bool :=
  match m with Ok _ => false | Raise _ => true end.

(** ** [str] and [bytes] *)

(** A [str] is its sequence of code points, [bytes] its sequence of octets. *)
Abbreviation pystr := (list Z).
Abbreviation bytes := (list Z).

(** Literals of the source, written as Rocq strings. *)
Definition py (s : string) : pystr :=
  (λ c, Z.of_N (Ascii.N_of_ascii c)) <$> String.list_ascii_of_string s.

#[global] Arguments py : simpl never.

Definition is_byte (b : Z) : bool := (0 <=? b) && (b <? 256).
Definition is_ascii (c : Z) : bool := (0 <=? c) && (c <? 128).

Definition zeqb_list (a b : list Z) : bool := bool_decide (a = b).

(** [c in s] for a one-character [c]. *)
Definition contains (c : Z) (s : pystr) : bool := bool_decide (c ∈ s).

(** Truthiness of a [str]/[bytes]: non-empty. *)
Definition nonempty {A} (s : list A) : bool :=
  match s with [] => false | _ => true end.

(** [s.split(c, 1)]: the parts before and after the first [c], if any. *)
Fixpoint split_first (c : Z) (s : pystr) : option (pystr * pystr) :=
  match s with
  | [] => None
  | x :: r =>
      if bool_decide (x = c) then Some ([], r)
      else '(a, b) ← split_first c r; Some (x :: a, b)
  end.

(** [s.rsplit(c, 1)]: the parts before and after the last [c], if any. *)
Fixpoint split_last (c : Z) (s : pystr) : option (pystr * pystr) :=
  match s with
  | [] => None
  | x :: r =>
      match split_last c r with
      | Some (a, b) => Some (x :: a, b)
      | None => if bool_decide (x = c) then Some ([], r) else None
      end
  end.

(** *** UTF-8, the default codec of [str.encode] and [bytes.decode] *)

Definition is_surrogate (c : Z) : bool := (0xD800 <=? c) && (c <=? 0xDFFF).

Definition utf8_encode_char (c : Z) : option bytes :=
  if c <? 0 then None
  else if c <? 0x80 then Some [c]
  else if c <? 0x800 then Some [0xC0 + c / 64; 0x80 + c mod 64]
  else if c <? 0x10000 then
    if is_surrogate c then None
    else Some [0xE0 + c / 4096; 0x80 + (c / 64) mod 64; 0x80 + c mod 64]
  else if c <? 0x110000 then
    Some [0xF0 + c / 262144; 0x80 + (c / 4096) mod 64;
          0x80 + (c / 64) mod 64; 0x80 + c mod 64]
  else None.

Fixpoint utf8_encode (s : pystr) : option bytes :=
  match s with
  | [] => Some []
  | c :: r => e ← utf8_encode_char c; t ← utf8_encode r; Some (e ++ t)
  end.

(** [s.encode()] raises [UnicodeEncodeError] on lone surrogates. *)
Definition str_encode (s : pystr) : res bytes :=
  match utf8_encode s with Some b => Ok b | None => Raise UnicodeError end.

Definition is_cont (b : Z) : bool := (0x80 <=? b) && (b <=? 0xBF).

(** The strict decoder: shortest form only, no surrogates, at most U+10FFFF. *)
Fixpoint utf8_decode (b : bytes) : option pystr :=
  match b with
  | [] => Some []
  | b0 :: r =>
      if (0 <=? b0) && (b0 <? 0x80) then cons b0 <$> utf8_decode r
      else if (0xC2 <=? b0) && (b0 <=? 0xDF) then
        match r with
        | b1 :: r1 =>
            if is_cont b1
            then cons ((b0 - 0xC0) * 64 + (b1 - 0x80)) <$> utf8_decode r1
            else None
        | _ => None
        end
      else if (0xE0 <=? b0) && (b0 <=? 0xEF) then
        match r with
        | b1 :: b2 :: r2 =>
            let c := (b0 - 0xE0) * 4096 + (b1 - 0x80) * 64 + (b2 - 0x80) in
            if is_cont b1 && is_cont b2 && (0x800 <=? c) && negb (is_surrogate c)
            then cons c <$> utf8_decode r2
            else None
        | _ => None
        end
      else if (0xF0 <=? b0) && (b0 <=? 0xF4) then
        match r with
        | b1 :: b2 :: b3 :: r3 =>
            let c := (b0 - 0xF0) * 262144 + (b1 - 0x80) * 4096
                     + (b2 - 0x80) * 64 + (b3 - 0x80) in
            if is_cont b1 && is_cont b2 && is_cont b3
               && (0x10000 <=? c) && (c <? 0x110000)
            then cons c <$> utf8_decode r3
            else None
        | _ => None
        end
      else None
  end.

Definition bytes_decode (b : bytes) : res pystr :=
  match utf8_decode b with Some s => Ok s | None => Raise UnicodeError end.

(** *** Latin-1, used to keep ciphertext bytes inside a JSON string *)

Definition latin1_decode (b : bytes) : pystr := b.

Definition latin1_encode (s : pystr) : res bytes :=
  if forallb is_byte s then Ok s else Raise UnicodeError.

(** *** [base64.urlsafe_b64encode] and [base64.urlsafe_b64decode] *)

(** The URL-safe alphabet: [A-Z a-z 0-9 - _]. *)
Definition b64_char (v : Z) : Z :=
  if v <? 26 then 65 + v
  else if v <? 52 then 97 + (v - 26)
  else if v <? 62 then 48 + (v - 52)
  else if v =? 62 then 45
  else 95.

Definition b64_pad : Z := 61.

Fixpoint urlsafe_b64encode (b : bytes) : bytes :=
  match b with
  | [] => []
  | [x] => [b64_char (x / 4); b64_char (x mod 4 * 16); b64_pad; b64_pad]
  | [x; y] =>
      [b64_char (x / 4); b64_char (x mod 4 * 16 + y / 16);
       b64_char (y mod 16 * 4); b64_pad]
  | x :: y :: z :: r =>
      b64_char (x / 4) :: b64_char (x mod 4 * 16 + y / 16)
      :: b64_char (y mod 16 * 4 + z / 64) :: b64_char (z mod 64)
      :: urlsafe_b64encode r
  end.

(** The decoding table after [urlsafe_b64decode] has translated [-] to [+]
    and [_] to [/]: both spellings of 62 and 63 are accepted. *)
Definition b64_value (c : Z) : option Z :=
  if (65 <=? c) && (c <=? 90) then Some (c - 65)
  else if (97 <=? c) && (c <=? 122) then Some (c - 97 + 26)
  else if (48 <=? c) && (c <=? 57) then Some (c - 48 + 52)
  else if (c =? 43) || (c =? 45) then Some 62
  else if (c =? 47) || (c =? 95) then Some 63
  else None.

(** The non-strict loop of [binascii.a2b_base64]: characters outside the
    alphabet are skipped, a complete pad sequence ends the decoding (what
    follows is ignored), and the bits left over in the last character of a
    padded quantum are dropped without being checked.  [quad] is the position
    in the current quantum, [left] the bits carried over, [pads] the number
    of pad characters seen since the last data character. *)
Fixpoint a2b_base64 (s : bytes) (quad left pads : Z) (out : bytes) : res bytes :=
  match s with
  | [] => if quad =? 0 then Ok out else Raise BinasciiError
  | c :: r =>
      if c =? b64_pad then
        if (2 <=? quad) && (4 <=? quad + (pads + 1)) then Ok out
        else a2b_base64 r quad left (if 2 <=? quad then pads + 1 else pads) out
      else
        match b64_value c with
        | None => a2b_base64 r quad left pads out
        | Some v =>
            if quad =? 0 then a2b_base64 r 1 v 0 out
            else if quad =? 1 then
              a2b_base64 r 2 (v mod 16) 0 (out ++ [left * 4 + v / 16])
            else if quad =? 2 then
              a2b_base64 r 3 (v mod 4) 0 (out ++ [left * 16 + v / 4])
            else a2b_base64 r 0 0 0 (out ++ [left * 64 + v])
        end
  end.

Definition urlsafe_b64decode (s : bytes) : res bytes := a2b_base64 s 0 0 0 [].

(** *** [str(n)] and [int(s)] for integers *)

Fixpoint decimal_digits (fuel : nat) (n : Z) (acc : pystr) : pystr :=
  match fuel with
  | O => (48 + n mod 10) :: acc
  | S f =>
      if n <? 10 then (48 + n) :: acc
      else decimal_digits f (n / 10) ((48 + n mod 10) :: acc)
  end.

Definition decimal (n : Z) : pystr :=
  decimal_digits (Z.to_nat (Z.log2 n)) n [].

(** CPython refuses conversions between [int] and [str] beyond this many
    digits ([sys.int_max_str_digits], 4300 unless reconfigured). *)
Definition int_max_str_digits : nat := 4300.

(** [str(n)], also what an f-string does with an [int]. *)
Definition int_to_str (n : Z) : res pystr :=
  let ds := decimal (Z.abs n) in
  if bool_decide (length ds ≤ int_max_str_digits)%nat
  then Ok (if n <? 0 then 45 :: ds else ds)
  else Raise ValueError.

(** Code points at which a run of ten Unicode decimal digits (category Nd,
    Unicode 14) starts, beyond ASCII. *)
Definition unicode_digit_zeros : list Z :=
  [1632; 1776; 1984; 2406; 2534; 2662; 2790; 2918; 3046; 3174; 3302; 3430;
   3558; 3664; 3792; 3872; 4160; 4240; 6112; 6160; 6470; 6608; 6784; 6800;
   6992; 7088; 7232; 7248; 42528; 43216; 43264; 43472; 43504; 43600; 44016;
   65296; 66720; 68912; 69734; 69872; 69942; 70096; 70384; 70736; 70864;
   71248; 71360; 71472; 71904; 72016; 72784; 73040; 73120; 92768; 92864;
   93008; 120782; 120792; 120802; 120812; 120822; 123200; 123632; 125264;
   130032].

(** Non-ASCII characters that [int] treats as blanks. *)
Definition unicode_spaces : list Z :=
  [0x85; 0xA0; 0x1680; 0x2000; 0x2001; 0x2002; 0x2003; 0x2004; 0x2005;
   0x2006; 0x2007; 0x2008; 0x2009; 0x200A; 0x2028; 0x2029; 0x202F; 0x205F;
   0x3000].

(** First pass of [int(s)]: ASCII is kept, other blanks become a space,
    other decimal digits their ASCII digit, anything else [?]. *)
Definition to_ascii_digit (c : Z) : Z :=
  if is_ascii c then c
  else if bool_decide (c ∈ unicode_spaces) then 32
  else match list_find (λ z, z ≤ c < z + 10) unicode_digit_zeros with
       | Some (_, z) => 48 + (c - z)
       | None => 63
       end.

(** Blanks of the C locale: space, tab, newline, vertical tab, form feed,
    carriage return. *)
Definition is_c_space (c : Z) : bool :=
  (c =? 32) || ((9 <=? c) && (c <=? 13)).

Definition is_digit (c : Z) : bool := (48 <=? c) && (c <=? 57).

Fixpoint skip_spaces (s : pystr) : pystr :=
  match s with
  | c :: r => if is_c_space c then skip_spaces r else s
  | [] => []
  end.

(** The digit loop of [PyLong_FromString] in base ten: digits with single
    underscores between them.  Returns the value, the number of digits and
    what follows; [None] for a doubled or trailing underscore. *)
Fixpoint scan_digits (s : pystr) (acc : Z) (n : nat) (prev_us : bool)
  : option (Z * nat * pystr) :=
  match s with
  | c :: r =>
      if is_digit c then scan_digits r (acc * 10 + (c - 48)) (S n) false
      else if c =? 95 then
        if prev_us then None else scan_digits r acc n true
      else if prev_us then None else Some (acc, n, s)
  | [] => if prev_us then None else Some (acc, n, [])
  end.

(** [int(s)] for a [str]: [ValueError] unless [s] is blanks, an optional
    sign, digits (single underscores allowed between them), blanks. *)
Definition int_of_str (s : pystr) : res Z :=
  let t := skip_spaces (to_ascii_digit <$> s) in
  let '(neg, t) :=
    match t with
    | c :: r =>
        if c =? 43 then (false, r) else if c =? 45 then (true, r) else (false, t)
    | [] => (false, t)
    end in
  match t with
  | c :: _ =>
      if is_digit c then
        match scan_digits t 0 0 false with
        | Some (v, n, rest) =>
            if nonempty (skip_spaces rest) then Raise ValueError
            else if bool_decide (n ≤ int_max_str_digits)%nat
            then Ok (if neg then - v else v)
            else Raise ValueError
        | None => Raise ValueError
        end
      else Raise ValueError
  | [] => Raise ValueError
  end.

(** ** [hashlib.sha256] and [hmac]

    The keyed hash of the state token, computed as the library does.  The
    round constants are derived from the primes as the standard defines
    them: the first 32 bits of the fractional parts of the cube roots (round
    constants) and square roots (initial state) of the first primes. *)
Module Sha256.

Definition w32 (x : Z) : Z := x mod 2 ^ 32.
Definition add32 (x y : Z) : Z := w32 (x + y).
Definition rotr (n x : Z) : Z :=
  Z.lor (Z.shiftr x n) (w32 (Z.shiftl x (32 - n))).

Definition choose (x y z : Z) : Z :=
  Z.lxor (Z.land x y) (Z.land (Z.lxor x (2 ^ 32 - 1)) z).
Definition majority (x y z : Z) : Z :=
  Z.lxor (Z.lxor (Z.land x y) (Z.land x z)) (Z.land y z).
Definition big0 (x : Z) : Z := Z.lxor (Z.lxor (rotr 2 x) (rotr 13 x)) (rotr 22 x).
Definition big1 (x : Z) : Z := Z.lxor (Z.lxor (rotr 6 x) (rotr 11 x)) (rotr 25 x).
Definition small0 (x : Z) : Z := Z.lxor (Z.lxor (rotr 7 x) (rotr 18 x)) (Z.shiftr x 3).
Definition small1 (x : Z) : Z := Z.lxor (Z.lxor (rotr 17 x) (rotr 19 x)) (Z.shiftr x 10).

Definition primes64 : list Z :=
  [2; 3; 5; 7; 11; 13; 17; 19; 23; 29; 31; 37; 41; 43; 47; 53; 59; 61; 67;
   71; 73; 79; 83; 89; 97; 101; 103; 107; 109; 113; 127; 131; 137; 139;
   149; 151; 157; 163; 167; 173; 179; 181; 191; 193; 197; 199; 211; 223;
   227; 229; 233; 239; 241; 251; 257; 263; 269; 271; 277; 281; 283; 293;
   307; 311].

(** Integer cube root by bisection on the bits of the result. *)
Fixpoint cube_root_bits (k : nat) (n r : Z) : Z :=
  match k with
  | O => r
  | S k' =>
      let c := r + 2 ^ Z.of_nat k' in
      if c * c * c <=? n then cube_root_bits k' n c else cube_root_bits k' n r
  end.
Definition cube_root (n : Z) : Z := cube_root_bits 40 n 0.

Definition round_constants : list Z :=
  Eval vm_compute in (λ p, w32 (cube_root (p * 2 ^ 96))) <$> primes64.
Definition initial_state : list Z :=
  Eval vm_compute in (λ p, w32 (Z.sqrt (p * 2 ^ 64))) <$> take 8 primes64.

Definition state : Type := Z * Z * Z * Z * Z * Z * Z * Z.

Definition round (s : state) (kw : Z) : state :=
  let '(a, b, c, d, e, f, g, h) := s in
  let t1 := h + big1 e + choose e f g + kw in
  let t2 := big0 a + majority a b c in
  (w32 (t1 + t2), a, b, c, w32 (d + t1), e, f, g).

(** Big-endian words of a block. *)
Fixpoint words (b : bytes) : list Z :=
  match b with
  | b0 :: b1 :: b2 :: b3 :: r =>
      (((b0 * 256 + b1) * 256 + b2) * 256 + b3) :: words r
  | _ => []
  end.

(** The message schedule: [n] more words after the ones in [ws]. *)
Fixpoint schedule (n : nat) (ws : list Z) : list Z :=
  match n with
  | O => ws
  | S n' =>
      let t := length ws in
      let at_ i := nth (t - i) ws 0 in
      schedule n' (ws ++ [w32 (small1 (at_ 2%nat) + at_ 7%nat
                               + small0 (at_ 15%nat) + at_ 16%nat)])
  end.

Definition compress (s : state) (block : bytes) : state :=
  let ws := schedule 48 (words block) in
  let '(a, b, c, d, e, f, g, h) :=
    foldl round s (zip_with Z.add round_constants ws) in
  let '(a0, b0, c0, d0, e0, f0, g0, h0) := s in
  (add32 a0 a, add32 b0 b, add32 c0 c, add32 d0 d,
   add32 e0 e, add32 f0 f, add32 g0 g, add32 h0 h).

Definition be64 (n : Z) : bytes :=
  (λ i, (n / 2 ^ (8 * i)) mod 256) <$> [7; 6; 5; 4; 3; 2; 1; 0].

Definition pad (m : bytes) : bytes :=
  let len := Z.of_nat (length m) in
  m ++ [0x80] ++ replicate (Z.to_nat ((55 - len) mod 64)) 0 ++ be64 (8 * len).

Fixpoint blocks (fuel : nat) (m : bytes) : list bytes :=
  match fuel with
  | O => []
  | S f => match m with [] => [] | _ => take 64 m :: blocks f (drop 64 m) end
  end.

Definition of_list (l : list Z) : state :=
  match l with
  | [a; b; c; d; e; f; g; h] => (a, b, c, d, e, f, g, h)
  | _ => (0, 0, 0, 0, 0, 0, 0, 0)
  end.

Definition hash (m : bytes) : state :=
  let p := pad m in
  foldl compress (of_list initial_state) (blocks (length p) p).

Definition be32 (x : Z) : bytes :=
  [x / 2 ^ 24 mod 256; x / 2 ^ 16 mod 256; x / 2 ^ 8 mod 256; x mod 256].

Definition digest_of (s : state) : bytes :=
  let '(a, b, c, d, e, f, g, h) := s in
  be32 a ++ be32 b ++ be32 c ++ be32 d ++ be32 e ++ be32 f ++ be32 g ++ be32 h.

Definition digest (m : bytes) : bytes := digest_of (hash m).

End Sha256.

Module Hmac.

Definition block_size : nat := 64.

(** [hmac.new(key, msg, hashlib.sha256)]: a key longer than a block is
    hashed first, then padded with zeros to the block size. *)
Definition block_key (key : bytes) : bytes :=
  let k := if bool_decide (block_size < length key)%nat
           then Sha256.digest key else key in
  k ++ replicate (block_size - length k) 0.

Definition state_of (key msg : bytes) : Sha256.state :=
  let k := block_key key in
  let inner := Sha256.digest (((λ b, Z.lxor b 0x36) <$> k) ++ msg) in
  Sha256.hash (((λ b, Z.lxor b 0x5C) <$> k) ++ inner).

Definition hex_digit (d : Z) : Z := if d <? 10 then 48 + d else 87 + d.

Definition hex32 (x : Z) : pystr :=
  [hex_digit (x / 2 ^ 28 mod 16); hex_digit (x / 2 ^ 24 mod 16);
   hex_digit (x / 2 ^ 20 mod 16); hex_digit (x / 2 ^ 16 mod 16);
   hex_digit (x / 2 ^ 12 mod 16); hex_digit (x / 2 ^ 8 mod 16);
   hex_digit (x / 2 ^ 4 mod 16); hex_digit (x mod 16)].

(** [hmac.new(key, msg, hashlib.sha256).hexdigest()] *)
Definition hexdigest (key msg : bytes) : pystr :=
  let '(a, b, c, d, e, f, g, h) := state_of key msg in
  hex32 a ++ hex32 b ++ hex32 c ++ hex32 d
  ++ hex32 e ++ hex32 f ++ hex32 g ++ hex32 h.

(** [hmac.compare_digest(a, b)] on two [str]: equality, [TypeError] when
    either holds a non-ASCII character.  (The running time of the real
    function does not depend on where the strings differ; time is not part
    of this model.) *)
Definition compare_digest (a b : pystr) : res bool :=
  if forallb is_ascii a && forallb is_ascii b
  then Ok (bool_decide (a = b))
  else Raise TypeError.

End Hmac.

(** ** JSON values and data frames *)

(** What [json.load] produces.  JSON [null] is Python's [None]; numbers are
    the integers (the vault and the exchange only compare them with [0]). *)
#[local] Set Warnings "-register-all".
Inductive json :=
  | JNull
  | JBool (b : bool)
  | JInt (n : Z)
  | JStr (s : pystr)
  | JList (l : list json)
  | JObj (m : gmap pystr json).

(** Python's truth value of a JSON value. *)
Definition truthy (j : json) : bool :=
  match j with
  | JNull => false
  | JBool b => b
  | JInt n => negb (n =? 0)
  | JStr s => nonempty s
  | JList l => nonempty l
  | JObj m => negb (bool_decide (m = ∅))
  end.

(** [x or {}] *)
Definition or_empty_dict (j : json) : json := if truthy j then j else JObj ∅.

(** [d.get(k)] and [d.get(k, default)]: [AttributeError] unless [d] is a dict. *)
Definition json_get (d : json) (k : pystr) (dflt : json) : res json :=
  match d with
  | JObj m => Ok (default dflt (m !! k))
  | _ => Raise AttributeError
  end.

(** [d[k] = v]: only a dict takes a [str] key. *)
Definition json_setitem (d : json) (k : pystr) (v : json) : res json :=
  match d with
  | JObj m => Ok (JObj (<[k := v]> m))
  | _ => Raise TypeError
  end.

(** [d.setdefault(k, v)] *)
Definition json_setdefault (d : json) (k : pystr) (v : json) : res json :=
  match d with
  | JObj m => Ok (JObj (match m !! k with Some _ => m | None => <[k := v]> m end))
  | _ => Raise AttributeError
  end.

(** [del d[k]] *)
Definition json_delitem (d : json) (k : pystr) : res json :=
  match d with
  | JObj m => match m !! k with
              | Some _ => Ok (JObj (delete k m))
              | None => Raise KeyError
              end
  | _ => Raise TypeError
  end.

(** A cell of a spend frame.  Amounts are kept exact, in millionths of the
    currency unit. *)
Inductive cell :=
  | CStr (s : pystr)
  | CAmount (micros : Z).

(** A [pandas.DataFrame] built from a list of dicts: its rows, each a list of
    (column, value). *)
Definition frame : Type := list (list (pystr * cell)).

(** ** The world outside the interpreter *)

Record http_request := {
  rq_method : pystr;
  rq_url : pystr;
  rq_args : list (pystr * pystr);
}.

(** A [requests.Response]: [r.status_code], [r.text], and [r.json()], which
    raises when the body is not JSON. *)
Record http_response := {
  status_code : Z;
  text : pystr;
  body : res json;
}.

(** The OS secret store behind the [keyring] module.  A backend that does
    not work (none found, a locked keychain) raises on every call. *)
Record keyring_backend := {
  kr_entries : gmap (pystr * pystr) pystr;
  kr_works : bool;
}.

Record world := {
  (** [os.environ] *)
  environ : gmap pystr pystr;
  (** [int(time.time())] *)
  clock : Z;
  (** fresh bytes of [os.urandom], as a seed *)
  entropy : Z;
  (** [from cryptography.fernet import Fernet] succeeded: [_FERNET_AVAILABLE] *)
  fernet_imported : bool;
  (** the [keyring] module, [None] when its import failed:
      [_KEYRING_AVAILABLE] is [is_Some keyring] *)
  keyring : option keyring_backend;
  (** [from fastapi ...] succeeded: [HTMLResponse] is the class, else [None] *)
  fastapi_imported : bool;
  (** the module global [_FASTAPI_AVAILABLE] of [oauth_server] *)
  fastapi_available : bool;
  (** [from connectors import google_connector / tiktok_connector] succeeded *)
  google_connector_imported : bool;
  tiktok_connector_imported : bool;
  (** the parsed content of [data/connectors_meta.json]; [None] when the
      file is absent or does not parse (both are read as "no metadata") *)
  meta_file : option json;
  (** the rows last written to [data/spend.csv] *)
  spend_csv : option frame;
  (** [tokens.json] of the backend broker *)
  tokens_file : option json;
  (** the records handed to [logging] *)
  log : list pystr;
  (** the HTTP peers: what [requests.get]/[requests.post] return or raise *)
  http : http_request → res http_response;
  (** the rows a live spend query yields for (platform, token, ad account),
      empty when the provider fails or has nothing: for Google this is
      [_fetch_google_ads_spend], which catches every failure and returns [[]] *)
  live_spend : pystr → json → json → frame;
  (** [datetime.datetime.utcnow().isoformat()] and [datetime.now().isoformat()] *)
  utcnow_iso : pystr;
  now_iso : pystr;
}.

(** Field updates. *)
Definition set_entropy (x : Z) (w : world) : world :=
  {| environ := environ w; clock := clock w; entropy := x;
     fernet_imported := fernet_imported w; keyring := keyring w;
     fastapi_imported := fastapi_imported w;
     fastapi_available := fastapi_available w;
     google_connector_imported := google_connector_imported w;
     tiktok_connector_imported := tiktok_connector_imported w;
     meta_file := meta_file w; spend_csv := spend_csv w;
     tokens_file := tokens_file w; log := log w; http := http w;
     live_spend := live_spend w; utcnow_iso := utcnow_iso w;
     now_iso := now_iso w |}.

Definition set_keyring (x : option keyring_backend) (w : world) : world :=
  {| environ := environ w; clock := clock w; entropy := entropy w;
     fernet_imported := fernet_imported w; keyring := x;
     fastapi_imported := fastapi_imported w;
     fastapi_available := fastapi_available w;
     google_connector_imported := google_connector_imported w;
     tiktok_connector_imported := tiktok_connector_imported w;
     meta_file := meta_file w; spend_csv := spend_csv w;
     tokens_file := tokens_file w; log := log w; http := http w;
     live_spend := live_spend w; utcnow_iso := utcnow_iso w;
     now_iso := now_iso w |}.

Definition set_meta_file (x : option json) (w : world) : world :=
  {| environ := environ w; clock := clock w; entropy := entropy w;
     fernet_imported := fernet_imported w; keyring := keyring w;
     fastapi_imported := fastapi_imported w;
     fastapi_available := fastapi_available w;
     google_connector_imported := google_connector_imported w;
     tiktok_connector_imported := tiktok_connector_imported w;
     meta_file := x; spend_csv := spend_csv w;
     tokens_file := tokens_file w; log := log w; http := http w;
     live_spend := live_spend w; utcnow_iso := utcnow_iso w;
     now_iso := now_iso w |}.

Definition set_spend_csv (x : option frame) (w : world) : world :=
  {| environ := environ w; clock := clock w; entropy := entropy w;
     fernet_imported := fernet_imported w; keyring := keyring w;
     fastapi_imported := fastapi_imported w;
     fastapi_available := fastapi_available w;
     google_connector_imported := google_connector_imported w;
     tiktok_connector_imported := tiktok_connector_imported w;
     meta_file := meta_file w; spend_csv := x;
     tokens_file := tokens_file w; log := log w; http := http w;
     live_spend := live_spend w; utcnow_iso := utcnow_iso w;
     now_iso := now_iso w |}.

Definition set_tokens_file (x : option json) (w : world) : world :=
  {| environ := environ w; clock := clock w; entropy := entropy w;
     fernet_imported := fernet_imported w; keyring := keyring w;
     fastapi_imported := fastapi_imported w;
     fastapi_available := fastapi_available w;
     google_connector_imported := google_connector_imported w;
     tiktok_connector_imported := tiktok_connector_imported w;
     meta_file := meta_file w; spend_csv := spend_csv w;
     tokens_file := x; log := log w; http := http w;
     live_spend := live_spend w; utcnow_iso := utcnow_iso w;
     now_iso := now_iso w |}.

Definition set_log (x : list pystr) (w : world) : world :=
  {| environ := environ w; clock := clock w; entropy := entropy w;
     fernet_imported := fernet_imported w; keyring := keyring w;
     fastapi_imported := fastapi_imported w;
     fastapi_available := fastapi_available w;
     google_connector_imported := google_connector_imported w;
     tiktok_connector_imported := tiktok_connector_imported w;
     meta_file := meta_file w; spend_csv := spend_csv w;
     tokens_file := tokens_file w; log := x; http := http w;
     live_spend := live_spend w; utcnow_iso := utcnow_iso w;
     now_iso := now_iso w |}.

Definition set_fastapi_available (x : bool) (w : world) : world :=
  {| environ := environ w; clock := clock w; entropy := entropy w;
     fernet_imported := fernet_imported w; keyring := keyring w;
     fastapi_imported := fastapi_imported w;
     fastapi_available := x;
     google_connector_imported := google_connector_imported w;
     tiktok_connector_imported := tiktok_connector_imported w;
     meta_file := meta_file w; spend_csv := spend_csv w;
     tokens_file := tokens_file w; log := log w; http := http w;
     live_spend := live_spend w; utcnow_iso := utcnow_iso w;
     now_iso := now_iso w |}.

(** A process with nothing configured: no environment variables, no
    keyring module, no files, peers that refuse every connection.  The
    concrete worlds of the examples below are built from it. *)
Definition bare_world : world :=
  {| environ := ∅; clock := 0; entropy := 0;
     fernet_imported := true; keyring := None;
     fastapi_imported := true; fastapi_available := true;
     google_connector_imported := true; tiktok_connector_imported := true;
     meta_file := None; spend_csv := None; tokens_file := None; log := [];
     http := λ _, Raise ConnectionError;
     live_spend := λ _ _ _, []; utcnow_iso := py "1970-01-01T00:00:00";
     now_iso := py "1970-01-01T00:00:00" |}.

Definition with_env (vars : list (string * string)) (w : world) : world :=
  {| environ := list_to_map ((λ '(k, v), (py k, py v)) <$> vars);
     clock := clock w; entropy := entropy w;
     fernet_imported := fernet_imported w; keyring := keyring w;
     fastapi_imported := fastapi_imported w;
     fastapi_available := fastapi_available w;
     google_connector_imported := google_connector_imported w;
     tiktok_connector_imported := tiktok_connector_imported w;
     meta_file := meta_file w; spend_csv := spend_csv w;
     tokens_file := tokens_file w; log := log w; http := http w;
     live_spend := live_spend w; utcnow_iso := utcnow_iso w;
     now_iso := now_iso w |}.

Definition at_time (t : Z) (w : world) : world :=
  {| environ := environ w; clock := t; entropy := entropy w;
     fernet_imported := fernet_imported w; keyring := keyring w;
     fastapi_imported := fastapi_imported w;
     fastapi_available := fastapi_available w;
     google_connector_imported := google_connector_imported w;
     tiktok_connector_imported := tiktok_connector_imported w;
     meta_file := meta_file w; spend_csv := spend_csv w;
     tokens_file := tokens_file w; log := log w; http := http w;
     live_spend := live_spend w; utcnow_iso := utcnow_iso w;
     now_iso := now_iso w |}.

Definition env_get (w : world) (name : string) : option pystr :=
  environ w !! py name.

(** Truthiness of [os.environ.get(name)]: set and not empty. *)
Definition env_truthy (o : option pystr) : bool :=
  match o with Some s => nonempty s | None => false end.

(** [a or b] on two optional strings. *)
Definition or_else (a b : option pystr) : option pystr :=
  if env_truthy a then a else b.

(** ** [connectors/state.py] *)

Section state.

(** [_get_key]: the signing key, [None] when neither variable is set to a
    non-empty value.  The [encode] of the value can raise. *)
Definition _get_key (w : world) : res (option bytes) :=
  let k := or_else (env_get w "DASHBOARD_HMAC_KEY")
                   (env_get w "DASHBOARD_SECRET_KEY") in
  match k with
  | Some s => if nonempty s then b ← str_encode s; Ok (Some b) else Ok None
  | None => Ok None
  end.

(** Truthiness of the result of [_get_key]. *)
Definition key_truthy (k : option bytes) : bool :=
  match k with Some b => nonempty b | None => false end.

(** [make_state_token(email, ttl_seconds)].  The time-to-live is not part
    of the token: only the issue time is. *)
Definition make_state_token (w : world) (email : pystr) (ttl_seconds : Z)
  : res pystr :=
  let ts := clock w in
  ts_s ← int_to_str ts;
  let payload := email ++ py "|" ++ ts_s in
  key ← _get_key w;
  pb ← str_encode payload;
  b64 ← bytes_decode (urlsafe_b64encode pb);
  if key_truthy key then
    pb' ← str_encode payload;
    let sig := Hmac.hexdigest (default [] key) pb' in
    Ok (b64 ++ py "." ++ sig)
  else Ok b64.

(** The unsigned branch: the whole token is the base64 text. *)
Definition unsigned_payload (token : pystr) : res pystr :=
  tb ← str_encode token;
  raw ← urlsafe_b64decode tb;
  bytes_decode raw.

(** The signed branch: [None] stands for the early [return None] on a
    signature mismatch. *)
Definition signed_payload (k : bytes) (token : pystr) : res (option pystr) :=
  match split_last 46 token with
  | Some (b64payload, sig) =>
      tb ← str_encode b64payload;
      raw ← urlsafe_b64decode tb;
      payload ← bytes_decode raw;
      pb ← str_encode payload;
      let expected := Hmac.hexdigest k pb in
      same ← Hmac.compare_digest expected sig;
      Ok (if (same : bool) then Some payload else None)
  | None => Raise ValueError
  end.

(** What follows the [if]/[else]: split the payload, parse the time,
    compare the age. *)
Definition check_age (w : world) (payload : pystr) (max_age_seconds : Z)
  : res (option pystr) :=
  match split_first 124 payload with
  | Some (email, ts_s) =>
      ts ← int_of_str ts_s;
      if max_age_seconds <? clock w - ts then Ok None else Ok (Some email)
  | None => Raise ValueError
  end.

(** The body of the [try] block of [verify_state_token]. *)
Definition verify_body (w : world) (key : option bytes) (token : pystr)
    (max_age_seconds : Z) : res (option pystr) :=
  checked ←
    (if contains 46 token && key_truthy key
     then signed_payload (default [] key) token
     else Some <$> unsigned_payload token);
  match checked with
  | None => Ok None
  | Some payload => check_age w payload max_age_seconds
  end.

(** [verify_state_token(token, max_age_seconds)]: the key is read before
    the [try]; whatever the body raises becomes [None]. *)
Definition verify_state_token (w : world) (token : pystr)
    (max_age_seconds : Z) : res (option pystr) :=
  key ← _get_key w;
  try_except (verify_body w key token max_age_seconds) (Ok None).

End state.

(** ** Effects: state and exceptions *)

(** An effectful Python function: from the world before to the world after
    and what the call returned or raised. *)
Definition M (A : Type) : Type := world → world * res A.

Definition ret {A} (a : A) : M A := λ w, (w, Ok a).
Definition throw {A} (e : exn) : M A := λ w, (w, Raise e).
Definition lift {A} (r : res A) : M A := λ w, (w, r).
Definition gets {A} (f : world → A) : M A := λ w, (w, Ok (f w)).
Definition reads {A} (f : world → res A) : M A := λ w, (w, f w).
Definition modify (f : world → world) : M unit := λ w, (f w, Ok tt).

Definition bind {A B} (m : M A) (f : A → M B) : M B := λ w,
  match m w with
  | (w', Ok a) => f a w'
  | (w', Raise e) => (w', Raise e)
  end.

(** [try: m except Exception: h]: the effects of [m] up to the exception
    stay. *)
Definition catch {A} (m h : M A) : M A := λ w,
  match m w with
  | (w', Ok a) => (w', Ok a)
  | (w', Raise _) => h w'
  end.

(** [try: m except Exception as e: h e] *)
Definition catch_as {A} (m : M A) (h : exn → M A) : M A := λ w,
  match m w with
  | (w', Ok a) => (w', Ok a)
  | (w', Raise e) => h e w'
  end.

Notation "'let*' x ':=' m 'in' k" := (bind m (λ x, k))
  (at level 10, x pattern, m at level 100, k at level 200).
Notation "m ';;' k" := (bind m (λ _, k))
  (at level 100, k at level 200, right associativity).

(** [logging.getLogger('profit_dashboard').info(...)] and its siblings. *)
Definition log_record (level msg : pystr) : M unit :=
  modify (λ w, set_log (log w ++ [level ++ py ": " ++ msg]) w).
Definition log_info := log_record (py "INFO").
Definition log_error := log_record (py "ERROR").

(** ** Library functions taken as given *)

(** The authenticated cipher of [cryptography.fernet] (AES-CBC and HMAC
    under a 32-byte key, with a timestamp and a random IV) and Python's text
    form of values, with the facts about them the vault relies on. *)
Class Library := {
  (** [Fernet(key)._encrypt_from_parts(data, time, iv)] *)
  fernet_encrypt : bytes → Z → Z → bytes → bytes;
  (** [Fernet(key).decrypt(token)], [None] for [InvalidToken] *)
  fernet_decrypt : bytes → bytes → option bytes;
  fernet_round_trip : ∀ k t iv m,
    forallb is_byte m = true →
    fernet_decrypt k (fernet_encrypt k t iv m) = Some m;
  fernet_token_bytes : ∀ k t iv m,
    forallb is_byte (fernet_encrypt k t iv m) = true;
  fernet_token_nonempty : ∀ k t iv m,
    nonempty (fernet_encrypt k t iv m) = true;
  (** [str(x)] and [f"{x}"] on a JSON value *)
  py_str : json → pystr;
  py_str_str : ∀ s, py_str (JStr s) = s;
  (** [str(e)] on an exception *)
  exn_str : exn → pystr;
}.

Section vault.
Context `{Library}.

(** [Fernet(key)]: the key is 32 bytes in URL-safe base64. *)
Definition fernet_new (key : bytes) : res bytes :=
  match urlsafe_b64decode key with
  | Ok k => if bool_decide (length k = 32%nat) then Ok k else Raise ValueError
  | Raise _ => Raise ValueError
  end.

Definition can_encrypt (w : world) : bool :=
  fernet_imported w && env_truthy (env_get w "DASHBOARD_SECRET_KEY").

Definition can_use_keyring (w : world) : bool :=
  bool_decide (is_Some (keyring w)).

(** [x.encode(...)], [x] any JSON value: only a [str] has the method. *)
Definition as_str (j : json) : res pystr :=
  match j with JStr s => Ok s | _ => Raise AttributeError end.

(** [encrypt_token(token)]: [None] without the library or the key; the
    constructor of the cipher and the [encode] of the token can raise. *)
Definition encrypt_token (token : json) : M (option bytes) := λ w,
  if negb (fernet_imported w) then (w, Ok None)
  else match env_get w "DASHBOARD_SECRET_KEY" with
       | Some key =>
           if nonempty key then
             match (kb ← str_encode key; f ← fernet_new kb;
                    t ← as_str token; tb ← str_encode t; Ok (f, tb)) with
             | Ok (f, tb) =>
                 (set_entropy (entropy w + 1) w,
                  Ok (Some (fernet_encrypt f (clock w) (entropy w) tb)))
             | Raise e => (w, Raise e)
             end
           else (w, Ok None)
       | None => (w, Ok None)
       end.

(** [decrypt_token(token_encrypted)]: the constructor is outside the [try]. *)
Definition decrypt_token (w : world) (token_encrypted : bytes)
  : res (option pystr) :=
  if negb (fernet_imported w) then Ok None
  else match env_get w "DASHBOARD_SECRET_KEY" with
       | Some key =>
           if nonempty key then
             kb ← str_encode key;
             f ← fernet_new kb;
             try_except
               (match fernet_decrypt f token_encrypted with
                | Some pt => s ← bytes_decode pt; Ok (Some s)
                | None => Raise InvalidToken
                end)
               (Ok None)
           else Ok None
       | None => Ok None
       end.

(** *** The keyring *)

Definition service : pystr := py "profit_dashboard".

(** [keyring.set_password(service, username, password)] *)
Definition keyring_set_password (username : pystr) (password : json) : M unit :=
  λ w,
  match keyring w with
  | Some kr =>
      match password with
      | JStr pw =>
          if kr_works kr then
            (set_keyring
               (Some {| kr_entries := <[(service, username) := pw]> (kr_entries kr);
                        kr_works := true |}) w,
             Ok tt)
          else (w, Raise KeyringError)
      | _ => (w, Raise TypeError)
      end
  | None => (w, Raise AttributeError)
  end.

(** [keyring.get_password(service, username)] *)
Definition keyring_get_password (w : world) (username : pystr)
  : res (option pystr) :=
  match keyring w with
  | Some kr =>
      if kr_works kr then Ok (kr_entries kr !! (service, username))
      else Raise KeyringError
  | None => Raise AttributeError
  end.

(** *** The metadata file *)

(** [load_meta(platform)]: the platform's entry, with the client secret
    decrypted beside its ciphertext when that is possible; [None] ([JNull])
    when there is no file or anything fails.  An entry that is not a dict is
    returned as it is: the membership test or the [get] on it is false or
    raises, inside the [try] blocks. *)
Definition load_meta (w : world) (platform : pystr) : json :=
  match meta_file w with
  | None => JNull
  | Some data =>
      match json_get data platform JNull with
      | Raise _ => JNull
      | Ok (JObj m) =>
          match m !! py "client_secret_enc" with
          | Some enc =>
              if truthy (JObj m) && can_encrypt w then
                match (s ← as_str enc; eb ← latin1_encode s; decrypt_token w eb) with
                | Ok (Some dec) =>
                    if nonempty dec
                    then JObj (<[py "client_secret" := JStr dec]> m)
                    else JObj m
                | _ => JObj m
                end
              else JObj m
          | None => JObj m
          end
      | Ok cfg => cfg
      end
  end.

(** The [try] block of [save_meta] that encrypts a client secret: on any
    failure the metadata are left as they were. *)
Definition seal_client_secret (meta : gmap pystr json) : M (gmap pystr json) :=
  λ w,
  match meta !! py "client_secret" with
  | Some secret =>
      if can_encrypt w then
        match encrypt_token secret w with
        | (w', Ok (Some enc)) =>
            if nonempty enc
            then (w', Ok (delete (py "client_secret")
                           (<[py "client_secret_enc" := JStr (latin1_decode enc)]> meta)))
            else (w', Ok meta)
        | (w', _) => (w', Ok meta)
        end
      else (w, Ok meta)
  | None => (w, Ok meta)
  end.

(** [existing.update(meta)] *)
Definition json_update (existing : json) (meta : gmap pystr json) : res json :=
  match existing with
  | JObj m => Ok (JObj (meta ∪ m))
  | _ => Raise AttributeError
  end.

(** [save_meta(platform, meta)]: read, merge into the platform's entry,
    write back.  Every caller passes a dict. *)
Definition save_meta (platform : pystr) (meta : json) : M unit :=
  match meta with
  | JObj meta =>
      let* data := gets (λ w, default (JObj ∅) (meta_file w)) in
      let* meta := seal_client_secret meta in
      let* existing := lift (json_get data platform (JObj ∅)) in
      let* existing := lift (json_update existing meta) in
      let* data := lift (json_setitem data platform existing) in
      modify (set_meta_file (Some data))
  | _ => throw TypeError
  end.

(** *** Tokens per platform and user *)

Inductive platform := Meta | Google | TikTok.

(** The key of the platform in the metadata file and in keyring names. *)
Definition plat_key (p : platform) : pystr :=
  match p with
  | Meta => py "meta"
  | Google => py "google"
  | TikTok => py "tiktok"
  end.

Definition plat_label (p : platform) : pystr :=
  match p with
  | Meta => py "Meta"
  | Google => py "Google"
  | TikTok => py "TikTok"
  end.

(** [user_email or 'default'] *)
Definition email_key_of (user_email : option pystr) : pystr :=
  match user_email with
  | Some e => if nonempty e then e else py "default"
  | None => py "default"
  end.

(** [f'meta_access_token_{email_key}'] and its siblings *)
Definition keyring_username (p : platform) (email_key : pystr) : pystr :=
  plat_key p ++ py "_access_token_" ++ email_key.

(** [load_meta(platform) or {}] *)
Definition load_meta_or_empty (w : world) (p : platform) : json :=
  or_empty_dict (load_meta w (plat_key p)).

(** The record logged when the keyring branch fails, and the one logged
    after a migration: the Meta connector words them its own way. *)
Definition keyring_failure_note (p : platform) (email_key : pystr) : pystr :=
  match p with
  | Meta => py "Failed to store token in keyring for " ++ email_key
            ++ py ", falling back to encrypted file."
  | _ => py "Failed to store " ++ plat_label p ++ py " token in keyring; falling back."
  end.

Definition migrated_note (p : platform) (email_key : pystr) : pystr :=
  match p with
  | Meta => py "Migrated token for " ++ email_key ++ py " to keyring."
  | _ => py "Migrated " ++ plat_label p ++ py " token for " ++ email_key
         ++ py " to keyring."
  end.

(** The keyring branch of [store_token_for_*_user]: [true] stands for its
    [return True], [false] for falling through after the [except]. *)
Definition store_in_keyring (p : platform) (email_key : pystr) (token : json)
  : M bool :=
  catch
    (keyring_set_password (keyring_username p email_key) token;;
     let* meta := gets (λ w, load_meta_or_empty w p) in
     let* meta := lift (json_setdefault meta (py "last_sync") JNull) in
     save_meta (plat_key p) meta;;
     log_info (py "Stored " ++ plat_label p ++ py " token in OS keyring for "
               ++ email_key ++ py ".");;
     ret true)
    (log_error (keyring_failure_note p email_key);;
     ret false).

(** The fallback of [store_token_for_*_user]: the encrypted file. *)
Definition store_in_file (p : platform) (email_key : pystr) (token : json)
  : M bool :=
  let* able := gets can_encrypt in
  if negb able then ret false
  else
    let* enc := encrypt_token token in
    match enc with
    | None => ret false
    | Some enc =>
        if negb (nonempty enc) then ret false
        else
          let* meta := gets (λ w, load_meta_or_empty w p) in
          let* tokens := lift (json_get meta (py "tokens") (JObj ∅)) in
          let* tokens :=
            lift (json_setitem tokens email_key (JStr (latin1_decode enc))) in
          let* meta := lift (json_setitem meta (py "tokens") tokens) in
          let* meta := lift (json_setdefault meta (py "last_sync") JNull) in
          save_meta (plat_key p) meta;;
          log_info (py "Stored " ++ plat_label p
                    ++ py " token in encrypted file for " ++ email_key ++ py ".");;
          ret true
    end.

(** [store_token_for_meta_user], [store_token_for_google_user] and
    [store_token_for_tiktok_user] are this function at their platform: the
    three differ in the platform's name only. *)
Definition store_token_for_user (p : platform) (token : json)
    (user_email : option pystr) : M bool :=
  let email_key := email_key_of user_email in
  let* kr := gets can_use_keyring in
  let* stored := (if kr then store_in_keyring p email_key token else ret false) in
  if stored then ret true else store_in_file p email_key token.

Definition store_token_for_meta_user := store_token_for_user Meta.
Definition store_token_for_google_user := store_token_for_user Google.
Definition store_token_for_tiktok_user := store_token_for_user TikTok.

(** [store_token_for_meta(token)]: the default slot. *)
Definition store_token_for_meta (token : json) : M bool :=
  store_token_for_meta_user token None.

(** The keyring probe shared by the getters: a non-empty password, if the
    keyring is there and answers. *)
Definition keyring_token (w : world) (p : platform) (email_key : pystr)
  : option pystr :=
  if can_use_keyring w then
    match keyring_get_password w (keyring_username p email_key) with
    | Ok (Some t) => if nonempty t then Some t else None
    | _ => None
    end
  else None.

(** [get_token_for_meta_user] and its siblings. *)
Definition get_token_for_user (p : platform) (user_email : option pystr)
    (w : world) : res (option pystr) :=
  let email_key := email_key_of user_email in
  match keyring_token w p email_key with
  | Some t => Ok (Some t)
  | None =>
      let m := load_meta_or_empty w p in
      tokens ← json_get m (py "tokens") (JObj ∅);
      enc ← json_get tokens email_key JNull;
      if negb (truthy enc) then Ok None
      else try_except
             (s ← as_str enc; eb ← latin1_encode s; decrypt_token w eb)
             (Ok None)
  end.

Definition get_token_for_meta_user := get_token_for_user Meta.
Definition get_token_for_google_user := get_token_for_user Google.
Definition get_token_for_tiktok_user := get_token_for_user TikTok.
Definition get_token_for_meta : world → res (option pystr) :=
  get_token_for_meta_user None.

(** [token_storage_location_for_user]: ['keyring'], ['encrypted_file'] or
    ['none']. *)
Definition token_storage_location_for_user (p : platform)
    (user_email : option pystr) (w : world) : res pystr :=
  let email_key := email_key_of user_email in
  match keyring_token w p email_key with
  | Some _ => Ok (py "keyring")
  | None =>
      tokens ← json_get (load_meta_or_empty w p) (py "tokens") (JObj ∅);
      if truthy tokens then
        enc ← json_get tokens email_key JNull;
        Ok (if truthy enc then py "encrypted_file" else py "none")
      else Ok (py "none")
  end.

(** [token_storage_location()] of the Meta connector. *)
Definition token_storage_location : world → res pystr :=
  token_storage_location_for_user Meta None.

(** [migrate_file_token_to_keyring_for_user]. *)
Definition migrate_file_token_to_keyring_for_user (p : platform)
    (user_email : option pystr) : M bool :=
  let* kr := gets can_use_keyring in
  if negb kr then ret false
  else
    let email_key := email_key_of user_email in
    let* m := gets (λ w, load_meta_or_empty w p) in
    let* tokens := lift (json_get m (py "tokens") (JObj ∅)) in
    let* enc := lift (json_get tokens email_key JNull) in
    if negb (truthy enc) then ret false
    else
      catch
        (let* token :=
           reads (λ w, s ← as_str enc; eb ← latin1_encode s; decrypt_token w eb) in
         match token with
         | None => ret false
         | Some token =>
             if negb (nonempty token) then ret false
             else
               keyring_set_password (keyring_username p email_key) (JStr token);;
               let m' :=
                 match (t ← json_delitem tokens email_key;
                        json_setitem m (py "tokens") t) with
                 | Ok m' => m'
                 | Raise _ => m
                 end in
               save_meta (plat_key p) m';;
               log_info (migrated_note p email_key);;
               ret true
         end)
        (ret false).

(** The legacy [migrate_file_token_to_keyring()] of the Meta connector: it
    reads the single-token field [access_token_encrypted] and writes the
    keyring entry [meta_access_token]. *)
Definition migrate_file_token_to_keyring : M bool :=
  let* kr := gets can_use_keyring in
  if negb kr then ret false
  else
    let* m := gets (λ w, load_meta_or_empty w Meta) in
    let* enc := lift (json_get m (py "access_token_encrypted") JNull) in
    if negb (truthy enc) then ret false
    else
      catch
        (let* token :=
           reads (λ w, s ← as_str enc; eb ← latin1_encode s; decrypt_token w eb) in
         match token with
         | None => ret false
         | Some token =>
             if negb (nonempty token) then ret false
             else
               keyring_set_password (py "meta_access_token") (JStr token);;
               let m' :=
                 match json_delitem m (py "access_token_encrypted") with
                 | Ok m' => m'
                 | Raise _ => m
                 end in
               save_meta (py "meta") m';;
               ret true
         end)
        (ret false).

(** What the vault persists: the keyring and the metadata file. *)
Definition persisted (w : world) : option keyring_backend * option json :=
  (keyring w, meta_file w).

End vault.

(** ** Spend fetch with the demo fallback *)

Section spend.
Context `{Library}.

Definition demo_row (campaign : string) (units : Z) (label : pystr)
    (date : string) : list (pystr * cell) :=
  [(py "campaign_id", CStr (py campaign));
   (py "ad_spend", CAmount (units * 1000000));
   (py "platform", CStr label);
   (py "date", CStr (py date))].

(** The synthetic rows of each connector. *)
Definition demo_frame (p : platform) : frame :=
  match p with
  | Meta =>
      [demo_row "campA" 120 (py "Meta") "2025-01-01";
       demo_row "campB" 90 (py "Meta") "2025-01-02"]
  | Google =>
      [demo_row "g_campA" 500 (py "Google") "2025-01-01";
       demo_row "g_campB" 250 (py "Google") "2025-01-02"]
  | TikTok =>
      [demo_row "t_campA" 400 (py "TikTok") "2025-01-01";
       demo_row "t_campB" 180 (py "TikTok") "2025-01-02"]
  end.

Definition ad_account_env (p : platform) : string :=
  match p with
  | Meta => "META_AD_ACCOUNT_ID"
  | Google => "GOOGLE_AD_ACCOUNT_ID"
  | TikTok => "TIKTOK_AD_ACCOUNT_ID"
  end.

(** [update_last_sync(platform)] *)
Definition update_last_sync (p : platform) : M unit :=
  let* m := gets (λ w, load_meta_or_empty w p) in
  let* stamp := gets (λ w, utcnow_iso w ++ py "Z") in
  let* m := lift (json_setitem m (py "last_sync") (JStr stamp)) in
  save_meta (plat_key p) m.

(** [access_token or get_token...()]: the Meta connector falls back to its
    default slot, the other two to the slot of the user. *)
Definition resolve_token (p : platform) (access_token : json)
    (user_email : option pystr) (w : world) : res json :=
  if truthy access_token then Ok access_token
  else
    t ← get_token_for_user p (match p with Meta => None | _ => user_email end) w;
    Ok (match t with Some t => JStr t | None => JNull end).

(** The account mapped to the user under [email_ad_accounts], read inside a
    [try] block: [None] on any failure. *)
Definition mapped_account (meta : json) (user_email : option pystr) : json :=
  match user_email with
  | Some e =>
      if nonempty e then
        match (em ← json_get meta (py "email_ad_accounts") (JObj ∅);
               let em := or_empty_dict em in
               if truthy em then
                 a ← json_get em e JNull;
                 Ok (if truthy a then a else JNull)
               else Ok JNull) with
        | Ok a => a
        | Raise _ => JNull
        end
      else JNull
  | None => JNull
  end.

(** The ad account: the environment first, then the user's mapping, then
    the platform's [ad_account_id]. *)
Definition resolve_ad_account (p : platform) (user_email : option pystr)
    (w : world) : res json :=
  let env := env_get w (ad_account_env p) in
  if env_truthy env then Ok (JStr (default [] env))
  else
    let meta := load_meta_or_empty w p in
    let a := mapped_account meta user_email in
    if truthy a then Ok a else json_get meta (py "ad_account_id") JNull.

(** [df.to_csv(out); update_last_sync(...)] inside [try ... except: pass]. *)
Definition write_spend_csv (p : platform) (df : frame) (note : option pystr)
  : M unit :=
  catch
    (modify (set_spend_csv (Some df));;
     update_last_sync p;;
     match note with Some n => log_info n | None => ret tt end)
    (ret tt).

Definition api_name (p : platform) : pystr :=
  match p with
  | Meta => py "Meta Marketing API"
  | Google => py "Google Ads API"
  | TikTok => py "TikTok Marketing API"
  end.

Definition synthetic_note (p : platform) : pystr :=
  match p with
  | Meta => py "Using synthetic Meta Ads data (no token or ad account)"
  | Google => py "Using synthetic Google Ads data (no token or customer ID)"
  | TikTok => py "Using synthetic TikTok Ads data (no token or advertiser ID)"
  end.

(** [fetch_spend_and_persist(access_token, user_email, write_to_csv)] of the
    three connectors.  The live query is the world's [live_spend]; the
    warnings it logs when it fails are not part of the model. *)
Definition fetch_spend_and_persist (p : platform) (access_token : json)
    (user_email : option pystr) (write_to_csv : bool) : M frame :=
  let* token := reads (resolve_token p access_token user_email) in
  let* ad_account := reads (resolve_ad_account p user_email) in
  let* rows :=
    gets (λ w, if truthy token && truthy ad_account
               then live_spend w (plat_key p) token ad_account else []) in
  if nonempty rows then
    (if write_to_csv then
       write_spend_csv p rows
         (Some (py "Fetched " ++ decimal (Z.of_nat (length rows))
                ++ py " rows from " ++ api_name p))
     else ret tt);;
    ret rows
  else
    log_info (synthetic_note p);;
    (if write_to_csv then write_spend_csv p (demo_frame p) None else ret tt);;
    ret (demo_frame p).

End spend.

(** ** [connectors/oauth_server.py]: the callback *)

Section oauth_server.
Context `{Library}.

(** What the handler returns: an [HTMLResponse], a [(message, status)]
    tuple, or a plain string. *)
Inductive response :=
  | HTMLResponse (content : pystr) (status : Z)
  | Pair (message : pystr) (status : Z)
  | Text (message : pystr).

(** [HTMLResponse(content, status_code=status)]: without FastAPI the name is
    bound to [None] and the call raises [TypeError]. *)
Definition html_response (content : pystr) (status : Z) : M response := λ w,
  if fastapi_imported w then (w, Ok (HTMLResponse content status))
  else (w, Raise TypeError).

(** [(msg, status) if not _FASTAPI_AVAILABLE else HTMLResponse(msg, status_code=status)] *)
Definition pair_or_html (msg : pystr) (status : Z) : M response := λ w,
  if negb (fastapi_available w) then (w, Ok (Pair msg status))
  else html_response msg status w.

(** [s.lower()], exact on ASCII and on the one other character whose lower
    case is ASCII (the Kelvin sign); other characters are left as they are,
    which the comparisons with ASCII literals below cannot tell. *)
Definition py_lower (s : pystr) : pystr :=
  (λ c, if (65 <=? c) && (c <=? 90) then c + 32
        else if c =? 0x212A then 107 else c) <$> s.

Definition opt_truthy (o : option pystr) : bool := env_truthy o.

Definition one_of (s : pystr) (names : list string) : bool :=
  bool_decide (s ∈ py <$> names).

Definition http_get (url : string) (args : list (string * pystr))
  : M http_response :=
  reads (λ w, http w {| rq_method := py "GET"; rq_url := py url;
                        rq_args := prod_map py id <$> args |}).

Definition http_post (url : string) (args : list (string * pystr))
  : M http_response :=
  reads (λ w, http w {| rq_method := py "POST"; rq_url := py url;
                        rq_args := prod_map py id <$> args |}).

Definition env_or (w : world) (name : string) (dflt : string) : pystr :=
  match env_get w name with
  | Some v => if nonempty v then v else py dflt
  | None => py dflt
  end.

(** The Meta branch of the code exchange: a short-lived token, then the
    long-lived one, the short-lived one staying when the upgrade fails.
    [inl] is an early [return] of the handler. *)
Definition exchange_meta_code (code : pystr) : M (response + json) :=
  let* client_id := gets (λ w, env_get w "META_CLIENT_ID") in
  let* client_secret := gets (λ w, env_get w "META_CLIENT_SECRET") in
  let* redirect_uri :=
    gets (λ w, env_or w "META_REDIRECT_URI" "http://localhost:8888/callback") in
  if negb (opt_truthy client_id) || negb (opt_truthy client_secret) then
    let* r := html_response (py "Missing client credentials in environment") 500 in
    ret (inl r)
  else
    let id := default [] client_id in
    let secret := default [] client_secret in
    let* r :=
      http_get "https://graph.facebook.com/v17.0/oauth/access_token"
        [("client_id", id); ("redirect_uri", redirect_uri);
         ("client_secret", secret); ("code", code)] in
    if negb (status_code r =? 200) then
      log_error (py "Failed to exchange code for token: " ++ text r);;
      let* r := html_response (py "Failed to exchange code: " ++ text r) 500 in
      ret (inl r)
    else
      let* data := lift (body r) in
      let* short_lived := lift (json_get data (py "access_token") JNull) in
      if negb (truthy short_lived) then
        let* r := html_response (py "No access_token returned by provider") 500 in
        ret (inl r)
      else
        let* r2 :=
          http_get "https://graph.facebook.com/v17.0/oauth/access_token"
            [("grant_type", py "fb_exchange_token"); ("client_id", id);
             ("client_secret", secret); ("fb_exchange_token", py_str short_lived)] in
        if negb (status_code r2 =? 200) then
          log_error (py "Failed to exchange to long-lived token: " ++ text r2);;
          ret (inr short_lived)
        else
          let* data2 := lift (body r2) in
          let* long_lived := lift (json_get data2 (py "access_token") JNull) in
          ret (inr long_lived).

(** The token to store: the one handed in, or the one exchanged for the code. *)
Definition obtain_token (plat : pystr) (code token : option pystr)
  : M (response + json) :=
  let long_token := if opt_truthy token then JStr (default [] token) else JNull in
  if negb (truthy long_token) && opt_truthy code then
    if one_of plat ["meta"; "facebook"] then exchange_meta_code (default [] code)
    else if one_of plat ["google"; "google_ads"] then
      if negb (opt_truthy token) then
        let* r := html_response
          (py "Google code exchange not implemented in dev server; use simulated token or configure real OAuth.") 400 in
        ret (inl r)
      else ret (inr long_token)
    else if one_of plat ["tiktok"] then
      if negb (opt_truthy token) then
        let* r := html_response
          (py "TikTok code exchange not implemented in dev server; use simulated token or configure real OAuth.") 400 in
        ret (inl r)
      else ret (inr long_token)
    else
      if negb (opt_truthy token) then
        let* r := html_response (py "Unknown platform and no token provided") 400 in
        ret (inl r)
      else ret (inr long_token)
  else ret (inr long_token).

(** The development fallback: a state that fails verification but holds an
    [@] is taken as the email itself. *)
Definition state_fallback (st : pystr) (message : string)
  : M (response + option pystr) :=
  if contains 64 st then ret (inr (Some st))
  else
    let* r := html_response (py message) 400 in
    ret (inl r).

(** [if state: try: ... except Exception: ...]: the user the state stands
    for, or the early [return]. *)
Definition resolve_state (state : option pystr) : M (response + option pystr) :=
  match state with
  | Some st =>
      if nonempty st then
        catch
          (let* user_email := reads (λ w, verify_state_token w st 600) in
           if opt_truthy user_email then ret (inr user_email)
           else state_fallback st "Invalid or expired state token")
          (state_fallback st "Invalid state token")
      else ret (inr None)
  | None => ret (inr None)
  end.

(** [len(df_new)] after the sync, inside its own [try]. *)
Definition sync_rows (p : platform) (long_token : json)
    (user_email : option pystr) : M (option nat) :=
  catch
    (let* df := fetch_spend_and_persist p long_token user_email true in
     ret (Some (length df)))
    (ret None).

Definition store_for (p : platform) (long_token : json)
    (user_email : option pystr) : M bool :=
  if opt_truthy user_email then store_token_for_user p long_token user_email
  else store_token_for_user p long_token None.

(** The [try] block that stores the token and runs the first sync:
    [(stored_ok, rows_returned)]. *)
Definition store_and_sync (plat : pystr) (long_token : json)
    (user_email : option pystr) : M (bool * option nat) :=
  catch
    (if one_of plat ["meta"; "facebook"] then
       let* stored_ok := store_for Meta long_token user_email in
       let* rows := sync_rows Meta long_token user_email in
       ret (stored_ok, rows)
     else if one_of plat ["google"; "google_ads"] then
       let* there := gets google_connector_imported in
       if negb there then ret (false, None)
       else
         let* stored_ok := store_for Google long_token user_email in
         let* rows := sync_rows Google long_token user_email in
         ret (stored_ok, rows)
     else if one_of plat ["tiktok"] then
       let* there := gets tiktok_connector_imported in
       if negb there then ret (false, None)
       else
         let* stored_ok := store_for TikTok long_token user_email in
         let* rows := sync_rows TikTok long_token user_email in
         ret (stored_ok, rows)
     else
       let* stored_ok :=
         catch (store_for Meta long_token user_email) (ret false) in
       ret (stored_ok, None))
    (ret (false, None)).

Definition stored_message (user_email : option pystr) (rows : option nat) : pystr :=
  py "Token obtained and stored. You can close this window and return to the dashboard."
  ++ (if opt_truthy user_email
      then py " Stored for user: " ++ default [] user_email ++ py "."
      else [])
  ++ (match rows with
      | Some n => py " Manual sync fetched " ++ decimal (Z.of_nat n)
                  ++ py " rows and updated `data/spend.csv`."
      | None => []
      end).

Definition not_stored_message : pystr :=
  py "Token obtained but failed to store encrypted token. Ensure DASHBOARD_SECRET_KEY is set and keyring is available if desired.".

(** What follows the state check: store, sync, report. *)
Definition persist_and_report (plat : pystr) (long_token : json)
    (user_email : option pystr) : M response :=
  let* outcome := store_and_sync plat long_token user_email in
  let stored_ok := outcome.1 in
  let rows := outcome.2 in
  if negb stored_ok then
    log_error (py "Token obtained but failed to store encrypted token via oauth_server callback.");;
    pair_or_html not_stored_message 500
  else
    let msg := stored_message user_email rows in
    let* plain := gets (λ w, negb (fastapi_available w)) in
    if plain then ret (Text msg) else html_response msg 200.

(** [_callback_core(request, platform, code, token, error, state)] *)
Definition _callback_core (platform code token error state : option pystr)
  : M response :=
  if opt_truthy error then
    pair_or_html (py "OAuth error: " ++ default [] error) 400
  else
    let plat := py_lower (default [] platform) in
    let* obtained := obtain_token plat code token in
    match obtained with
    | inl early => ret early
    | inr long_token =>
        if negb (truthy long_token) then
          pair_or_html (py "Missing token or code in callback") 400
        else
          let* resolved := resolve_state state in
          match resolved with
          | inl early => ret early
          | inr user_email => persist_and_report plat long_token user_email
          end
    end.

(** [callback(request, ...)] *)
Definition callback := _callback_core.

(** [simulate_callback(...)]: the flag is cleared for the call and restored
    after it; a tuple is reduced to its message. *)
Definition simulate_callback (platform code token error state : option pystr)
  : M response := λ w,
  let original := fastapi_available w in
  let '(w', r) :=
    _callback_core platform code token error state
      (set_fastapi_available false w) in
  (set_fastapi_available original w',
   match r with
   | Ok (Pair msg _) => Ok (Text msg)
   | r => r
   end).

(** An error outcome of the handler: an exception, or a response with a
    status from 400 up. *)
Definition is_error_outcome (r : res response) : bool :=
  match r with
  | Raise _ => true
  | Ok (HTMLResponse _ status) | Ok (Pair _ status) => 400 <=? status
  | Ok (Text _) => false
  end.

End oauth_server.

(** ** The code exchange of the broker ([backend.py]) and of the dashboard *)

Section exchange.
Context `{Library}.

(** The request body of [/oauth/exchange]. *)
Record OAuthCodeRequest := {
  code : pystr;
  state : option pystr;
  req_platform : option pystr;
  redirect_uri : option pystr;
}.

Record OAuthTokenResponse := {
  ok : bool;
  access_token : option pystr;
  refresh_token : option pystr;
  error : option pystr;
}.

Definition failure (msg : pystr) : OAuthTokenResponse :=
  {| ok := false; access_token := None; refresh_token := None; error := Some msg |}.

(** Python's [x != 0] on a JSON value: [False] equals [0]. *)
Definition ne_zero (j : json) : bool :=
  match j with
  | JInt n => negb (n =? 0)
  | JBool b => b
  | _ => true
  end.

(** [encrypt_token] of the broker: [get_cipher] raises without the key. *)
Definition broker_encrypt_token (token : json) : M pystr := λ w,
  match env_get w "DASHBOARD_SECRET_KEY" with
  | Some key =>
      if nonempty key then
        match (kb ← str_encode key; f ← fernet_new kb;
               t ← as_str token; tb ← str_encode t; Ok (f, tb)) with
        | Ok (f, tb) =>
            (set_entropy (entropy w + 1) w,
             bytes_decode (fernet_encrypt f (clock w) (entropy w) tb))
        | Raise e => (w, Raise e)
        end
      else (w, Raise ValueError)
  | None => (w, Raise ValueError)
  end.

(** What follows the platform branches: encrypt the tokens, record them in
    [tokens.json], report success. *)
Definition record_tokens (platform : pystr) (token_data : json)
  : M OAuthTokenResponse :=
  let* access := lift (json_get token_data (py "access_token") JNull) in
  let* refresh := lift (json_get token_data (py "refresh_token") (JStr [])) in
  let* encrypted_access := broker_encrypt_token access in
  let* encrypted_refresh :=
    (if truthy refresh then broker_encrypt_token refresh else ret []) in
  let* tokens := gets (λ w, default (JObj ∅) (tokens_file w)) in
  let* stamp := gets now_iso in
  let* tokens :=
    lift (json_setitem tokens platform
            (JObj (list_to_map
                     [(py "access_token", JStr encrypted_access);
                      (py "refresh_token", JStr encrypted_refresh);
                      (py "timestamp", JStr stamp)]))) in
  modify (set_tokens_file (Some tokens));;
  ret {| ok := true; access_token := Some encrypted_access;
         refresh_token := Some encrypted_refresh; error := None |}.

(** The TikTok branch: the transport status, then the embedded code. *)
Definition exchange_tiktok (request : OAuthCodeRequest) : M OAuthTokenResponse :=
  let* client_id := gets (λ w, env_get w "TIKTOK_CLIENT_ID") in
  let* client_secret := gets (λ w, env_get w "TIKTOK_CLIENT_SECRET") in
  if negb (opt_truthy client_id) || negb (opt_truthy client_secret) then
    ret (failure (py "TikTok credentials not configured. Set TIKTOK_CLIENT_ID and TIKTOK_CLIENT_SECRET environment variables."))
  else
    let* response :=
      http_post "https://business-api.tiktok.com/open_api/v1.3/oauth2/access_token/"
        [("app_id", default [] client_id); ("secret", default [] client_secret);
         ("auth_code", code request); ("grant_type", py "authorization_code")] in
    if negb (status_code response =? 200) then
      ret (failure (py "Failed to exchange TikTok code: " ++ text response))
    else
      let* token_data := lift (body response) in
      let* embedded := lift (json_get token_data (py "code") JNull) in
      if ne_zero embedded then
        let* message := lift (json_get token_data (py "message") JNull) in
        ret (failure (py "TikTok API error: " ++ py_str message))
      else
        let* token_data := lift (json_get token_data (py "data") (JObj ∅)) in
        record_tokens (py "tiktok") token_data.

Definition exchange_google (request : OAuthCodeRequest) (platform : pystr)
  : M OAuthTokenResponse :=
  let* client_id := gets (λ w, env_get w "GOOGLE_CLIENT_ID") in
  let* client_secret := gets (λ w, env_get w "GOOGLE_CLIENT_SECRET") in
  let* uri :=
    gets (λ w, if opt_truthy (redirect_uri request)
               then default [] (redirect_uri request)
               else default (py "http://localhost:8501")
                            (env_get w "OAUTH_REDIRECT_URI")) in
  if negb (opt_truthy client_id) || negb (opt_truthy client_secret) then
    ret (failure (py "Google OAuth credentials not configured. Set GOOGLE_CLIENT_ID and GOOGLE_CLIENT_SECRET."))
  else
    let* response :=
      http_post "https://oauth2.googleapis.com/token"
        [("code", code request); ("client_id", default [] client_id);
         ("client_secret", default [] client_secret); ("redirect_uri", uri);
         ("grant_type", py "authorization_code")] in
    if negb (status_code response =? 200) then
      ret (failure (py "Failed to exchange code: " ++ text response))
    else
      let* token_data := lift (body response) in
      record_tokens platform token_data.

Definition exchange_meta (request : OAuthCodeRequest) (platform : pystr)
  : M OAuthTokenResponse :=
  let* client_id := gets (λ w, env_get w "META_CLIENT_ID") in
  let* client_secret := gets (λ w, env_get w "META_CLIENT_SECRET") in
  if negb (opt_truthy client_id) || negb (opt_truthy client_secret) then
    ret (failure (py "Meta credentials not configured. Set META_CLIENT_ID and META_CLIENT_SECRET environment variables."))
  else
    let* uri :=
      gets (λ w, if opt_truthy (redirect_uri request)
                 then default [] (redirect_uri request)
                 else default (py "http://localhost:8501")
                              (env_get w "OAUTH_REDIRECT_URI")) in
    let* response :=
      http_get "https://graph.facebook.com/v12.0/oauth/access_token"
        [("client_id", default [] client_id);
         ("client_secret", default [] client_secret);
         ("redirect_uri", uri); ("code", code request)] in
    if negb (status_code response =? 200) then
      ret (failure (py "Failed to exchange Meta code: " ++ text response))
    else
      let* token_data := lift (body response) in
      record_tokens platform token_data.

(** [exchange_oauth_code(request)]: whatever is raised inside becomes a
    failure carrying the text of the exception. *)
Definition exchange_oauth_code (request : OAuthCodeRequest)
  : M OAuthTokenResponse :=
  catch_as
    (let platform :=
       py_lower (if opt_truthy (req_platform request)
                 then default [] (req_platform request) else py "google") in
     if one_of platform ["google"; "google_ads"] then exchange_google request platform
     else if one_of platform ["meta"; "facebook"] then exchange_meta request platform
     else if bool_decide (platform = py "tiktok") then exchange_tiktok request
     else ret (failure (py "Unsupported platform: " ++ platform)))
    (λ e, ret (failure (exn_str e))).

(** Python's [x == 0] on a JSON value. *)
Definition eq_zero (j : json) : bool := negb (ne_zero j).

(** [_exchange_tiktok_code(code)] of the dashboard: the access token, or
    [None] ([JNull]). *)
Definition _exchange_tiktok_code (code : pystr) : M json :=
  catch
    (let* client_id := gets (λ w, env_get w "TIKTOK_CLIENT_ID") in
     let* client_secret := gets (λ w, env_get w "TIKTOK_CLIENT_SECRET") in
     if negb (opt_truthy client_id) || negb (opt_truthy client_secret) then
       ret JNull
     else
       let* r :=
         http_post "https://business-api.tiktok.com/open_api/v1.3/oauth2/access_token/"
           [("app_id", default [] client_id);
            ("secret", default [] client_secret); ("auth_code", code)] in
       if status_code r =? 200 then
         let* resp := lift (body r) in
         let* embedded := lift (json_get resp (py "code") JNull) in
         if eq_zero embedded then
           let* data := lift (json_get resp (py "data") (JObj ∅)) in
           lift (json_get data (py "access_token") JNull)
         else ret JNull
       else ret JNull)
    (ret JNull).

End exchange.

(** ** A model of the library functions

    An instance of [Library], to run the model on concrete worlds: a
    sealed box that prefixes the plaintext with the version octet of a
    Fernet token, and the text form of the scalar JSON values. *)

Definition box_seal (k : bytes) (t iv : Z) (m : bytes) : bytes :=
  0x80 :: (if forallb is_byte m then m else []).

Definition box_open (k : bytes) (token : bytes) : option bytes :=
  match token with
  | 0x80 :: m => Some m
  | _ => None
  end.

Definition scalar_str (j : json) : pystr :=
  match j with
  | JStr s => s
  | JNull => py "None"
  | JBool true => py "True"
  | JBool false => py "False"
  | JInt n => (if n <? 0 then py "-" else []) ++ decimal (Z.abs n)
  | JList _ => py "[...]"
  | JObj _ => py "{...}"
  end.

Definition exn_name (e : exn) : pystr :=
  match e with
  | TypeError => py "TypeError"
  | AttributeError => py "AttributeError"
  | ValueError => py "ValueError"
  | KeyError => py "KeyError"
  | UnicodeError => py "UnicodeError"
  | BinasciiError => py "binascii.Error"
  | InvalidToken => py "InvalidToken"
  | KeyringError => py "KeyringError"
  | ConnectionError => py "ConnectionError"
  end.

#[export] Program Instance model_library : Library := {|
  fernet_encrypt := box_seal;
  fernet_decrypt := box_open;
  py_str := scalar_str;
  exn_str := exn_name;
|}.
Next Obligation. intros k t iv m Hm. unfold box_seal. by rewrite Hm. Qed.
Next Obligation.
  intros k t iv m. unfold box_seal. cbn [forallb].
  destruct (forallb is_byte m) eqn:Hm; [by rewrite Hm|done].
Qed.
Next Obligation. done. Qed.
Next Obligation. done. Qed.

(** ** Concrete worlds of the examples *)

(** A process whose signing key is ["k"], at a fixed time. *)
Definition signing_world : world :=
  with_env [("DASHBOARD_HMAC_KEY", "k")] (at_time 1700000000 bare_world).

(** The token issued there for ["a@b.c"]: the base64 text of
    ["a@b.c|1700000000"], a dot, the keyed hash. *)
Definition issued_token : pystr :=
  py "YUBiLmN8MTcwMDAwMDAwMA==.e569febceb333635b2ae0b6411577e74b667ccb182288d058704b5103d32b12c".

(** The same token with one character of the payload part changed, the
    last data character [A] into [B]. *)
Definition mutated_token : pystr :=
  py "YUBiLmN8MTcwMDAwMDAwMB==.e569febceb333635b2ae0b6411577e74b667ccb182288d058704b5103d32b12c".

(** The payload part alone, as the unsigned mode would issue it. *)
Definition unsigned_token : pystr := py "YUBiLmN8MTcwMDAwMDAwMA==".

(** ** Reading the stored state directly *)

(** The entry of a platform in the metadata file, read off the file. *)
Definition file_entry (w : world) (platform : pystr) : option json :=
  match meta_file w with
  | Some (JObj data) => data !! platform
  | _ => None
  end.

(** A field of the platform's entry in the metadata file. *)
Definition entry_field (w : world) (p : platform) (k : pystr) : option json :=
  match file_entry w (plat_key p) with
  | Some (JObj m) => m !! k
  | _ => None
  end.

(** The token map of a platform in the metadata file: what a direct read of
    the encrypted-file backend sees. *)
Definition file_tokens (w : world) (p : platform) : gmap pystr json :=
  match entry_field w p (py "tokens") with
  | Some (JObj t) => t
  | _ => ∅
  end.

(** ** Concrete worlds of the vault and the exchange examples *)

(** A process with the cipher key configured (32 zero octets, in base64)
    and no keyring. *)
Definition vault_world : world :=
  with_env [("DASHBOARD_SECRET_KEY", "AAAAAAAAAAAAAAAAAAAAAAAAAAAAAAAAAAAAAAAAAAA=")]
    bare_world.

(** A process with a working, empty keyring and no cipher key. *)
Definition keyring_world : world :=
  set_keyring (Some {| kr_entries := ∅; kr_works := true |}) bare_world.

(** [vault_world] once a token is stored for the default user of Meta. *)
Definition stored_world : world :=
  (store_token_for_meta (JStr (py "tok")) vault_world).1.

(** The same file, a working keyring now being there. *)
Definition migration_world : world :=
  set_keyring (Some {| kr_entries := ∅; kr_works := true |}) stored_world.

(** A provider stub: every request is answered with the transport status
    200 and the embedded code 40001. *)
Definition tiktok_error_body : gmap pystr json :=
  list_to_map [(py "code", JInt 40001);
               (py "message", JStr (py "Invalid auth_code"))].

Definition tiktok_error_response : http_response :=
  {| status_code := 200; text := py "error";
     body := Ok (JObj tiktok_error_body) |}.

Definition tiktok_stub_world : world :=
  {| environ := list_to_map [(py "TIKTOK_CLIENT_ID", py "id");
                             (py "TIKTOK_CLIENT_SECRET", py "secret")];
     clock := 0; entropy := 0;
     fernet_imported := true; keyring := None;
     fastapi_imported := true; fastapi_available := true;
     google_connector_imported := true; tiktok_connector_imported := true;
     meta_file := None; spend_csv := None; tokens_file := None; log := [];
     http := λ _, Ok tiktok_error_response;
     live_spend := λ _ _ _, []; utcnow_iso := py "1970-01-01T00:00:00";
     now_iso := py "1970-01-01T00:00:00" |}.

Definition tiktok_request : OAuthCodeRequest :=
  {| code := py "abc"; state := None; req_platform := Some (py "TikTok");
     redirect_uri := None |}.

(** ** Relations between worlds, used to state what a call changes *)

(** What a step leaves alone.  [same_process w w'] holds when [w'] differs
    from [w] at most in the metadata file, the spend file, the entropy and
    the log: the configuration of the process and its keyring are the same. *)
Definition same_process (w w' : world) : Prop :=
  environ w' = environ w ∧ clock w' = clock w
  ∧ fernet_imported w' = fernet_imported w ∧ keyring w' = keyring w
  ∧ fastapi_imported w' = fastapi_imported w
  ∧ fastapi_available w' = fastapi_available w
  ∧ google_connector_imported w' = google_connector_imported w
  ∧ tiktok_connector_imported w' = tiktok_connector_imported w
  ∧ tokens_file w' = tokens_file w
  ∧ http w' = http w ∧ live_spend w' = live_spend w
  ∧ utcnow_iso w' = utcnow_iso w ∧ now_iso w' = now_iso w.

(** The fields of the platform's entry that storing a token may touch. *)
Definition touched_by_store (k : pystr) : Prop :=
  k = py "tokens" ∨ k = py "last_sync"
  ∨ k = py "client_secret" ∨ k = py "client_secret_enc".

(** The keyring entry that storing a token writes. *)
Definition with_password (p : platform) (key token : pystr)
    (kr : keyring_backend) (w : world) : world :=
  set_keyring
    (Some {| kr_entries := <[(service, keyring_username p key) := token]> (kr_entries kr);
             kr_works := true |}) w.

(** The metadata file as this program writes it: the platform's entry, if
    there is one, is a dict, and so is its token map. *)
Definition store_well_formed (w : world) (p : platform) : Prop :=
  (∀ j, file_entry w (plat_key p) = Some j → ∃ m, j = JObj m)
  ∧ (∀ j, entry_field w p (py "tokens") = Some j → ∃ tk, j = JObj tk).

(** ** Further code of the cited files *)

(** The characters a state token is made of: the URL-safe base64 alphabet,
    the pad [=] and the separator [.]. *)
Definition state_token_char (c : Z) : bool :=
  ((65 <=? c) && (c <=? 90)) || ((97 <=? c) && (c <=? 122))
  || ((48 <=? c) && (c <=? 57))
  || (c =? 45) || (c =? 95) || (c =? 61) || (c =? 46).

(** What [load_meta] returns for an entry that is a dict: the entry, with
    the client secret decrypted beside its ciphertext when that works. *)
Definition with_client_secret `{Library} (w : world) (m : gmap pystr json) : json :=
  match m !! py "client_secret_enc" with
  | Some enc =>
      if truthy (JObj m) && can_encrypt w then
        match (s ← as_str enc; eb ← latin1_encode s; decrypt_token w eb) with
        | Ok (Some dec) =>
            if nonempty dec
            then JObj (<[py "client_secret" := JStr dec]> m)
            else JObj m
        | _ => JObj m
        end
      else JObj m
  | None => JObj m
  end.

(** The connector the callback stores a token with, by the platform name
    (in lower case): the Meta connector also takes the unknown names. *)
Definition connector_for (plat : pystr) : platform :=
  if one_of plat ["meta"; "facebook"] then Meta
  else if one_of plat ["google"; "google_ads"] then Google
  else if one_of plat ["tiktok"] then TikTok
  else Meta.

(** The user a [state] parameter stands for in the callback: none when the
    state is missing or empty; the email the state verifies to; or, when
    the state does not verify and holds an [@], the state itself. *)
Definition state_stands_for (w : world) (state user : option pystr) : Prop :=
  (opt_truthy state = false ∧ user = None)
  ∨ ∃ st, state = Some st ∧ nonempty st = true
      ∧ ((verify_state_token w st 600 = Ok user ∧ opt_truthy user = true)
         ∨ (contains 64 st = true ∧ user = Some st
            ∧ ∀ e, verify_state_token w st 600 = Ok (Some e) → e = [])).

(** *** The unpadded base64 of the dashboard ([app_dashboard.py]) *)

(** [s.rstrip(c)] for a one-character [c]: the trailing run of [c] is cut. *)
Fixpoint rstrip (c : Z) (s : pystr) : pystr :=
  match s with
  | [] => []
  | x :: r =>
      match rstrip c r with
      | [] => if x =? c then [] else [x]
      | r' => x :: r'
      end
  end.

(** [_b64_url_encode(b)]: URL-safe base64 without its padding. *)
Definition _b64_url_encode (b : bytes) : res pystr :=
  s ← bytes_decode (urlsafe_b64encode b);
  Ok (rstrip 61 s).

(** [_b64_url_decode(s)]: the padding is put back before decoding; a [str]
    argument of [urlsafe_b64decode] must be ASCII. *)
Definition _b64_url_decode (s : pystr) : res bytes :=
  let pad := replicate (Z.to_nat ((- Z.of_nat (length s)) mod 4)) 61 in
  if forallb is_ascii (s ++ pad) then urlsafe_b64decode (s ++ pad)
  else Raise ValueError.

(** *** Further concrete worlds *)

(** A file that holds a token in the legacy single-token field, with the
    cipher key configured and a working keyring. *)
Definition legacy_world : world :=
  set_keyring (Some {| kr_entries := ∅; kr_works := true |})
    (set_meta_file
       (Some (JObj {[ py "meta" :=
                        JObj {[ py "access_token_encrypted" := JStr (128 :: py "tok") ]} ]}))
       vault_world).

(** Metadata that carry a client secret. *)
Definition secret_meta : gmap pystr json :=
  {[ py "client_secret" := JStr (py "s3cret") ]}.

(** *** Worlds for the code exchange and the migration *)

(** A provider stub whose gateway fails: the transport status is 503, while
    the body, read on its own, reports the embedded code 0 and a token. *)
Definition tiktok_down_response : http_response :=
  {| status_code := 503; text := py "Service Unavailable";
     body := Ok (JObj (list_to_map
                         [(py "code", JInt 0);
                          (py "data",
                           JObj {[ py "access_token" := JStr (py "T") ]})])) |}.

Definition tiktok_down_world : world :=
  {| environ := environ tiktok_stub_world;
     clock := 0; entropy := 0;
     fernet_imported := true; keyring := None;
     fastapi_imported := true; fastapi_available := true;
     google_connector_imported := true; tiktok_connector_imported := true;
     meta_file := None; spend_csv := None; tokens_file := None; log := [];
     http := λ _, Ok tiktok_down_response;
     live_spend := λ _ _ _, []; utcnow_iso := py "1970-01-01T00:00:00";
     now_iso := py "1970-01-01T00:00:00" |}.

(** [stored_world] with a keyring that is installed and refuses every call. *)
Definition refusing_keyring_world : world :=
  set_keyring (Some {| kr_entries := ∅; kr_works := false |}) stored_world.

(** A working keyring beside a metadata file whose entry for Meta is a
    list, which this program never writes. *)
Definition malformed_world : world :=
  set_meta_file (Some (JObj {[ py "meta" := JList [JInt 1] ]})) keyring_world.

(** ** What a store may write to the metadata file *)

(** [v] is the text kept in the file for a ciphertext of [plain] under the
    key of the environment: [f.encrypt(plain.encode()).decode('latin-1')]
    for the cipher [f] built from [DASHBOARD_SECRET_KEY]. *)
Definition sealed_under_key `{Library} (w : world) (plain : pystr) (v : json) : Prop :=
  ∃ skey kb f tb t iv,
    env_get w "DASHBOARD_SECRET_KEY" = Some skey
    ∧ str_encode skey = Ok kb ∧ fernet_new kb = Ok f
    ∧ str_encode plain = Ok tb
    ∧ v = JStr (latin1_decode (fernet_encrypt f t iv tb)).

(** The values a field [k] of the platform's entry can hold once
    [store_token_for_*_user] has written the file: the value the field had;
    [None] for [last_sync]; for [tokens], the token map of the file with a
    ciphertext of the token at the user's key; and, for the two
    client-secret fields, the client secret as [load_meta] returned it
    before the call and a ciphertext of it. *)
Definition written_by_store `{Library} (p : platform) (token : pystr)
    (user_email : option pystr) (w : world) (k : pystr) (v : json) : Prop :=
  entry_field w p k = Some v
  ∨ (k = py "last_sync" ∧ v = JNull)
  ∨ (k = py "tokens"
     ∧ ∃ ct, sealed_under_key w token ct
             ∧ v = JObj (<[email_key_of user_email := ct]> (file_tokens w p)))
  ∨ (∃ mm secret,
       load_meta w (plat_key p) = JObj mm
       ∧ mm !! py "client_secret" = Some secret
       ∧ ((k = py "client_secret" ∧ v = secret)
          ∨ (k = py "client_secret_enc"
             ∧ ∃ s, secret = JStr s ∧ sealed_under_key w s v))).

(** ** The callback: which connector stores, and whether it is there *)

(** [google_connector is None] and [tiktok_connector is None]: the Meta
    connector is imported unconditionally. *)
Definition connector_imported (w : world) (p : platform) : bool :=
  match p with
  | Meta => true
  | Google => google_connector_imported w
  | TikTok => tiktok_connector_imported w
  end.

(** [stored_ok] is what the connector returned: an exception counts as
    [False]. *)
Definition returned_true (r : res bool) : bool :=
  match r with
  | Ok true => true
  | _ => false
  end.

(** [vault_world] in a process without FastAPI: the import has failed, so
    [HTMLResponse] is [None] and [_FASTAPI_AVAILABLE] is [False]. *)
Definition headless_world : world :=
  {| environ := environ vault_world; clock := clock vault_world;
     entropy := entropy vault_world;
     fernet_imported := fernet_imported vault_world; keyring := keyring vault_world;
     fastapi_imported := false;
     fastapi_available := false;
     google_connector_imported := google_connector_imported vault_world;
     tiktok_connector_imported := tiktok_connector_imported vault_world;
     meta_file := meta_file vault_world; spend_csv := spend_csv vault_world;
     tokens_file := tokens_file vault_world; log := log vault_world;
     http := http vault_world;
     live_spend := live_spend vault_world; utcnow_iso := utcnow_iso vault_world;
     now_iso := now_iso vault_world |}.

(** * Properties of the model *)

(** ** Tactics *)

(** Settle the integer comparisons of the goal that [lia] can decide. *)
Ltac zbool :=
  repeat match goal with
  | |- context [?a <=? ?b] =>
      first [ rewrite (proj2 (Z.leb_le a b)) by lia
            | rewrite (proj2 (Z.leb_gt a b)) by lia ]
  | |- context [?a <? ?b] =>
      first [ rewrite (proj2 (Z.ltb_lt a b)) by lia
            | rewrite (proj2 (Z.ltb_ge a b)) by lia ]
  | |- context [?a =? ?b] =>
      first [ rewrite (proj2 (Z.eqb_eq a b)) by lia
            | rewrite (proj2 (Z.eqb_neq a b)) by lia ]
  end.

(** Turn boolean comparisons among the hypotheses into propositions. *)
Ltac zhyps :=
  repeat match goal with
  | H : (_ <=? _) = true |- _ => apply Z.leb_le in H
  | H : (_ <=? _) = false |- _ => apply Z.leb_gt in H
  | H : (_ <? _) = true |- _ => apply Z.ltb_lt in H
  | H : (_ <? _) = false |- _ => apply Z.ltb_ge in H
  | H : (_ =? _) = true |- _ => apply Z.eqb_eq in H
  | H : (_ =? _) = false |- _ => apply Z.eqb_neq in H
  | H : _ && _ = true |- _ => apply andb_true_iff in H; destruct H
  | H : _ || _ = false |- _ => apply orb_false_iff in H; destruct H
  | H : negb _ = true |- _ => apply negb_true_iff in H
  | H : negb _ = false |- _ => apply negb_false_iff in H
  end.

(** ** UTF-8 *)

Lemma utf8_decode_cons b0 r :
  utf8_decode (b0 :: r) =
  if (0 <=? b0) && (b0 <? 0x80) then cons b0 <$> utf8_decode r
  else if (0xC2 <=? b0) && (b0 <=? 0xDF) then
    match r with
    | b1 :: r1 =>
        if is_cont b1
        then cons ((b0 - 0xC0) * 64 + (b1 - 0x80)) <$> utf8_decode r1
        else None
    | _ => None
    end
  else if (0xE0 <=? b0) && (b0 <=? 0xEF) then
    match r with
    | b1 :: b2 :: r2 =>
        let c := (b0 - 0xE0) * 4096 + (b1 - 0x80) * 64 + (b2 - 0x80) in
        if is_cont b1 && is_cont b2 && (0x800 <=? c) && negb (is_surrogate c)
        then cons c <$> utf8_decode r2
        else None
    | _ => None
    end
  else if (0xF0 <=? b0) && (b0 <=? 0xF4) then
    match r with
    | b1 :: b2 :: b3 :: r3 =>
        let c := (b0 - 0xF0) * 262144 + (b1 - 0x80) * 4096
                 + (b2 - 0x80) * 64 + (b3 - 0x80) in
        if is_cont b1 && is_cont b2 && is_cont b3
           && (0x10000 <=? c) && (c <? 0x110000)
        then cons c <$> utf8_decode r3
        else None
    | _ => None
    end
  else None.
Proof. reflexivity. Qed.

Lemma utf8_decode_encode_char c e r :
  utf8_encode_char c = Some e →
  utf8_decode (e ++ r) = cons c <$> utf8_decode r.
Proof.
  unfold utf8_encode_char, is_surrogate. intros H.
  repeat case_match; simplify_eq; zhyps; cbn [app];
    rewrite utf8_decode_cons; unfold is_cont, is_surrogate; cbv zeta.
  - zbool. done.
  - assert (0 ≤ c mod 64 < 64) by (apply Z.mod_pos_bound; lia).
    assert (c = 64 * (c / 64) + c mod 64) by (apply Z.div_mod; lia).
    zbool. cbn [andb]. do 2 f_equal. lia.
  - assert (0 ≤ c mod 64 < 64) by (apply Z.mod_pos_bound; lia).
    assert (0 ≤ (c / 64) mod 64 < 64) by (apply Z.mod_pos_bound; lia).
    assert (c = 64 * (c / 64) + c mod 64) by (apply Z.div_mod; lia).
    assert (c / 64 = 64 * (c / 64 / 64) + (c / 64) mod 64) by (apply Z.div_mod; lia).
    assert (c / 4096 = c / 64 / 64) by (rewrite Z.div_div by lia; done).
    assert (((0xE0 + c / 4096 - 0xE0) * 4096 + (0x80 + (c / 64) mod 64 - 0x80) * 64
            + (0x80 + c mod 64 - 0x80)) = c) as -> by lia.
    rewrite H4. zbool. done.
  - assert (0 ≤ c mod 64 < 64) by (apply Z.mod_pos_bound; lia).
    assert (0 ≤ (c / 64) mod 64 < 64) by (apply Z.mod_pos_bound; lia).
    assert (0 ≤ (c / 4096) mod 64 < 64) by (apply Z.mod_pos_bound; lia).
    assert (c = 64 * (c / 64) + c mod 64) by (apply Z.div_mod; lia).
    assert (c / 64 = 64 * (c / 64 / 64) + (c / 64) mod 64) by (apply Z.div_mod; lia).
    assert (c / 4096 = 64 * (c / 4096 / 64) + (c / 4096) mod 64) by (apply Z.div_mod; lia).
    assert (c / 4096 = c / 64 / 64) by (rewrite Z.div_div by lia; done).
    assert (c / 262144 = c / 4096 / 64) by (rewrite Z.div_div by lia; done).
    assert (((0xF0 + c / 262144 - 0xF0) * 262144 + (0x80 + (c / 4096) mod 64 - 0x80) * 4096
            + (0x80 + (c / 64) mod 64 - 0x80) * 64 + (0x80 + c mod 64 - 0x80)) = c)
      as -> by lia.
    zbool. done.
Qed.

Lemma utf8_decode_encode s b : utf8_encode s = Some b → utf8_decode b = Some s.
Proof.
  revert b. induction s as [|c s IH]; intros b H; simplify_eq/=; [done|].
  destruct (utf8_encode_char c) as [e|] eqn:He; simplify_eq/=.
  destruct (utf8_encode s) as [t|] eqn:Ht; simplify_eq/=.
  rewrite (utf8_decode_encode_char _ _ _ He), (IH _ eq_refl). done.
Qed.

Lemma utf8_encode_app s t :
  utf8_encode (s ++ t) = a ← utf8_encode s; b ← utf8_encode t; Some (a ++ b).
Proof.
  induction s as [|c s IH]; simpl.
  - by destruct (utf8_encode t).
  - rewrite IH. destruct (utf8_encode_char c), (utf8_encode s), (utf8_encode t);
      simpl; by rewrite ?app_assoc.
Qed.

(** ASCII text is its own encoding. *)
Lemma utf8_encode_ascii s : forallb is_ascii s = true → utf8_encode s = Some s.
Proof.
  induction s as [|c s IH]; simpl; [done|].
  intros [Hc Hs]%andb_true_iff. rewrite (IH Hs).
  unfold is_ascii in Hc. zhyps. unfold utf8_encode_char. zbool. done.
Qed.

Lemma utf8_decode_ascii s : forallb is_ascii s = true → utf8_decode s = Some s.
Proof. intros H. by apply utf8_decode_encode, utf8_encode_ascii. Qed.

Lemma utf8_encode_char_bytes c e :
  utf8_encode_char c = Some e → forallb is_byte e = true.
Proof.
  unfold utf8_encode_char, is_surrogate, is_byte. intros H.
  repeat case_match; simplify_eq; zhyps; cbn [forallb].
  - zbool. done.
  - pose proof (Z.mod_pos_bound c 64).
    assert (c = 64 * (c / 64) + c mod 64) by (apply Z.div_mod; lia).
    zbool. done.
  - pose proof (Z.mod_pos_bound c 64). pose proof (Z.mod_pos_bound (c / 64) 64).
    assert (0 ≤ c / 4096 < 16) by (split; [apply Z.div_pos|apply Z.div_lt_upper_bound]; lia).
    zbool. done.
  - pose proof (Z.mod_pos_bound c 64). pose proof (Z.mod_pos_bound (c / 64) 64).
    pose proof (Z.mod_pos_bound (c / 4096) 64).
    assert (0 ≤ c / 262144 < 16) by (split; [apply Z.div_pos|apply Z.div_lt_upper_bound]; lia).
    zbool. done.
Qed.

Lemma utf8_encode_bytes s b : utf8_encode s = Some b → forallb is_byte b = true.
Proof.
  revert b. induction s as [|c s IH]; intros b H; simplify_eq/=; [done|].
  destruct (utf8_encode_char c) as [e|] eqn:He; simplify_eq/=.
  destruct (utf8_encode s) as [t|] eqn:Ht; simplify_eq/=.
  rewrite forallb_app, (utf8_encode_char_bytes _ _ He), (IH _ eq_refl). done.
Qed.

(** ** Base64 *)

Lemma b64_value_char v : 0 ≤ v < 64 → b64_value (b64_char v) = Some v.
Proof.
  intros Hv. unfold b64_char.
  repeat case_match; zhyps; unfold b64_value; zbool; cbn [andb orb];
    f_equal; lia.
Qed.

Lemma b64_char_range v :
  0 ≤ v < 64 → is_ascii (b64_char v) = true ∧ b64_char v ≠ 46 ∧ b64_char v ≠ b64_pad.
Proof.
  intros Hv. unfold b64_char, is_ascii, b64_pad.
  repeat case_match; zhyps; zbool; split_and!; try done; lia.
Qed.

Lemma list_ind3 {A} (P : list A → Prop) :
  P [] → (∀ x, P [x]) → (∀ x y, P [x; y]) →
  (∀ x y z r, P r → P (x :: y :: z :: r)) → ∀ l, P l.
Proof.
  intros H0 H1 H2 H3. fix IH 1.
  intros [|x [|y [|z r]]]; [done..|]. apply H3, IH.
Qed.

(** One step of the decoder on a character of the alphabet. *)
Lemma a2b_base64_data v r quad left pads out :
  0 ≤ v < 64 →
  a2b_base64 (b64_char v :: r) quad left pads out =
  if quad =? 0 then a2b_base64 r 1 v 0 out
  else if quad =? 1 then a2b_base64 r 2 (v mod 16) 0 (out ++ [left * 4 + v / 16])
  else if quad =? 2 then a2b_base64 r 3 (v mod 4) 0 (out ++ [left * 16 + v / 4])
  else a2b_base64 r 0 0 0 (out ++ [left * 64 + v]).
Proof.
  intros Hv. cbn [a2b_base64].
  destruct (b64_char_range v Hv) as (_ & _ & Hp).
  rewrite (proj2 (Z.eqb_neq _ _) Hp), (b64_value_char v Hv). done.
Qed.

Lemma urlsafe_b64decode_encode_acc b out :
  forallb is_byte b = true →
  a2b_base64 (urlsafe_b64encode b) 0 0 0 out = Ok (out ++ b).
Proof.
  revert out. induction b as [|x|x y|x y z r IH] using list_ind3; intros out Hb;
    cbn [forallb] in Hb; unfold is_byte in Hb; zhyps; cbn [urlsafe_b64encode].
  - by rewrite app_nil_r.
  - rewrite !a2b_base64_data by (Z.to_euclidean_division_equations; lia).
    cbn [a2b_base64]; unfold b64_pad; zbool; cbn [andb]; zbool.
    repeat f_equal; Z.to_euclidean_division_equations; lia.
  - rewrite !a2b_base64_data by (Z.to_euclidean_division_equations; lia).
    cbn [a2b_base64]; unfold b64_pad; zbool; cbn [andb].
    rewrite <- app_assoc. cbn [app].
    repeat f_equal; Z.to_euclidean_division_equations; lia.
  - rewrite !a2b_base64_data by (Z.to_euclidean_division_equations; lia).
    cbn [Z.eqb Pos.eqb]. rewrite IH by done.
    rewrite <- !app_assoc. cbn [app].
    repeat f_equal; Z.to_euclidean_division_equations; lia.
Qed.

Lemma urlsafe_b64decode_encode b :
  forallb is_byte b = true → urlsafe_b64decode (urlsafe_b64encode b) = Ok b.
Proof. intros Hb. unfold urlsafe_b64decode. by rewrite urlsafe_b64decode_encode_acc. Qed.

(** The encoded text is ASCII and holds no [.]. *)
Lemma b64_char_plain v :
  0 ≤ v < 64 → is_ascii (b64_char v) && negb (b64_char v =? 46) = true.
Proof.
  intros Hv. destruct (b64_char_range v Hv) as (-> & ? & _). by zbool.
Qed.

Lemma urlsafe_b64encode_plain b :
  forallb is_byte b = true →
  forallb (λ c, is_ascii c && negb (c =? 46)) (urlsafe_b64encode b) = true.
Proof.
  induction b as [|x|x y|x y z r IH] using list_ind3; intros Hb;
    cbn [forallb] in Hb; unfold is_byte in Hb; zhyps;
    cbn [urlsafe_b64encode forallb];
    rewrite ?b64_char_plain by (Z.to_euclidean_division_equations; lia);
    rewrite ?IH by done; done.
Qed.

Lemma forallb_plain_ascii (l : pystr) :
  forallb (λ c, is_ascii c && negb (c =? 46)) l = true →
  forallb is_ascii l = true ∧ 46 ∉ l.
Proof.
  induction l as [|c l IH]; cbn [forallb].
  - split; [done|]. apply not_elem_of_nil.
  - intros [[Hc Hd]%andb_true_iff Hl]%andb_true_iff.
    destruct (IH Hl) as [-> ?]. rewrite Hc. split; [done|].
    zhyps. rewrite not_elem_of_cons. split; [lia|done].
Qed.

(** ** Decimal text of integers *)

Lemma scan_digits_digit d s acc n :
  0 ≤ d < 10 →
  scan_digits ((48 + d) :: s) acc n false = scan_digits s (acc * 10 + d) (S n) false.
Proof.
  intros Hd. cbn [scan_digits]. unfold is_digit. zbool. cbn [andb].
  do 2 f_equal. lia.
Qed.

(** The digits of [n], most significant first, are read back as [n]. *)
Lemma decimal_digits_spec f n acc :
  0 ≤ n < 2 ^ (Z.of_nat f + 1) →
  ∃ D, decimal_digits f n acc = D ++ acc
       ∧ forallb is_digit D = true
       ∧ (0 < length D ≤ S f)%nat
       ∧ ∀ rest a k, scan_digits (D ++ rest) a k false
                     = scan_digits rest (a * 10 ^ Z.of_nat (length D) + n)
                                   (k + length D) false.
Proof.
  revert n acc. induction f as [|f IH]; intros n acc Hn.
  - change (2 ^ (Z.of_nat 0 + 1)) with 2 in Hn.
    exists [48 + n mod 10]. cbn [decimal_digits length forallb app].
    rewrite Z.mod_small by lia.
    unfold is_digit. split_and!; [done|zbool; done|lia|lia|].
    intros rest a k. rewrite scan_digits_digit by lia.
    change (10 ^ Z.of_nat 1) with 10. f_equal; lia.
  - cbn [decimal_digits]. destruct (Z.ltb_spec n 10) as [Hlt|Hge].
    + exists [48 + n]. cbn [length forallb app]. unfold is_digit.
      split_and!; [done|zbool; done|lia|lia|].
      intros rest a k. rewrite scan_digits_digit by lia.
      change (10 ^ Z.of_nat 1) with 10. f_equal; lia.
    + destruct (IH (n / 10) ((48 + n mod 10) :: acc)) as (D & HD & Hdig & Hlen & Hscan).
      { split; [apply Z.div_pos; lia|].
        apply Z.div_lt_upper_bound; [lia|].
        replace (Z.of_nat (S f) + 1) with (Z.succ (Z.of_nat f + 1)) in Hn by lia.
        rewrite Z.pow_succ_r in Hn by lia. lia. }
      exists (D ++ [48 + n mod 10]).
      pose proof (Z.mod_pos_bound n 10).
      split_and!.
      * rewrite HD, <- app_assoc. done.
      * rewrite forallb_app, Hdig. cbn [forallb]. unfold is_digit. zbool. done.
      * rewrite length_app. cbn [length]. lia.
      * rewrite length_app. cbn [length]. lia.
      * intros rest a k. rewrite <- app_assoc, Hscan. cbn [app].
        rewrite scan_digits_digit by lia. rewrite length_app. cbn [length].
        replace (Z.of_nat (length D + 1)) with (Z.succ (Z.of_nat (length D))) by lia.
        rewrite Z.pow_succ_r by lia.
        assert (n = 10 * (n / 10) + n mod 10) by (apply Z.div_mod; lia).
        f_equal; lia.
Qed.

Lemma decimal_spec n :
  0 ≤ n →
  forallb is_digit (decimal n) = true
  ∧ (0 < length (decimal n) ≤ S (Z.to_nat (Z.log2 n)))%nat
  ∧ scan_digits (decimal n) 0 0 false = Some (n, length (decimal n), []).
Proof.
  intros Hn. unfold decimal.
  destruct (decimal_digits_spec (Z.to_nat (Z.log2 n)) n []) as (D & HD & Hdig & Hlen & Hscan).
  { split; [done|]. rewrite Z2Nat.id by apply Z.log2_nonneg.
    destruct (decide (n = 0)) as [->|]; [done|].
    replace (Z.log2 n + 1) with (Z.succ (Z.log2 n)) by lia.
    apply Z.log2_spec. lia. }
  rewrite HD, app_nil_r. split_and!; [done|lia|lia|].
  specialize (Hscan [] 0 0%nat). rewrite app_nil_r in Hscan. rewrite Hscan.
  cbn [scan_digits]. repeat f_equal; lia.
Qed.

Lemma is_digit_ascii l : forallb is_digit l = true → forallb is_ascii l = true.
Proof.
  induction l as [|c l IH]; cbn [forallb]; [done|].
  intros [Hc Hl]%andb_true_iff. rewrite (IH Hl).
  unfold is_digit in Hc. unfold is_ascii. zhyps. zbool. done.
Qed.

Lemma to_ascii_digit_ascii l :
  forallb is_ascii l = true → to_ascii_digit <$> l = l.
Proof.
  induction l as [|c l IH]; cbn [forallb fmap list_fmap]; [done|].
  intros [Hc Hl]%andb_true_iff. rewrite (IH Hl). unfold to_ascii_digit. by rewrite Hc.
Qed.

Lemma skip_spaces_digit c l : is_digit c = true → skip_spaces (c :: l) = c :: l.
Proof.
  intros Hc. cbn [skip_spaces]. unfold is_digit in Hc. unfold is_c_space. zhyps.
  zbool. done.
Qed.

(** What [str] prints, [int] reads back. *)
Lemma int_of_str_to_str z s : int_to_str z = Ok s → int_of_str s = Ok z.
Proof.
  unfold int_to_str. case_bool_decide as Hlen; [|done]. intros [= <-].
  destruct (decimal_spec (Z.abs z)) as (Hdig & Hl & Hscan); [lia|].
  destruct (decimal (Z.abs z)) as [|c ds] eqn:Hd; [cbn in Hl; lia|].
  pose proof Hdig as Hdig'. cbn [forallb] in Hdig'.
  apply andb_true_iff in Hdig' as [Hc _].
  pose proof (is_digit_ascii _ Hdig) as Hascii.
  unfold int_of_str.
  destruct (Z.ltb_spec z 0) as [Hneg|Hpos].
  - rewrite to_ascii_digit_ascii by (cbn [forallb] in *; by rewrite Hascii).
    cbn [skip_spaces]. change (is_c_space 45) with false. cbv iota.
    change (45 =? 43) with false. change (45 =? 45) with true. cbv iota.
    rewrite Hc, Hscan. cbn [skip_spaces nonempty].
    rewrite bool_decide_true by done. f_equal. lia.
  - rewrite to_ascii_digit_ascii by done.
    rewrite skip_spaces_digit by done.
    assert (c ≠ 43 ∧ c ≠ 45) as [??] by (unfold is_digit in Hc; zhyps; lia).
    zbool. rewrite Hc, Hscan. cbn [skip_spaces nonempty].
    rewrite bool_decide_true by done. f_equal. lia.
Qed.

(** A clock within 63 bits prints. *)
Lemma int_to_str_ok z : Z.abs z < 2 ^ 63 → ∃ s, int_to_str z = Ok s.
Proof.
  intros Hz. unfold int_to_str.
  destruct (decimal_spec (Z.abs z)) as (_ & Hl & _); [lia|].
  assert (Z.log2 (Z.abs z) < 63).
  { destruct (decide (Z.abs z = 0)) as [->|]; [done|]. apply Z.log2_lt_pow2; lia. }
  rewrite bool_decide_true; [eauto|].
  unfold int_max_str_digits. pose proof (Z.log2_nonneg (Z.abs z)). lia.
Qed.

(** The printed text of an integer is ASCII without [|]. *)
Lemma int_to_str_ascii z s :
  int_to_str z = Ok s → forallb is_ascii s = true.
Proof.
  unfold int_to_str. case_bool_decide; [|done]. intros [= <-].
  destruct (decimal_spec (Z.abs z)) as (Hdig & _ & _); [lia|].
  apply is_digit_ascii in Hdig. case_match; cbn [forallb]; by rewrite ?Hdig.
Qed.

(** ** Splitting *)

Lemma split_first_app c a b :
  c ∉ a → split_first c (a ++ c :: b) = Some (a, b).
Proof.
  induction a as [|x a IH]; intros Hc; cbn [app split_first].
  - by rewrite bool_decide_true.
  - apply not_elem_of_cons in Hc as [? ?].
    rewrite bool_decide_false by done. by rewrite IH.
Qed.

Lemma split_last_none c s : c ∉ s → split_last c s = None.
Proof.
  induction s as [|x s IH]; intros Hc; cbn [split_last]; [done|].
  apply not_elem_of_cons in Hc as [? ?].
  rewrite IH by done. by rewrite bool_decide_false.
Qed.

Lemma split_last_app c a b :
  c ∉ b → split_last c (a ++ c :: b) = Some (a, b).
Proof.
  intros Hc. induction a as [|x a IH]; cbn [app split_last].
  - rewrite split_last_none by done. by rewrite bool_decide_true.
  - by rewrite IH.
Qed.

Lemma split_last_is_none c s : split_last c s = None → c ∉ s.
Proof.
  induction s as [|y s IHs]; [intros; apply not_elem_of_nil|].
  cbn [split_last]. destruct (split_last c s) as [[]|] eqn:?; [done|].
  case_bool_decide; [done|]. intros _. apply not_elem_of_cons. split; [done|]. by apply IHs.
Qed.

(** Whatever [rsplit] returns, the second part holds no separator and the
    parts rebuild the text. *)
Lemma split_last_spec c s a b :
  split_last c s = Some (a, b) → s = a ++ c :: b ∧ c ∉ b.
Proof.
  revert a. induction s as [|x s IH]; intros a; cbn [split_last]; [done|].
  destruct (split_last c s) as [[a' b']|] eqn:Hs.
  - intros [= <- <-]. destruct (IH _ eq_refl) as [-> ?]. done.
  - case_bool_decide as Hx; [|done]. intros [= <- <-]. subst x. split; [done|].
    by apply split_last_is_none.
Qed.

Lemma contains_elem_of c s : contains c s = true ↔ c ∈ s.
Proof. unfold contains. apply bool_decide_eq_true. Qed.

(** ** The keyed hash *)

Lemma hex_digit_plain d :
  0 ≤ d < 16 →
  is_ascii (Hmac.hex_digit d) && negb (Hmac.hex_digit d =? 46) = true.
Proof.
  intros Hd. unfold Hmac.hex_digit, is_ascii. case_match; zhyps; zbool; done.
Qed.

Lemma hex32_plain x :
  forallb (λ c, is_ascii c && negb (c =? 46)) (Hmac.hex32 x) = true.
Proof.
  unfold Hmac.hex32. cbn [forallb].
  rewrite !hex_digit_plain by (apply Z.mod_pos_bound; lia). done.
Qed.

(** A hex digest is 64 ASCII characters, none of them [.]. *)
Lemma hexdigest_length key msg : length (Hmac.hexdigest key msg) = 64%nat.
Proof.
  unfold Hmac.hexdigest.
  destruct (Hmac.state_of key msg) as [[[[[[[a b] c] d] e] f] g] h]. done.
Qed.

Lemma hexdigest_plain key msg :
  forallb (λ c, is_ascii c && negb (c =? 46)) (Hmac.hexdigest key msg) = true.
Proof.
  unfold Hmac.hexdigest.
  destruct (Hmac.state_of key msg) as [[[[[[[a b] c] d] e] f] g] h].
  rewrite !forallb_app, !hex32_plain. done.
Qed.

Lemma hexdigest_ascii key msg : forallb is_ascii (Hmac.hexdigest key msg) = true.
Proof. apply forallb_plain_ascii, hexdigest_plain. Qed.

Lemma hexdigest_no_dot key msg : 46 ∉ Hmac.hexdigest key msg.
Proof. apply forallb_plain_ascii, hexdigest_plain. Qed.

Lemma compare_digest_same a : forallb is_ascii a = true → Hmac.compare_digest a a = Ok true.
Proof. intros Ha. unfold Hmac.compare_digest. rewrite Ha. cbn. by rewrite bool_decide_true. Qed.

(** [compare_digest] answers [True] only on equal strings. *)
Lemma compare_digest_true a b : Hmac.compare_digest a b = Ok true → a = b.
Proof.
  unfold Hmac.compare_digest. case_match; [|done].
  intros [= Heq]. by apply bool_decide_eq_true in Heq.
Qed.

(** ** State tokens *)

Lemma py_bar : py "|" = [124].
Proof. reflexivity. Qed.

Lemma py_dot : py "." = [46].
Proof. reflexivity. Qed.

(** The key is a function of the environment alone. *)
Lemma _get_key_environ w w' : environ w' = environ w → _get_key w' = _get_key w.
Proof. intros He. unfold _get_key, env_get. by rewrite He. Qed.

(** A key, when there is one, is not empty. *)
Lemma _get_key_truthy w k : _get_key w = Ok (Some k) → nonempty k = true.
Proof.
  unfold _get_key, str_encode.
  destruct (or_else _ _) as [s|]; [|done].
  destruct s as [|c s]; [done|]. cbn [nonempty utf8_encode].
  destruct (utf8_encode_char c) as [e|] eqn:He; [|done]. cbn.
  destruct (utf8_encode s) as [t|]; [|done]. cbn. intros [= <-].
  unfold utf8_encode_char in He. repeat case_match; by simplify_eq.
Qed.

Lemma str_encode_ok s b : str_encode s = Ok b ↔ utf8_encode s = Some b.
Proof. unfold str_encode. destruct (utf8_encode s); naive_solver. Qed.

Lemma bytes_decode_ok b s : bytes_decode b = Ok s ↔ utf8_decode b = Some s.
Proof. unfold bytes_decode. destruct (utf8_decode b); naive_solver. Qed.

(** The payload text [email|ts] encodes when the email does. *)
Lemma payload_encodes email eb z ts_s :
  utf8_encode email = Some eb → int_to_str z = Ok ts_s →
  utf8_encode (email ++ [124] ++ ts_s) = Some (eb ++ [124] ++ ts_s).
Proof.
  intros He Hts. rewrite utf8_encode_app, He. cbn [mbind option_bind].
  rewrite (utf8_encode_ascii ([124] ++ ts_s)); [done|].
  cbn [app forallb]. by rewrite (int_to_str_ascii _ _ Hts).
Qed.

(** The base64 text of bytes, read as text and encoded again, is itself and
    decodes to the bytes. *)
Lemma b64_text_round_trip pb :
  forallb is_byte pb = true →
  bytes_decode (urlsafe_b64encode pb) = Ok (urlsafe_b64encode pb)
  ∧ str_encode (urlsafe_b64encode pb) = Ok (urlsafe_b64encode pb)
  ∧ urlsafe_b64decode (urlsafe_b64encode pb) = Ok pb
  ∧ 46 ∉ urlsafe_b64encode pb.
Proof.
  intros Hb.
  destruct (forallb_plain_ascii _ (urlsafe_b64encode_plain _ Hb)) as [Ha Hd].
  split_and!; [|  |by apply urlsafe_b64decode_encode|done].
  - by apply bytes_decode_ok, utf8_decode_ascii.
  - by apply str_encode_ok, utf8_encode_ascii.
Qed.

Lemma check_age_payload w email ts ts_s max_age :
  124 ∉ email → int_to_str ts = Ok ts_s →
  check_age w (email ++ [124] ++ ts_s) max_age
  = Ok (if max_age <? clock w - ts then None else Some email).
Proof.
  intros Hbar Hts. unfold check_age. cbn [app].
  rewrite split_first_app by done.
  rewrite (int_of_str_to_str _ _ Hts). cbn. by case_match.
Qed.

(** Issuing: with an encodable email and key and a sane clock, a token is
    returned, of the documented shape. *)
Lemma make_state_token_shape w email eb ttl key :
  utf8_encode email = Some eb →
  _get_key w = Ok key →
  Z.abs (clock w) < 2 ^ 63 →
  ∃ ts_s, int_to_str (clock w) = Ok ts_s ∧
    let pb := eb ++ [124] ++ ts_s in
    make_state_token w email ttl =
      Ok (if key_truthy key
          then urlsafe_b64encode pb ++ [46] ++ Hmac.hexdigest (default [] key) pb
          else urlsafe_b64encode pb).
Proof.
  intros He Hk Hc. destruct (int_to_str_ok _ Hc) as [ts_s Hts].
  exists ts_s. split; [done|]. cbv zeta.
  unfold make_state_token. rewrite Hts, Hk, py_bar, py_dot. cbn [mbind res_bind].
  pose proof (payload_encodes _ _ _ _ He Hts) as Hp.
  rewrite (proj2 (str_encode_ok _ _) Hp). cbn [mbind res_bind].
  pose proof (utf8_encode_bytes _ _ Hp) as Hb.
  destruct (b64_text_round_trip _ Hb) as (-> & _). cbn [mbind res_bind].
  by destruct (key_truthy key).
Qed.

(** The signed branch on a well-formed base64 part: only the comparison of
    the digests decides. *)
Lemma signed_payload_b64 k payload pb sig :
  utf8_encode payload = Some pb → 46 ∉ sig →
  signed_payload k (urlsafe_b64encode pb ++ [46] ++ sig)
  = same ← Hmac.compare_digest (Hmac.hexdigest k pb) sig;
    Ok (if (same : bool) then Some payload else None).
Proof.
  intros Hp Hsig. unfold signed_payload. cbn [app].
  rewrite split_last_app by done.
  pose proof (utf8_encode_bytes _ _ Hp) as Hb.
  destruct (b64_text_round_trip _ Hb) as (_ & He & Hd & _).
  rewrite He. cbn [mbind res_bind]. rewrite Hd. cbn [mbind res_bind].
  rewrite (proj2 (bytes_decode_ok _ _) (utf8_decode_encode _ _ Hp)). cbn [mbind res_bind].
  rewrite (proj2 (str_encode_ok _ _) Hp). done.
Qed.

(** Acceptance by the signed branch: the part after the last [.] is the
    keyed hash of the payload that the part before it decodes to. *)
Lemma signed_payload_accepts k token payload :
  signed_payload k token = Ok (Some payload) →
  ∃ b64 sig tb raw pb,
    split_last 46 token = Some (b64, sig)
    ∧ str_encode b64 = Ok tb ∧ urlsafe_b64decode tb = Ok raw
    ∧ bytes_decode raw = Ok payload ∧ str_encode payload = Ok pb
    ∧ sig = Hmac.hexdigest k pb.
Proof.
  unfold signed_payload. intros H.
  destruct (split_last 46 token) as [[b64 sig]|]; [|done].
  destruct (str_encode b64) as [tb|] eqn:Htb; [|done]. cbn [mbind res_bind] in H.
  destruct (urlsafe_b64decode tb) as [raw|] eqn:Hraw; [|done]. cbn [mbind res_bind] in H.
  destruct (bytes_decode raw) as [p|] eqn:Hp; [|done]. cbn [mbind res_bind] in H.
  destruct (str_encode p) as [pb|] eqn:Hpb; [|done]. cbn [mbind res_bind] in H.
  destruct (Hmac.compare_digest _ _) as [[]|] eqn:Hcmp; simplify_eq/=.
  apply compare_digest_true in Hcmp.
  exists b64, sig, tb, raw, pb. by rewrite Hpb.
Qed.

(** A token whose last dotted part is not 64 characters long is never
    accepted by the signed branch. *)
Lemma signed_payload_length k token payload :
  signed_payload k token = Ok (Some payload) →
  ∃ b64 sig, split_last 46 token = Some (b64, sig) ∧ length sig = 64%nat.
Proof.
  intros (b64 & sig & tb & raw & pb & Hs & _ & _ & _ & _ & ->)%signed_payload_accepts.
  exists b64, (Hmac.hexdigest k pb). by rewrite hexdigest_length.
Qed.

(** [verify_state_token] returns, whatever the token, once the key is read. *)
Lemma verify_state_token_returns w token max_age key :
  _get_key w = Ok key → ∃ r, verify_state_token w token max_age = Ok r.
Proof.
  intros Hk. unfold verify_state_token. rewrite Hk. cbn [mbind res_bind].
  unfold try_except. destruct (verify_body _ _ _ _); eauto.
Qed.

(** When the body does not accept, the answer is [None]. *)
Lemma verify_state_token_rejects w token max_age key :
  _get_key w = Ok key →
  (∀ e, verify_body w key token max_age ≠ Ok (Some e)) →
  verify_state_token w token max_age = Ok None.
Proof.
  intros Hk Hno. unfold verify_state_token. rewrite Hk. cbn [mbind res_bind].
  unfold try_except. destruct (verify_body _ _ _ _) as [[e|]|] eqn:Hb; [|done..].
  by destruct (Hno e).
Qed.

(** Without a [.] in the token the key plays no part: the unsigned branch
    runs whether or not a key is configured. *)
Lemma verify_body_no_dot w key token max_age :
  46 ∉ token →
  verify_body w key token max_age = verify_body w None token max_age.
Proof.
  intros Hdot. unfold verify_body.
  assert (contains 46 token = false) as ->; [|done].
  apply not_true_is_false. by rewrite contains_elem_of.
Qed.

(** *** Round trip and expiry *)

(** Verifying, [d] seconds later, a token just issued: the body of the
    [try] block returns the email while [d <= max_age] and [None] after. *)
Lemma verify_body_issued w w' email eb ts_s key max_age :
  utf8_encode email = Some eb →
  124 ∉ email →
  int_to_str (clock w) = Ok ts_s →
  _get_key w = Ok key →
  let pb := eb ++ [124] ++ ts_s in
  verify_body w' key
    (if key_truthy key
     then urlsafe_b64encode pb ++ [46] ++ Hmac.hexdigest (default [] key) pb
     else urlsafe_b64encode pb) max_age
  = Ok (if max_age <? clock w' - clock w then None else Some email).
Proof.
  intros He Hbar Hts Hk pb.
  pose proof (payload_encodes _ _ _ _ He Hts) as Hp. fold pb in Hp.
  pose proof (utf8_encode_bytes _ _ Hp) as Hb.
  destruct (b64_text_round_trip _ Hb) as (_ & Henc & Hdec & Hdot).
  unfold verify_body. destruct (key_truthy key) eqn:Hkt.
  - assert (contains 46 (urlsafe_b64encode pb ++ [46] ++ Hmac.hexdigest (default [] key) pb)
            = true) as ->.
    { apply contains_elem_of. rewrite !elem_of_app, elem_of_cons. auto. }
    cbn [andb].
    rewrite (signed_payload_b64 _ _ _ _ Hp) by apply hexdigest_no_dot.
    rewrite compare_digest_same by apply hexdigest_ascii. cbn [mbind res_bind].
    by apply check_age_payload.
  - rewrite andb_false_r. unfold unsigned_payload.
    rewrite Henc. cbn [mbind res_bind fmap res_fmap]. rewrite Hdec. cbn [mbind res_bind].
    rewrite (proj2 (bytes_decode_ok _ _) (utf8_decode_encode _ _ Hp)).
    cbn [mbind res_bind]. by apply check_age_payload.
Qed.

(** C3 (amended).  For every email that can be encoded and holds no [|], every
    time-to-live and every delay [d]: a token is issued, and verifying it
    [d] seconds later with that time-to-live returns the email when
    [d <= ttl] and the invalid value [None] when [d > ttl].  The key is
    whatever the environment holds, so both the signed mode and the unsigned
    mode without a key are covered.  (The environment's key must be
    encodable and the clock within 63 bits.) *)
Theorem verify_make_round_trip (w w' : world) (email : pystr) (ttl d : Z) :
  is_Some (utf8_encode email) →
  124 ∉ email →
  raises (_get_key w) = false →
  Z.abs (clock w) < 2 ^ 63 →
  environ w' = environ w →
  clock w' = clock w + d →
  ∃ token,
    make_state_token w email ttl = Ok token
    ∧ verify_state_token w' token ttl
      = Ok (if bool_decide (d ≤ ttl) then Some email else None).
Proof.
  intros [eb He] Hbar Hkey Hclock Henv Hd.
  destruct (_get_key w) as [key|] eqn:Hk; [|done].
  destruct (make_state_token_shape w email eb ttl key He Hk Hclock)
    as (ts_s & Hts & Hmake).
  eexists. split; [exact Hmake|].
  unfold verify_state_token. rewrite (_get_key_environ _ _ Henv), Hk.
  cbn [mbind res_bind].
  rewrite (verify_body_issued w w' email eb ts_s key ttl He Hbar Hts Hk).
  cbn [try_except]. f_equal. rewrite Hd.
  destruct (Z.ltb_spec ttl (clock w + d - clock w)); case_bool_decide; done || lia.
Qed.

(** *** Tampering *)

(** What an issued token is made of. *)
Lemma make_state_token_inv w email ttl token :
  make_state_token w email ttl = Ok token →
  ∃ key ts_s pb,
    _get_key w = Ok key
    ∧ int_to_str (clock w) = Ok ts_s
    ∧ utf8_encode (email ++ [124] ++ ts_s) = Some pb
    ∧ token = if key_truthy key
              then urlsafe_b64encode pb ++ [46] ++ Hmac.hexdigest (default [] key) pb
              else urlsafe_b64encode pb.
Proof.
  unfold make_state_token. rewrite py_bar, py_dot. intros Hm.
  destruct (int_to_str (clock w)) as [ts_s|] eqn:Hts; [|done]. cbn [mbind res_bind] in Hm.
  destruct (_get_key w) as [key|] eqn:Hk; [|done]. cbn [mbind res_bind] in Hm.
  destruct (str_encode _) as [pb|] eqn:Hpb; [|done]. cbn [mbind res_bind] in Hm.
  apply str_encode_ok in Hpb.
  pose proof (utf8_encode_bytes _ _ Hpb) as Hb.
  destruct (b64_text_round_trip _ Hb) as (Hdec & _).
  rewrite Hdec in Hm. cbn [mbind res_bind] in Hm.
  exists key, ts_s, pb. split_and!; [done..|].
  destruct (key_truthy key); by simplify_eq.
Qed.

Lemma split_last_is_some c s : c ∈ s → is_Some (split_last c s).
Proof.
  intros Hc. destruct (split_last c s) eqn:Hs; [done|].
  by apply split_last_is_none in Hs.
Qed.

(** Under a key, a token that carries another 64-character signature is not
    accepted. *)
Lemma verify_body_other_signature w k payload pb sig' max_age e :
  nonempty k = true →
  utf8_encode payload = Some pb →
  length sig' = 64%nat →
  sig' ≠ Hmac.hexdigest k pb →
  verify_body w (Some k) (urlsafe_b64encode pb ++ [46] ++ sig') max_age
  ≠ Ok (Some e).
Proof.
  intros Hk Hp Hlen Hne Hv. unfold verify_body in Hv.
  assert (contains 46 (urlsafe_b64encode pb ++ [46] ++ sig') = true) as Hc.
  { apply contains_elem_of. rewrite !elem_of_app, elem_of_cons. auto. }
  rewrite Hc in Hv. cbn [andb key_truthy default] in Hv. rewrite Hk in Hv.
  destruct (signed_payload _ _) as [[p|]|] eqn:Hs; [|done..].
  destruct (decide (46 ∈ sig')) as [Hin|Hnin].
  - apply signed_payload_length in Hs as (a & s & Hsplit & Hs64).
    destruct (split_last_is_some _ _ Hin) as [[x y] Hxy].
    apply split_last_spec in Hxy as [-> Hy].
    cbn [app] in Hsplit.
    replace (urlsafe_b64encode pb ++ 46 :: x ++ 46 :: y)
      with ((urlsafe_b64encode pb ++ 46 :: x) ++ 46 :: y) in Hsplit
      by (by rewrite <- app_assoc).
    rewrite split_last_app in Hsplit by done. simplify_eq.
    rewrite length_app in Hlen. cbn [length] in Hlen. lia.
  - rewrite (signed_payload_b64 _ _ _ _ Hp) in Hs by done.
    destruct (Hmac.compare_digest _ _) as [[]|] eqn:Hcmp; simplify_eq/=.
    apply compare_digest_true in Hcmp. done.
Qed.

(** Under a key, acceptance of a token that ends in [.sig], [sig] without a
    dot: the part before decodes to a payload whose keyed hash is [sig]. *)
Lemma verify_body_accepts_signed w k b64' sig max_age e :
  nonempty k = true → 46 ∉ sig →
  verify_body w (Some k) (b64' ++ [46] ++ sig) max_age = Ok (Some e) →
  ∃ tb raw payload pb,
    str_encode b64' = Ok tb ∧ urlsafe_b64decode tb = Ok raw
    ∧ bytes_decode raw = Ok payload ∧ str_encode payload = Ok pb
    ∧ Hmac.hexdigest k pb = sig.
Proof.
  intros Hk Hsig Hv. unfold verify_body in Hv.
  assert (contains 46 (b64' ++ [46] ++ sig) = true) as Hc.
  { apply contains_elem_of. rewrite !elem_of_app, elem_of_cons. auto. }
  rewrite Hc in Hv. cbn [andb key_truthy default] in Hv. rewrite Hk in Hv.
  destruct (signed_payload _ _) as [[p|]|] eqn:Hs; [|done..].
  apply signed_payload_accepts in Hs
    as (a & s & tb & raw & pb & Hsplit & Htb & Hraw & Hp & Hpb & ->).
  cbn [app] in Hsplit. rewrite split_last_app in Hsplit by done. simplify_eq.
  by exists tb, raw, p, pb.
Qed.

(** C4, as the code has it.  For a token issued under a signing key:
    replacing any one character of the signature makes verification return
    the invalid value [None]; replacing one character of the payload part
    leaves the token acceptable only if the changed text still decodes to a
    payload whose keyed hash is the signature; and for every token
    whatever, verification returns (it does not raise). *)
Theorem tampered_token (w w' : world) (email : pystr) (ttl max_age : Z)
    (token : pystr) (k : bytes) :
  _get_key w = Ok (Some k) →
  make_state_token w email ttl = Ok token →
  environ w' = environ w →
  ∃ b64 sig,
    token = b64 ++ [46] ++ sig
    ∧ (∀ i c, (length b64 < i < length token)%nat → token !! i ≠ Some c →
         verify_state_token w' (<[i := c]> token) max_age = Ok None)
    ∧ (∀ i c e, (i < length b64)%nat →
         verify_state_token w' (<[i := c]> token) max_age = Ok (Some e) →
         ∃ tb raw payload pb,
           str_encode (<[i := c]> b64) = Ok tb ∧ urlsafe_b64decode tb = Ok raw
           ∧ bytes_decode raw = Ok payload ∧ str_encode payload = Ok pb
           ∧ Hmac.hexdigest k pb = sig)
    ∧ (∀ t, ∃ r, verify_state_token w' t max_age = Ok r).
Proof.
  intros Hk Hmake Henv.
  pose proof (_get_key_truthy _ _ Hk) as Hkt.
  apply make_state_token_inv in Hmake as (key & ts_s & pb & Hk' & Hts & Hpb & ->).
  rewrite Hk in Hk'. simplify_eq. change (default [] (Some k)) with k.
  cbn [key_truthy]. rewrite Hkt.
  assert (_get_key w' = Ok (Some k)) as Hkw' by (by rewrite (_get_key_environ _ _ Henv)).
  exists (urlsafe_b64encode pb), (Hmac.hexdigest k pb). split_and!; [done| | |].
  - intros i c [Hlo Hhi] Hne.
    apply (verify_state_token_rejects _ _ _ _ Hkw'). intros e.
    rewrite !length_app, hexdigest_length in Hhi. change (length [46]) with 1%nat in Hhi.
    rewrite insert_app_r_alt by lia.
    rewrite insert_app_r_alt by (change (length [46]) with 1%nat; lia).
    change (length [46]) with 1%nat.
    apply (verify_body_other_signature w' k _ pb _ max_age e Hkt Hpb).
    + by rewrite length_insert, hexdigest_length.
    + intros Heq. apply Hne.
      rewrite lookup_app_r by lia.
      rewrite lookup_app_r by (change (length [46]) with 1%nat; lia).
      change (length [46]) with 1%nat.
      rewrite <- Heq. apply list_lookup_insert_eq.
      rewrite hexdigest_length. lia.
  - intros i c e Hi Hv.
    unfold verify_state_token in Hv. rewrite Hkw' in Hv. cbn [mbind res_bind] in Hv.
    unfold try_except in Hv.
    destruct (verify_body _ _ _ _) as [[e'|]|] eqn:Hb; simplify_eq.
    rewrite insert_app_l in Hb by done.
    by apply verify_body_accepts_signed in Hb; [|done|apply hexdigest_no_dot].
  - intros t. by eapply verify_state_token_returns.
Qed.

Lemma verify_make_round_trip_witness :
  ∃ token,
    make_state_token signing_world (py "a@b.c") 1 = Ok token
    ∧ verify_state_token (at_time 1700000002 signing_world) token 1
      = Ok (if bool_decide (2 ≤ 1) then Some (py "a@b.c") else None).
Proof.
  apply (verify_make_round_trip signing_world (at_time 1700000002 signing_world)
           (py "a@b.c") 1 2).
  - eexists. vm_compute. reflexivity.
  - apply (bool_decide_unpack _). vm_compute. exact I.
  - vm_compute. reflexivity.
  - vm_compute. reflexivity.
  - reflexivity.
  - reflexivity.
Defined.

Lemma tampered_token_witness :
  ∃ b64 sig,
    issued_token = b64 ++ [46] ++ sig
    ∧ (∀ i c, (length b64 < i < length issued_token)%nat →
         issued_token !! i ≠ Some c →
         verify_state_token signing_world (<[i := c]> issued_token) 600 = Ok None)
    ∧ (∀ i c e, (i < length b64)%nat →
         verify_state_token signing_world (<[i := c]> issued_token) 600 = Ok (Some e) →
         ∃ tb raw payload pb,
           str_encode (<[i := c]> b64) = Ok tb ∧ urlsafe_b64decode tb = Ok raw
           ∧ bytes_decode raw = Ok payload ∧ str_encode payload = Ok pb
           ∧ Hmac.hexdigest (py "k") pb = sig)
    ∧ (∀ t, ∃ r, verify_state_token signing_world t 600 = Ok r).
Proof.
  apply (tampered_token signing_world signing_world (py "a@b.c") 600 600
           issued_token (py "k")).
  - vm_compute. reflexivity.
  - vm_compute. reflexivity.
  - reflexivity.
Defined.

(** The counterexample to C4 as stated: one character of the payload part
    of an issued token is changed ([A] into [B], position 21), and the
    changed token still verifies.  The decoder drops the four low bits of
    the last character before the padding without checking them. *)
Lemma payload_mutation_accepted :
  make_state_token signing_world (py "a@b.c") 600 = Ok issued_token
  ∧ <[21%nat := 66]> issued_token = mutated_token
  ∧ issued_token !! 21%nat = Some 65
  ∧ verify_state_token signing_world mutated_token 600 = Ok (Some (py "a@b.c")).
Proof. vm_compute. done. Qed.

(** *** An unsigned token under a configured key *)

(** With no [.] in the token the signed branch is never entered: the result
    is that of the unsigned mode, whatever key is configured. *)
Lemma verify_state_token_no_dot w token max_age key :
  _get_key w = Ok key →
  46 ∉ token →
  verify_state_token w token max_age
  = try_except (verify_body w None token max_age) (Ok None).
Proof.
  intros Hk Hdot. unfold verify_state_token. rewrite Hk. cbn [mbind res_bind].
  by rewrite verify_body_no_dot.
Qed.

(** C1 fails on the code.  The key ["k"] is configured and the token is the
    bare base64 text of ["a@b.c|1700000000"], without separator or
    signature: verification returns the email. *)
Theorem unsigned_token_accepted_under_key :
  _get_key signing_world = Ok (Some (py "k"))
  ∧ contains 46 unsigned_token = false
  ∧ verify_state_token signing_world unsigned_token 600 = Ok (Some (py "a@b.c")).
Proof. vm_compute. done. Qed.

(** ** Effects *)

Lemma bind_ok {A B} (m : M A) (f : A → M B) w w' b :
  bind m f w = (w', Ok b) → ∃ w1 a, m w = (w1, Ok a) ∧ f a w1 = (w', Ok b).
Proof. unfold bind. destruct (m w) as [w1 [a|e]]; naive_solver. Qed.

Lemma bind_eq {A B} (m : M A) (f : A → M B) w w1 a :
  m w = (w1, Ok a) → bind m f w = f a w1.
Proof. unfold bind. by intros ->. Qed.

Lemma bind_raise {A B} (m : M A) (f : A → M B) w w1 e :
  m w = (w1, Raise e) → bind m f w = (w1, Raise e).
Proof. unfold bind. by intros ->. Qed.

Lemma same_process_refl w : same_process w w.
Proof. by repeat split. Qed.

Lemma same_process_trans w1 w2 w3 :
  same_process w1 w2 → same_process w2 w3 → same_process w1 w3.
Proof.
  unfold same_process.
  intros (?&?&?&?&?&?&?&?&?&?&?&?&?) (?&?&?&?&?&?&?&?&?&?&?&?&?).
  split_and!; congruence.
Qed.

Section vault_facts.
Context `{Library}.

Lemma can_encrypt_same w w' :
  environ w' = environ w → fernet_imported w' = fernet_imported w →
  can_encrypt w' = can_encrypt w.
Proof. intros He Hf. unfold can_encrypt, env_get. by rewrite He, Hf. Qed.

Lemma decrypt_token_same w w' ct :
  environ w' = environ w → fernet_imported w' = fernet_imported w →
  decrypt_token w' ct = decrypt_token w ct.
Proof. intros He Hf. unfold decrypt_token, env_get. by rewrite He, Hf. Qed.

Lemma load_meta_same w w' plat :
  meta_file w' = meta_file w → environ w' = environ w →
  fernet_imported w' = fernet_imported w →
  load_meta w' plat = load_meta w plat.
Proof.
  intros Hm He Hf. unfold load_meta. rewrite Hm.
  destruct (meta_file w) as [data|]; [|done].
  destruct (json_get data plat JNull) as [[]|]; try done.
  case_match; [|done].
  rewrite (can_encrypt_same _ _ He Hf).
  destruct (_ && _); [|done].
  destruct (as_str _) as [s|]; [|done]. cbn [mbind res_bind].
  destruct (latin1_encode s) as [eb|]; [|done]. cbn [mbind res_bind].
  by rewrite (decrypt_token_same _ _ _ He Hf).
Qed.

(** Encrypting succeeds exactly when the key builds a cipher and the token
    encodes; it spends entropy and changes nothing else. *)
Lemma encrypt_token_ok token w w' enc :
  encrypt_token (JStr token) w = (w', Ok (Some enc)) →
  ∃ key kb f tb,
    fernet_imported w = true
    ∧ env_get w "DASHBOARD_SECRET_KEY" = Some key ∧ nonempty key = true
    ∧ str_encode key = Ok kb ∧ fernet_new kb = Ok f
    ∧ str_encode token = Ok tb
    ∧ enc = fernet_encrypt f (clock w) (entropy w) tb
    ∧ w' = set_entropy (entropy w + 1) w.
Proof.
  unfold encrypt_token. intros He.
  destruct (fernet_imported w); [|done]. cbn [negb] in He.
  destruct (env_get w "DASHBOARD_SECRET_KEY") as [key|]; [|done].
  destruct (nonempty key) eqn:Hn; [|done].
  destruct (str_encode key) as [kb|] eqn:Hkb; [|done]. cbn [mbind res_bind] in He.
  destruct (fernet_new kb) as [f|] eqn:Hf; [|done]. cbn [mbind res_bind as_str] in He.
  destruct (str_encode token) as [tb|] eqn:Htb; [|done]. cbn [mbind res_bind] in He.
  simplify_eq. by exists key, kb, f, tb.
Qed.

Lemma encrypt_token_frame token w w' r :
  encrypt_token token w = (w', r) →
  same_process w w' ∧ meta_file w' = meta_file w.
Proof.
  unfold encrypt_token. intros He.
  assert (w' = w ∨ w' = set_entropy (entropy w + 1) w) as [->| ->];
    [|split; [apply same_process_refl|done]|by repeat split].
  repeat case_match; simplify_eq; auto.
Qed.

(** The [try] block of [save_meta] always completes; it touches the two
    client-secret fields only. *)
Lemma seal_client_secret_spec meta w :
  ∃ w1 meta1,
    seal_client_secret meta w = (w1, Ok meta1)
    ∧ same_process w w1 ∧ meta_file w1 = meta_file w
    ∧ ∀ k, k ≠ py "client_secret" → k ≠ py "client_secret_enc" →
           meta1 !! k = meta !! k.
Proof.
  unfold seal_client_secret.
  destruct (meta !! py "client_secret") as [secret|];
    [|by exists w, meta; split_and!; [|apply same_process_refl|..]].
  destruct (can_encrypt w);
    [|by exists w, meta; split_and!; [|apply same_process_refl|..]].
  destruct (encrypt_token secret w) as [w1 r] eqn:He.
  destruct (encrypt_token_frame _ _ _ _ He) as [Hs Hm].
  destruct r as [[enc|]|]; [|by exists w1, meta..].
  destruct (nonempty enc); [|by exists w1, meta].
  eexists w1, _. split_and!; [done..|].
  intros k Hk1 Hk2. by rewrite lookup_delete_ne, lookup_insert_ne.
Qed.

(** [save_meta]: when it returns, the platform's entry is the merge of the
    (sealed) metadata into the entry that was there; when it raises, the
    file is as it was. *)
Lemma save_meta_ok plat meta w w' :
  save_meta plat (JObj meta) w = (w', Ok tt) →
  ∃ data ex meta1,
    default (JObj ∅) (meta_file w) = JObj data
    ∧ default (JObj ∅) (data !! plat) = JObj ex
    ∧ (∀ k, k ≠ py "client_secret" → k ≠ py "client_secret_enc" →
            meta1 !! k = meta !! k)
    ∧ same_process w w'
    ∧ meta_file w' = Some (JObj (<[plat := JObj (meta1 ∪ ex)]> data)).
Proof.
  unfold save_meta. intros Hs.
  apply bind_ok in Hs as (w0 & data & Hd & Hs). unfold gets in Hd. simplify_eq.
  destruct (seal_client_secret_spec meta w0) as (w1 & meta1 & Hseal & Hsp & Hmf & Hk).
  rewrite (bind_eq _ _ _ _ _ Hseal) in Hs.
  apply bind_ok in Hs as (w2 & ex & Hex & Hs). unfold lift in Hex.
  destruct (default (JObj ∅) (meta_file w0)) as [| | | | |data] eqn:Hdata; try done.
  cbn [json_get] in Hex. simplify_eq.
  apply bind_ok in Hs as (w3 & ex' & Hex' & Hs). unfold lift in Hex'.
  destruct (default (JObj ∅) (data !! plat)) as [| | | | |ex] eqn:Hexd; try done.
  cbn [json_update json_setitem] in *. simplify_eq.
  unfold lift, bind, modify in Hs. simplify_eq.
  exists data, ex, meta1. split_and!; [done..| |done].
  destruct Hsp as (?&?&?&?&?&?&?&?&?&?&?&?&?). by repeat split.
Qed.

Lemma save_meta_frame plat meta w w' r :
  save_meta plat meta w = (w', r) →
  same_process w w' ∧ (raises r = true → meta_file w' = meta_file w).
Proof.
  unfold save_meta. destruct meta as [| | | | |meta];
    try (intros [= <- <-]; split; [apply same_process_refl|done]).
  unfold bind at 1, gets.
  destruct (seal_client_secret_spec meta w) as (w1 & meta1 & Hseal & Hsp & Hmf & Hk).
  rewrite (bind_eq _ _ _ _ _ Hseal).
  unfold bind, lift, modify.
  destruct (json_get _ _ _) as [ex|]; [|by intros [= <- <-]].
  destruct (json_update _ _) as [ex'|]; [|by intros [= <- <-]].
  destruct (json_setitem _ _ _) as [d|]; [|by intros [= <- <-]].
  intros [= <- <-]. split; [|done].
  destruct Hsp as (?&?&?&?&?&?&?&?&?&?&?&?&?). by repeat split.
Qed.

(** What [load_meta(platform) or {}] is, by what the file holds. *)
Lemma load_meta_none w plat : file_entry w plat = None → load_meta w plat = JNull.
Proof.
  unfold file_entry, load_meta. destruct (meta_file w) as [[| | | | |data]|]; try done.
  cbn [json_get]. by intros ->.
Qed.

Lemma load_meta_dict w plat m :
  file_entry w plat = Some (JObj m) →
  ∃ m', load_meta w plat = JObj m'
        ∧ ∀ k, k ≠ py "client_secret" → m' !! k = m !! k.
Proof.
  unfold file_entry, load_meta. destruct (meta_file w) as [[| | | | |data]|]; try done.
  cbn [json_get]. intros ->. cbn [default from_option id].
  destruct (m !! py "client_secret_enc") as [enc|]; [|by exists m].
  destruct (_ && _); [|by exists m].
  destruct (_ ≫= _) as [[dec|]|]; [|by exists m..].
  destruct (nonempty dec); [|by exists m].
  eexists. split; [done|]. intros k Hk. by rewrite lookup_insert_ne.
Qed.

Lemma load_meta_other w plat j :
  file_entry w plat = Some j → (∀ m, j ≠ JObj m) → load_meta w plat = j.
Proof.
  unfold file_entry, load_meta. destruct (meta_file w) as [[| | | | |data]|]; try done.
  cbn [json_get]. intros -> Hj. cbn [default from_option id].
  destruct j; try done. by destruct (Hj m).
Qed.

Lemma or_empty_dict_obj m : ∃ m', or_empty_dict (JObj m) = JObj m' ∧ ∀ k, m' !! k = m !! k.
Proof.
  unfold or_empty_dict. cbn [truthy]. case_bool_decide as Hm; cbn [negb].
  - exists ∅. split; [done|]. by rewrite Hm.
  - by exists m.
Qed.

(** The token map the vault works on is the one in the file, whenever the
    lookups of the vault go through. *)
Lemma loaded_tokens w p tokens :
  json_get (load_meta_or_empty w p) (py "tokens") (JObj ∅) = Ok (JObj tokens) →
  tokens = file_tokens w p.
Proof.
  unfold load_meta_or_empty, file_tokens, entry_field.
  destruct (file_entry w (plat_key p)) as [j|] eqn:He.
  - assert ((∃ m, j = JObj m) ∨ (∀ m, j ≠ JObj m)) as [[m ->]|Hj]
      by (destruct j; eauto).
    + destruct (load_meta_dict _ _ _ He) as (m' & -> & Hm').
      destruct (or_empty_dict_obj m') as (m'' & -> & Hm'').
      cbn [json_get]. rewrite Hm'', Hm' by done.
      destruct (m !! py "tokens") as [[]|]; cbn; by intros [= <-].
    + rewrite (load_meta_other _ _ _ He) by done.
      unfold or_empty_dict. destruct (truthy j).
      * destruct j; try done. by destruct (Hj m).
      * cbn. intros [= <-]. destruct j; try done. by destruct (Hj m).
  - rewrite (load_meta_none _ _ He). cbn. by intros [= <-].
Qed.

Lemma saved_entry w plat data ex :
  default (JObj ∅) (meta_file w) = JObj data →
  default (JObj ∅) (data !! plat) = JObj ex →
  file_entry w plat = Some (JObj ex) ∨ (file_entry w plat = None ∧ ex = ∅).
Proof.
  unfold file_entry. destruct (meta_file w) as [j|]; cbn.
  - intros ->. destruct (data !! plat) as [j|]; cbn; [intros ->; auto|].
    intros [= <-]. auto.
  - intros [= <-]. rewrite lookup_empty. cbn. intros [= <-]. auto.
Qed.

Lemma file_entry_same w w' plat :
  meta_file w' = meta_file w → file_entry w' plat = file_entry w plat.
Proof. unfold file_entry. by intros ->. Qed.

(** The file fallback, when it returns [True]: the cipher was built from the
    configured key, and the platform's token map gained the ciphertext of
    the token under the user's key, nothing else in it changing. *)
Lemma store_in_file_ok p key token w w' :
  store_in_file p key (JStr token) w = (w', Ok true) →
  ∃ skey kb f tb m,
    fernet_imported w = true
    ∧ env_get w "DASHBOARD_SECRET_KEY" = Some skey ∧ nonempty skey = true
    ∧ str_encode skey = Ok kb ∧ fernet_new kb = Ok f
    ∧ str_encode token = Ok tb
    ∧ same_process w w'
    ∧ file_entry w' (plat_key p) = Some (JObj m)
    ∧ m !! py "tokens"
      = Some (JObj (<[key := JStr (latin1_decode
                                     (fernet_encrypt f (clock w) (entropy w) tb))]>
                      (file_tokens w p)))
    ∧ (∀ k, ¬ touched_by_store k → m !! k = entry_field w p k).
Proof.
  unfold store_in_file. intros Hs.
  apply bind_ok in Hs as (w0 & able & Ha & Hs). unfold gets in Ha. injection Ha as <- <-.
  destruct (can_encrypt w) eqn:Hce; [|unfold ret in Hs; by simplify_eq].
  cbn [negb] in Hs.
  apply bind_ok in Hs as (w1 & oenc & Henc & Hs).
  destruct oenc as [enc|]; [|unfold ret in Hs; by simplify_eq].
  destruct (nonempty enc) eqn:Hne; [|unfold ret in Hs; by simplify_eq].
  cbn [negb] in Hs.
  destruct (encrypt_token_frame _ _ _ _ Henc) as [Hsp1 Hmf1].
  apply encrypt_token_ok in Henc
    as (skey & kb & f & tb & Hfi & Hkey & Hsk & Hkb & Hf & Htb & -> & ->).
  apply bind_ok in Hs as (w2 & meta & Hmeta & Hs). unfold gets in Hmeta. injection Hmeta as <- <-.
  apply bind_ok in Hs as (w3 & tokens & Htok & Hs). unfold lift in Htok. injection Htok as <- Htok.
  apply bind_ok in Hs as (w3 & tokens1 & Htok1 & Hs). unfold lift in Htok1. injection Htok1 as <- Htok1.
  apply bind_ok in Hs as (w3 & meta2 & Hmeta2 & Hs). unfold lift in Hmeta2. injection Hmeta2 as <- Hmeta2.
  apply bind_ok in Hs as (w3 & meta3 & Hmeta3 & Hs). unfold lift in Hmeta3. injection Hmeta3 as <- Hmeta3.
  apply bind_ok in Hs as (w3 & [] & Hsave & Hs).
  apply bind_ok in Hs as (w4 & [] & Hlog & Hs).
  unfold ret in Hs. unfold log_info, log_record, modify in Hlog. simplify_eq.
  set (w1 := set_entropy (entropy w + 1) w) in *.
  set (ct := JStr (latin1_decode (fernet_encrypt f (clock w) (entropy w) tb))) in *.
  destruct tokens as [| | | | |tk]; try done. cbn [json_setitem] in *. simplify_eq.
  apply loaded_tokens in Htok. change (file_tokens w1 p) with (file_tokens w p) in Htok.
  destruct (load_meta_or_empty w1 p) as [| | | | |mm] eqn:Hload; try done.
  cbn [json_setitem json_setdefault] in *. simplify_eq.
  cbn [json_setdefault] in Hmeta3. injection Hmeta3 as <-.
  apply save_meta_ok in Hsave as (data & ex & meta1 & Hdata & Hex & Hm1 & Hsp3 & Hmf3).
  exists skey, kb, f, tb, (meta1 ∪ ex).
  assert (∀ k, k ≠ py "client_secret" → k ≠ py "client_secret_enc" →
            k ≠ py "last_sync" →
            meta1 !! k = <[py "tokens" := JObj (<[key := ct]> (file_tokens w p))]> mm !! k)
    as Hm1'.
  { intros k ? ? ?. rewrite Hm1 by done.
    destruct (<[py "tokens" := _]> mm !! py "last_sync"); [done|].
    by rewrite lookup_insert_ne. }
  do 6 (split; [done|]). split; [|split; [|split]].
  - eapply same_process_trans; [exact Hsp1|]. eapply same_process_trans; [exact Hsp3|].
    by repeat split.
  - unfold file_entry. cbn [meta_file set_log]. rewrite Hmf3. by rewrite lookup_insert_eq.
  - apply lookup_union_Some_l. rewrite Hm1' by done. by rewrite lookup_insert_eq.
  - intros k Hk.
    assert (k ≠ py "tokens" ∧ k ≠ py "last_sync" ∧ k ≠ py "client_secret"
            ∧ k ≠ py "client_secret_enc") as (?&?&?&?).
    { unfold touched_by_store in Hk. split_and!; intros ->; apply Hk; auto. }
    rewrite lookup_union, Hm1', lookup_insert_ne by done.
    unfold entry_field, load_meta_or_empty in *.
    destruct (saved_entry w1 _ _ _ Hdata Hex) as [He|[He ->]];
      change (file_entry w1 (plat_key p)) with (file_entry w (plat_key p)) in He;
      rewrite He.
    + destruct (load_meta_dict w1 _ _ He) as (m' & Hl & Hm').
      rewrite Hl in Hload.
      destruct (or_empty_dict_obj m') as (m'' & Ho & Hm''). rewrite Ho in Hload.
      simplify_eq. rewrite Hm'', Hm' by done. by destruct (ex !! k).
    + rewrite (load_meta_none w1 _ He) in Hload. cbn in Hload. simplify_eq.
      by rewrite !lookup_empty.
Qed.

(** The fields of the loaded metadata are those of the file's entry, the
    decrypted client secret apart. *)
Lemma loaded_fields w p mm :
  load_meta_or_empty w p = JObj mm →
  ∀ k, k ≠ py "client_secret" → mm !! k = entry_field w p k.
Proof.
  unfold load_meta_or_empty, entry_field. intros Hl k Hk.
  destruct (file_entry w (plat_key p)) as [j|] eqn:He.
  - assert ((∃ m, j = JObj m) ∨ (∀ m, j ≠ JObj m)) as [[m ->]|Hj]
      by (destruct j; eauto).
    + destruct (load_meta_dict _ _ _ He) as (m' & Hm & Hm'). rewrite Hm in Hl.
      destruct (or_empty_dict_obj m') as (m'' & Ho & Hm''). rewrite Ho in Hl.
      simplify_eq. by rewrite Hm'', Hm'.
    + rewrite (load_meta_other _ _ _ He) in Hl by done.
      unfold or_empty_dict in Hl. destruct (truthy j).
      * by destruct (Hj mm).
      * simplify_eq. rewrite lookup_empty. destruct j; try done. by destruct (Hj m).
  - rewrite (load_meta_none _ _ He) in Hl. cbn in Hl. simplify_eq.
    by rewrite lookup_empty.
Qed.

(** The fields of the platform's entry once [save_meta] has returned: those
    of the metadata passed, then those the entry had. *)
Lemma saved_fields p meta w w' :
  save_meta (plat_key p) (JObj meta) w = (w', Ok tt) →
  same_process w w'
  ∧ ∃ m, file_entry w' (plat_key p) = Some (JObj m)
      ∧ ∀ k, k ≠ py "client_secret" → k ≠ py "client_secret_enc" →
             m !! k = match meta !! k with
                      | Some v => Some v
                      | None => entry_field w p k
                      end.
Proof.
  intros Hs.
  apply save_meta_ok in Hs as (data & ex & meta1 & Hdata & Hex & Hm1 & Hsp & Hmf).
  split; [done|]. exists (meta1 ∪ ex). split.
  - unfold file_entry. rewrite Hmf. by rewrite lookup_insert_eq.
  - intros k Hk1 Hk2. rewrite lookup_union, Hm1 by done. unfold entry_field.
    destruct (saved_entry w _ _ _ Hdata Hex) as [He|[He ->]]; rewrite He.
    + by destruct (meta !! k), (ex !! k).
    + rewrite lookup_empty. by destruct (meta !! k).
Qed.

Lemma entry_field_same w w' p k :
  meta_file w' = meta_file w → entry_field w' p k = entry_field w p k.
Proof. unfold entry_field, file_entry. by intros ->. Qed.

Lemma same_process_log w l : same_process w (set_log l w).
Proof. by repeat split. Qed.

Lemma keyring_set_password_spec u token w w0 r :
  keyring_set_password u (JStr token) w = (w0, r) →
  (w0 = w ∧ raises r = true ∧ ∀ kr, keyring w = Some kr → kr_works kr = false)
  ∨ (∃ kr, keyring w = Some kr ∧ kr_works kr = true ∧ r = Ok tt
       ∧ w0 = set_keyring
                (Some {| kr_entries := <[(service, u) := token]> (kr_entries kr);
                         kr_works := true |}) w).
Proof.
  unfold keyring_set_password. destruct (keyring w) as [kr|]; [|intros [= <- <-]; by left].
  destruct (kr_works kr) eqn:Hw; intros [= <- <-].
  - right. by exists kr.
  - left. split_and!; [done..|]. by intros ? [= <-].
Qed.

(** The keyring branch of storing a token: it returns [True] once the
    keyring holds the token and the metadata are saved, and falls through,
    the file as it was, otherwise.  The token map of the file is the same
    either way. *)
Lemma store_in_keyring_spec p key token w w1 r :
  store_in_keyring p key (JStr token) w = (w1, r) →
  ∃ b w0, r = Ok b ∧ same_process w0 w1
    ∧ (b = true → ∀ k, k ≠ py "last_sync" → k ≠ py "client_secret" →
                       k ≠ py "client_secret_enc" →
                       entry_field w1 p k = entry_field w p k)
    ∧ (b = false → meta_file w1 = meta_file w)
    ∧ ((w0 = w ∧ b = false ∧ ∀ kr, keyring w = Some kr → kr_works kr = false)
       ∨ (∃ kr, keyring w = Some kr ∧ kr_works kr = true
            ∧ w0 = with_password p key token kr w)).
Proof.
  unfold store_in_keyring, catch. unfold bind at 1.
  destruct (keyring_set_password _ _ w) as [w0 r0] eqn:Hset.
  apply keyring_set_password_spec in Hset as [(-> & Hr & Hkr)|(kr & Hkr & Hw & -> & Hw0)].
  { destruct r0 as [|e]; [done|].
    unfold bind, log_error, log_record, modify, ret. intros [= <- <-].
    exists false, w. split_and!; [done|apply same_process_log|done|done|by left]. }
  fold (with_password p key token kr w) in Hw0. subst w0.
  set (w0 := with_password p key token kr w).
  unfold bind at 1, gets. unfold bind at 1, lift.
  destruct (json_setdefault _ _ _) as [meta|e] eqn:Hmeta.
  2: { unfold bind, log_error, log_record, modify, ret. intros [= <- <-].
       exists false, w0. split_and!; [done|apply same_process_log|done|done|].
       right. by exists kr. }
  destruct (load_meta_or_empty w0 p) as [| | | | |mm] eqn:Hload; try done.
  cbn [json_setdefault] in Hmeta. injection Hmeta as <-.
  unfold bind at 1.
  destruct (save_meta _ _ w0) as [w2 r2] eqn:Hsave.
  destruct r2 as [[]|e].
  - unfold bind, log_info, log_record, modify, ret. intros [= <- <-].
    apply saved_fields in Hsave as (Hsp & m & Hm & Hk).
    exists true, w0. split_and!; [done| |..|done|].
    + eapply same_process_trans; [exact Hsp|apply same_process_log].
    + intros _ k Hk1 Hk2 Hk3.
      transitivity (m !! k); [unfold entry_field, file_entry in *; cbn; by rewrite Hm|].
      rewrite Hk by done.
      rewrite <- (entry_field_same w w0) by done.
      rewrite <- (loaded_fields _ _ _ Hload) by done.
      destruct (mm !! py "last_sync"); [by destruct (mm !! k)|].
      rewrite lookup_insert_ne by done. by destruct (mm !! k).
    + right. by exists kr.
  - apply save_meta_frame in Hsave as [Hsp Hmf].
    unfold bind, log_error, log_record, modify, ret. intros [= <- <-].
    exists false, w0. split_and!; [done| |done| |].
    + eapply same_process_trans; [exact Hsp|apply same_process_log].
    + intros _. cbn. by rewrite Hmf.
    + right. by exists kr.
Qed.

(** Decrypting what the configured key encrypted gives the text back. *)
Lemma decrypt_encrypt w skey kb f token tb t iv :
  fernet_imported w = true →
  env_get w "DASHBOARD_SECRET_KEY" = Some skey → nonempty skey = true →
  str_encode skey = Ok kb → fernet_new kb = Ok f →
  str_encode token = Ok tb →
  decrypt_token w (fernet_encrypt f t iv tb) = Ok (Some token).
Proof.
  intros Hfi Hkey Hsk Hkb Hf Htb. unfold decrypt_token.
  rewrite Hfi, Hkey, Hsk, Hkb. cbn [negb mbind res_bind]. rewrite Hf.
  cbn [mbind res_bind]. apply str_encode_ok in Htb.
  rewrite fernet_round_trip by (by eapply utf8_encode_bytes).
  apply utf8_decode_encode, bytes_decode_ok in Htb. by rewrite Htb.
Qed.

Lemma file_tokens_entry w p m tk :
  file_entry w (plat_key p) = Some (JObj m) → m !! py "tokens" = Some (JObj tk) →
  file_tokens w p = tk.
Proof. unfold file_tokens, entry_field. by intros -> ->. Qed.

Lemma loaded_tokens_ok w p :
  (∀ j, file_entry w (plat_key p) = Some j → ∃ m, j = JObj m) →
  json_get (load_meta_or_empty w p) (py "tokens") (JObj ∅)
  = Ok (default (JObj ∅) (entry_field w p (py "tokens"))).
Proof.
  intros Hwf. destruct (load_meta_or_empty w p) as [| | | | |mm] eqn:Hl.
  6: { cbn [json_get]. by rewrite (loaded_fields _ _ _ Hl). }
  all: exfalso; unfold load_meta_or_empty in Hl;
    destruct (file_entry w (plat_key p)) as [j|] eqn:He;
    [destruct (Hwf _ eq_refl) as [m ->];
     destruct (load_meta_dict _ _ _ He) as (m' & Hm & _); rewrite Hm in Hl;
     destruct (or_empty_dict_obj m') as (m'' & Ho & _); by rewrite Ho in Hl
    |by rewrite (load_meta_none _ _ He) in Hl].
Qed.

(** Reading a token back from the file: the entry under the user's key is
    decrypted with the configured key. *)
Lemma get_token_from_file p user w m tk ct :
  keyring_token w p (email_key_of user) = None →
  file_entry w (plat_key p) = Some (JObj m) →
  m !! py "tokens" = Some (JObj tk) →
  tk !! email_key_of user = Some (JStr (latin1_decode ct)) →
  nonempty ct = true → forallb is_byte ct = true →
  get_token_for_user p user w = try_except (decrypt_token w ct) (Ok None).
Proof.
  intros Hkr He Hm Htk Hne Hb. unfold get_token_for_user. rewrite Hkr.
  rewrite loaded_tokens_ok by (intros j; rewrite He; intros [= <-]; eauto).
  unfold entry_field. rewrite He, Hm. cbn [default from_option id mbind res_bind json_get].
  rewrite Htk. cbn [default from_option id mbind res_bind truthy as_str].
  unfold latin1_decode, latin1_encode. rewrite Hne, Hb. done.
Qed.

Lemma keyring_token_none w p key :
  (keyring w = None ∨ ∃ kr, keyring w = Some kr ∧ kr_works kr = false) →
  keyring_token w p key = None.
Proof.
  unfold keyring_token, can_use_keyring, keyring_get_password.
  intros [->|(kr & -> & ->)]; [done|]. by case_bool_decide.
Qed.

Lemma keyring_token_password w p key token kr :
  keyring w = Some kr → kr_works kr = true →
  kr_entries kr !! (service, keyring_username p key) = Some token →
  keyring_token w p key = if nonempty token then Some token else None.
Proof.
  unfold keyring_token, can_use_keyring, keyring_get_password.
  intros -> -> ->. rewrite bool_decide_true by eauto. done.
Qed.

(** The file fallback changes the file only when it returns [True]. *)
Lemma store_in_file_frame p key token w w' r :
  store_in_file p key token w = (w', r) →
  same_process w w' ∧ (r ≠ Ok true → meta_file w' = meta_file w).
Proof.
  unfold store_in_file. unfold bind at 1, gets.
  destruct (can_encrypt w); cbn [negb];
    [|intros [= <- <-]; split; [apply same_process_refl|done]].
  unfold bind at 1.
  destruct (encrypt_token token w) as [w1 r1] eqn:Henc.
  apply encrypt_token_frame in Henc as [Hsp1 Hmf1].
  destruct r1 as [[enc|]|e]; [|by intros [= <- <-]..].
  destruct (nonempty enc); cbn [negb]; [|by intros [= <- <-]].
  unfold bind at 1, gets. unfold bind at 1, lift.
  destruct (json_get _ _ _) as [tokens|]; [|by intros [= <- <-]].
  unfold bind at 1.
  destruct (json_setitem tokens _ _) as [tokens1|]; [|by intros [= <- <-]].
  unfold bind at 1.
  destruct (json_setitem _ _ tokens1) as [meta2|]; [|by intros [= <- <-]].
  unfold bind at 1.
  destruct (json_setdefault _ _ _) as [meta3|]; [|by intros [= <- <-]].
  unfold bind at 1.
  destruct (save_meta _ _ w1) as [w2 r2] eqn:Hsave.
  apply save_meta_frame in Hsave as [Hsp2 Hmf2].
  destruct r2 as [[]|e].
  - unfold bind, log_info, log_record, modify, ret. intros [= <- <-]. split; [|done].
    eapply same_process_trans; [exact Hsp1|].
    eapply same_process_trans; [exact Hsp2|apply same_process_log].
  - intros [= <- <-]. split; [by eapply same_process_trans|].
    intros _. by rewrite Hmf2.
Qed.

(** The two stages of [store_token_for_*_user]: the keyring, from [w] to
    [w1], then, unless that returned [True], the file, from [w1]. *)
Lemma store_token_for_user_inv p token user w w' r :
  store_token_for_user p (JStr token) user w = (w', r) →
  ∃ w0 w1 (b : bool),
    same_process w0 w1
    ∧ ((w0 = w ∧ b = false
        ∧ (keyring w = None ∨ ∃ kr, keyring w = Some kr ∧ kr_works kr = false))
       ∨ (∃ kr, keyring w = Some kr ∧ kr_works kr = true
            ∧ w0 = with_password p (email_key_of user) token kr w))
    ∧ (if b
       then w' = w1 ∧ r = Ok true
            ∧ entry_field w1 p (py "tokens") = entry_field w p (py "tokens")
       else meta_file w1 = meta_file w
            ∧ store_in_file p (email_key_of user) (JStr token) w1 = (w', r)).
Proof.
  unfold store_token_for_user. unfold bind at 1, gets. unfold can_use_keyring.
  destruct (keyring w) as [kr|] eqn:Hkr.
  - rewrite bool_decide_true by eauto. unfold bind at 1.
    destruct (store_in_keyring _ _ _ w) as [w1 r1] eqn:Hk.
    apply store_in_keyring_spec in Hk as (b & w0 & -> & Hsp & Ht & Hf & Hw0).
    intros Hs. exists w0, w1, b. split; [done|]. split.
    + destruct Hw0 as [(-> & -> & Hw)|(kr' & Hkr' & Hw & ->)].
      * left. split_and!; [done..|]. right. exists kr. split; [done|]. by apply Hw.
      * assert (kr' = kr) as -> by congruence. right. by exists kr.
    + destruct b.
      * unfold ret in Hs. injection Hs as <- <-. split_and!; [done..|].
        by apply Ht.
      * by split; [apply Hf|].
  - rewrite bool_decide_false by (by intros [? ?]). unfold bind at 1, ret.
    intros Hs. exists w, w, false. split; [apply same_process_refl|].
    split; [left; auto|]. done.
Qed.

(** C6 (amended). A token that is not the empty string, once stored with
    success, is what the next retrieval for the same platform and user
    returns, from the keyring or from the encrypted file. *)
Theorem store_then_get (p : platform) (token : pystr)
    (user_email : option pystr) (w w' : world) :
  nonempty token = true →
  store_token_for_user p (JStr token) user_email w = (w', Ok true) →
  get_token_for_user p user_email w' = Ok (Some token).
Proof.
  intros Hne Hs.
  apply store_token_for_user_inv in Hs as (w0 & w1 & b & Hsp & Hw0 & Hb).
  pose proof Hsp as (He1 & _ & Hf1 & Hk1 & _).
  assert (∀ kr, keyring w = Some kr → kr_works kr = true →
            w0 = with_password p (email_key_of user_email) token kr w →
            ∀ w2, same_process w1 w2 →
            get_token_for_user p user_email w2 = Ok (Some token)) as Hfromkr.
  { intros kr Hkr Hw -> w2 (_ & _ & _ & Hk2 & _). unfold get_token_for_user.
    erewrite keyring_token_password;
      [by rewrite Hne| by rewrite Hk2, Hk1|done|cbn; by rewrite lookup_insert_eq]. }
  destruct b.
  - destruct Hb as (-> & _ & _).
    destruct Hw0 as [(_ & ? & _)|(kr & Hkr & Hw & Hw0)]; [done|].
    eapply Hfromkr; [done..|apply same_process_refl].
  - destruct Hb as [Hmf Hfile].
    apply store_in_file_ok in Hfile
      as (skey & kb & f & tb & m & Hfi & Hkey & Hsk & Hkb & Hf & Htb & Hsp' & He & Hm & _).
    destruct Hw0 as [(-> & _ & Hkr)|(kr & Hkr & Hw & Hw0)];
      [|by eapply Hfromkr].
    pose proof Hsp' as (He2 & _ & Hf2 & Hk2 & _).
    erewrite get_token_from_file;
      [|apply keyring_token_none; by rewrite Hk2, Hk1|exact He|exact Hm
       |apply lookup_insert_eq|apply fernet_token_nonempty|apply fernet_token_bytes].
    erewrite decrypt_encrypt; [done|by rewrite Hf2| |done..].
    unfold env_get in *. by rewrite He2.
Qed.

Lemma loaded_tokens_well_formed w p :
  store_well_formed w p →
  json_get (load_meta_or_empty w p) (py "tokens") (JObj ∅) = Ok (JObj (file_tokens w p)).
Proof.
  intros [Hwf Htk]. rewrite loaded_tokens_ok by done. unfold file_tokens.
  destruct (entry_field w p (py "tokens")) as [j|]; [|done].
  by destruct (Htk j eq_refl) as [tk ->].
Qed.

(** The legacy migration reads the single-token field only: without it, the
    migration returns [False] and changes nothing. *)
Lemma migrate_file_token_to_keyring_no_legacy w :
  (∀ j, file_entry w (plat_key Meta) = Some j → ∃ m, j = JObj m) →
  entry_field w Meta (py "access_token_encrypted") = None →
  migrate_file_token_to_keyring w = (w, Ok false).
Proof.
  intros Hwf Hnone. unfold migrate_file_token_to_keyring, bind, gets.
  destruct (can_use_keyring w); [|done]. cbn [negb]. unfold lift.
  destruct (load_meta_or_empty w Meta) as [| | | | |mm] eqn:Hl.
  6: { cbn [json_get]. rewrite (loaded_fields _ _ _ Hl) by done.
       by rewrite Hnone. }
  all: exfalso; generalize (loaded_tokens_ok w Meta Hwf); by rewrite Hl.
Qed.

(** C10. With no keyring, a token that [store_token_for_meta] stores is in
    the file, encrypted, under the key [default] of the token map.  The
    legacy migration then returns [False] and changes nothing, also in a
    later world with a keyring, the same file and no legacy field in it; and
    the location reported for the default user is the encrypted file. *)
Theorem meta_default_slot (token : pystr) (w w1 : world) :
  keyring w = None →
  store_token_for_meta (JStr token) w = (w1, Ok true) →
  (∃ ct, file_tokens w1 Meta !! py "default" = Some (JStr (latin1_decode ct))
         ∧ decrypt_token w1 ct = Ok (Some token))
  ∧ migrate_file_token_to_keyring w1 = (w1, Ok false)
  ∧ (∀ w2, meta_file w2 = meta_file w1 →
           entry_field w Meta (py "access_token_encrypted") = None →
           migrate_file_token_to_keyring w2 = (w2, Ok false)
           ∧ file_tokens w2 Meta !! py "default" = file_tokens w1 Meta !! py "default")
  ∧ token_storage_location_for_user Meta None w1 = Ok (py "encrypted_file").
Proof.
  intros Hkr Hs. unfold store_token_for_meta, store_token_for_meta_user in Hs.
  apply store_token_for_user_inv in Hs as (w0 & w' & b & Hsp & Hw0 & Hb).
  destruct Hw0 as [(-> & -> & _)|(kr & Hkr' & _)]; [|congruence].
  destruct Hb as [Hmf Hfile]. pose proof Hsp as (_ & _ & _ & Hk1 & _).
  apply store_in_file_ok in Hfile
    as (skey & kb & f & tb & m & Hfi & Hkey & Hsk & Hkb & Hf & Htb & Hsp' & He & Hm & Hoth).
  pose proof Hsp' as (He2 & _ & Hf2 & Hk2 & _).
  assert (keyring w1 = None) as Hkr1 by (by rewrite Hk2, Hk1).
  change (email_key_of None) with (py "default") in Hm.
  pose proof (file_tokens_entry _ _ _ _ He Hm) as Hft.
  split_and!.
  - eexists. split; [by rewrite Hft, lookup_insert_eq|].
    eapply decrypt_encrypt; [by rewrite Hf2| |done..].
    unfold env_get in *. by rewrite He2.
  - unfold migrate_file_token_to_keyring, bind, gets, can_use_keyring.
    rewrite Hkr1. by rewrite bool_decide_false by (by intros [? ?]).
  - intros w2 Hmf2 Hleg. split.
    + apply migrate_file_token_to_keyring_no_legacy.
      * intros j. rewrite (file_entry_same w1 w2) by done. rewrite He.
        intros [= <-]. eauto.
      * rewrite (entry_field_same w1 w2) by done.
        unfold entry_field at 1. rewrite He, Hoth.
        -- by rewrite (entry_field_same w w').
        -- unfold touched_by_store. by intros [|[|[|]]].
    + unfold file_tokens. by rewrite (entry_field_same w1 w2).
  - unfold token_storage_location_for_user.
    rewrite keyring_token_none by auto.
    rewrite loaded_tokens_ok by (intros j; rewrite He; intros [= <-]; eauto).
    unfold entry_field. rewrite He, Hm.
    cbn [default from_option id mbind res_bind json_get truthy].
    rewrite bool_decide_false by (apply insert_non_empty).
    cbn [negb]. change (email_key_of None) with (py "default").
    rewrite lookup_insert_eq.
    cbn [default from_option id mbind res_bind truthy].
    unfold latin1_decode. by rewrite fernet_token_nonempty.
Qed.

(** ** The code exchange *)

Lemma one_of_tiktok_google : one_of (py "tiktok") ["google"; "google_ads"] = false.
Proof. by vm_compute. Qed.

Lemma one_of_tiktok_meta : one_of (py "tiktok") ["meta"; "facebook"] = false.
Proof. by vm_compute. Qed.

(** ** The spend fetch *)










(** ** The callback *)

Lemma html_response_frame msg status w w' r :
  html_response msg status w = (w', r) → w' = w.
Proof. unfold html_response. by destruct (fastapi_imported w); intros [= <- _]. Qed.

(** Obtaining the token stores nothing: it reads the environment, talks to
    the provider and logs. *)
Lemma exchange_meta_code_frame code w w' r :
  exchange_meta_code code w = (w', r) → persisted w' = persisted w.
Proof.
  unfold exchange_meta_code, bind, gets, http_get, reads, lift, ret,
    log_error, log_record, modify, html_response.
  intros Hx. repeat case_match; simplify_eq; done.
Qed.

Lemma obtain_token_frame plat code token w w' r :
  obtain_token plat code token w = (w', r) → persisted w' = persisted w.
Proof.
  unfold obtain_token.
  destruct (_ && _); [|by intros [= <- _]].
  destruct (one_of plat ["meta"; "facebook"]); [apply exchange_meta_code_frame|].
  unfold bind, ret, html_response.
  repeat case_match; intros [= <- _]; by simplify_eq.
Qed.


(** * Further properties of the code *)

(** ** State tokens *)

Lemma check_age_clock w w' payload max_age :
  clock w' = clock w → check_age w' payload max_age = check_age w payload max_age.
Proof. unfold check_age. by intros ->. Qed.

Lemma verify_body_clock w w' key token max_age :
  clock w' = clock w →
  verify_body w' key token max_age = verify_body w key token max_age.
Proof.
  intros Hc. unfold verify_body.
  destruct (if _ && _ then _ else _) as [[payload|]|]; cbn; [|done..].
  by apply check_age_clock.
Qed.

(** X1. A token that holds no [.] is verified the same way whether a signing
    key is configured or not: the key is not used, only the age is checked. *)
Theorem dotless_token_ignores_key (w w0 : world) (token : pystr) (max_age : Z) :
  contains 46 token = false →
  raises (_get_key w) = false →
  _get_key w0 = Ok None →
  clock w0 = clock w →
  verify_state_token w token max_age = verify_state_token w0 token max_age.
Proof.
  intros Hdot Hkey Hk0 Hc.
  assert (46 ∉ token) as Hnot.
  { intros Hin. apply contains_elem_of in Hin. congruence. }
  destruct (_get_key w) as [key|] eqn:Hk; [|done].
  rewrite (verify_state_token_no_dot w token max_age key), (verify_state_token_no_dot w0 token max_age None) by done.
  by rewrite (verify_body_clock w w0).
Qed.

Lemma check_age_accepts w payload max_age e :
  check_age w payload max_age = Ok (Some e) →
  ∃ ts_s ts, split_first 124 payload = Some (e, ts_s)
             ∧ int_of_str ts_s = Ok ts ∧ clock w - ts ≤ max_age.
Proof.
  unfold check_age. destruct (split_first 124 payload) as [[email ts_s]|]; [|done].
  destruct (int_of_str ts_s) as [ts|] eqn:Hi; cbn [mbind res_bind]; [|done].
  destruct (max_age <? clock w - ts) eqn:Hage; [done|]. intros [= <-].
  exists ts_s, ts. split_and!; [done..|]. by apply Z.ltb_ge in Hage.
Qed.

Lemma verify_state_token_accepts w token max_age e :
  verify_state_token w token max_age = Ok (Some e) →
  ∃ key payload,
    _get_key w = Ok key
    ∧ (if contains 46 token && key_truthy key
       then signed_payload (default [] key) token
       else Some <$> unsigned_payload token) = Ok (Some payload)
    ∧ check_age w payload max_age = Ok (Some e).
Proof.
  unfold verify_state_token. destruct (_get_key w) as [key|]; [|done].
  cbn [mbind res_bind]. unfold try_except, verify_body.
  destruct (if _ && _ then _ else _) as [[payload|]|] eqn:Hp;
    cbn [mbind res_bind]; [|done..].
  destruct (check_age w payload max_age) as [r|] eqn:Hage; [|done].
  intros [= ->]. by exists key, payload.
Qed.

(** X2. Acceptance is monotone: a token accepted with some maximal age is
    accepted, for the same email, with any larger maximal age and at any
    earlier time, the environment being the same. *)
Theorem verify_state_token_monotone (w w' : world) (token : pystr)
    (max_age max_age' : Z) (e : pystr) :
  environ w' = environ w → clock w' ≤ clock w → max_age ≤ max_age' →
  verify_state_token w token max_age = Ok (Some e) →
  verify_state_token w' token max_age' = Ok (Some e).
Proof.
  intros Henv Hclock Hage Hv.
  apply verify_state_token_accepts in Hv as (key & payload & Hk & Hp & Hc).
  apply check_age_accepts in Hc as (ts_s & ts & Hs & Hi & Ha).
  unfold verify_state_token. rewrite (_get_key_environ w w' Henv), Hk.
  cbn [mbind res_bind]. unfold verify_body. rewrite Hp. cbn [mbind res_bind].
  unfold check_age. rewrite Hs, Hi. cbn [mbind res_bind].
  rewrite (proj2 (Z.ltb_ge _ _)) by lia. done.
Qed.

Lemma split_first_no_sep c s a b : split_first c s = Some (a, b) → contains c a = false.
Proof.
  unfold contains. revert a b. induction s as [|x s IH]; intros a b; cbn [split_first]; [done|].
  case_bool_decide as Hx; [intros [= <- <-]; apply bool_decide_false, not_elem_of_nil|].
  destruct (split_first c s) as [[a' b']|]; [|done]. cbn. intros [= <- <-].
  apply bool_decide_false. apply not_elem_of_cons. split; [done|].
  specialize (IH a' b' eq_refl). by apply bool_decide_eq_false in IH.
Qed.

(** X3. An email that verification returns holds no [|]: the payload is cut
    at its first [|].  So a token issued for an email with a [|] in it never
    verifies to that email. *)
Theorem verified_email_has_no_bar (w : world) (token : pystr) (max_age : Z)
    (e : pystr) :
  verify_state_token w token max_age = Ok (Some e) → contains 124 e = false.
Proof.
  intros Hv.
  apply verify_state_token_accepts in Hv as (key & payload & _ & _ & Hc).
  apply check_age_accepts in Hc as (ts_s & ts & Hs & _).
  by eapply split_first_no_sep.
Qed.

Lemma b64_char_token_char v : 0 ≤ v < 64 → state_token_char (b64_char v) = true.
Proof.
  intros Hv. unfold b64_char, state_token_char.
  repeat case_match; zhyps; zbool; done.
Qed.

Lemma urlsafe_b64encode_token_chars b :
  forallb is_byte b = true → forallb state_token_char (urlsafe_b64encode b) = true.
Proof.
  induction b as [|x|x y|x y z r IH] using list_ind3; intros Hb;
    cbn [forallb] in Hb; unfold is_byte in Hb; zhyps;
    cbn [urlsafe_b64encode forallb];
    rewrite ?b64_char_token_char by (Z.to_euclidean_division_equations; lia);
    rewrite ?IH by done; done.
Qed.

Lemma hex_digit_token_char d : 0 ≤ d < 16 → state_token_char (Hmac.hex_digit d) = true.
Proof.
  intros Hd. unfold Hmac.hex_digit, state_token_char. case_match; zhyps; zbool; done.
Qed.

Lemma hexdigest_token_chars key msg :
  forallb state_token_char (Hmac.hexdigest key msg) = true.
Proof.
  unfold Hmac.hexdigest.
  destruct (Hmac.state_of key msg) as [[[[[[[a b] c] d] e] f] g] h].
  rewrite !forallb_app. unfold Hmac.hex32. cbn [forallb].
  rewrite !hex_digit_token_char by (apply Z.mod_pos_bound; lia). done.
Qed.

(** X4. Every token that [make_state_token] returns is made of the letters
    and digits of ASCII and of [-], [_], [=] and [.]; with a signing key it
    ends with a dot and 64 characters, and without one it holds no dot. *)
Theorem make_state_token_alphabet (w : world) (email : pystr) (ttl : Z)
    (token : pystr) :
  make_state_token w email ttl = Ok token →
  forallb state_token_char token = true
  ∧ ∃ key, _get_key w = Ok key
      ∧ if key_truthy key
        then ∃ b64 sig, token = b64 ++ [46] ++ sig ∧ length sig = 64%nat
                        ∧ contains 46 b64 = false ∧ contains 46 sig = false
        else contains 46 token = false.
Proof.
  intros Hm.
  apply make_state_token_inv in Hm as (key & ts_s & pb & Hk & Hts & Hpb & ->).
  pose proof (utf8_encode_bytes _ _ Hpb) as Hbytes.
  destruct (b64_text_round_trip pb Hbytes) as (_ & _ & _ & Hnodot).
  assert (contains 46 (urlsafe_b64encode pb) = false) as Hc.
  { apply bool_decide_false. done. }
  split.
  - destruct (key_truthy key);
      rewrite ?forallb_app, ?urlsafe_b64encode_token_chars, ?hexdigest_token_chars by done;
      done.
  - exists key. split; [done|]. destruct (key_truthy key); [|done].
    eexists _, _. split_and!; [done|apply hexdigest_length|done|].
    apply bool_decide_false, hexdigest_no_dot.
Qed.

(** ** The vault *)

(** X5. What [encrypt_token] returns for a token, [decrypt_token] turns back
    into the token. *)
Theorem encrypt_then_decrypt (token : pystr) (w w' : world) (ct : bytes) :
  encrypt_token (JStr token) w = (w', Ok (Some ct)) →
  decrypt_token w' ct = Ok (Some token).
Proof.
  intros He.
  apply encrypt_token_ok in He
    as (key & kb & f & tb & Hfi & Hkey & Hne & Hkb & Hf & Htb & -> & ->).
  by eapply decrypt_encrypt.
Qed.

Lemma plat_key_inj p q : plat_key p = plat_key q → p = q.
Proof. destruct p, q; intros Hpq; try done; by vm_compute in Hpq. Qed.

Lemma entry_field_entry w p m k :
  file_entry w (plat_key p) = Some (JObj m) → entry_field w p k = m !! k.
Proof. unfold entry_field. by intros ->. Qed.

(** [save_meta] writes the entry of its platform only, and only into a
    file that is a dict (or is not there). *)
Lemma save_meta_others plat meta w w' :
  save_meta plat (JObj meta) w = (w', Ok tt) →
  ∀ other, other ≠ plat → file_entry w' other = file_entry w other.
Proof.
  intros Hs other Hne.
  apply save_meta_ok in Hs as (data & ex & meta1 & Hdata & _ & _ & _ & Hmf).
  unfold file_entry. rewrite Hmf, lookup_insert_ne by done.
  destruct (meta_file w) as [j|]; cbn in Hdata.
  - by rewrite Hdata.
  - injection Hdata as <-. by rewrite lookup_empty.
Qed.

Lemma save_meta_was_dict plat meta w w' :
  save_meta plat (JObj meta) w = (w', Ok tt) →
  ∀ j, file_entry w plat = Some j → ∃ m, j = JObj m.
Proof.
  intros Hs j Hj.
  apply save_meta_ok in Hs as (data & ex & meta1 & Hdata & Hex & _).
  destruct (saved_entry _ _ _ _ Hdata Hex) as [He|[He _]]; rewrite He in Hj;
    [injection Hj as <-; eauto|done].
Qed.

(** X6. After [save_meta] has returned, [load_meta] of the same platform
    returns a dict in which every field saved has the value saved and every
    other field the value the file had (the two client-secret fields
    apart); the entries of the other platforms and the keyring are as they
    were. *)
Theorem save_then_load (p : platform) (meta : gmap pystr json) (w w' : world) :
  save_meta (plat_key p) (JObj meta) w = (w', Ok tt) →
  (∃ m, load_meta w' (plat_key p) = JObj m
        ∧ ∀ k, k ≠ py "client_secret" → k ≠ py "client_secret_enc" →
               m !! k = match meta !! k with
                        | Some v => Some v
                        | None => entry_field w p k
                        end)
  ∧ (∀ q, q ≠ p → file_entry w' (plat_key q) = file_entry w (plat_key q))
  ∧ keyring w' = keyring w.
Proof.
  intros Hs. split_and!.
  - apply saved_fields in Hs as (_ & m0 & He & Hk).
    destruct (load_meta_dict _ _ _ He) as (m & Hm & Hm').
    exists m. split; [done|]. intros k Hk1 Hk2. by rewrite Hm', Hk.
  - intros q Hq. eapply save_meta_others; [done|].
    intros Hpq. by apply plat_key_inj in Hpq.
  - apply save_meta_frame in Hs as [(_ & _ & _ & Hkr & _) _]. done.
Qed.

(** X7. [update_last_sync], when it returns, has set [last_sync] to the UTC
    time followed by [Z] and has kept the token map, the other fields of
    the entry (the client secret apart) and the keyring. *)
Theorem update_last_sync_keeps_tokens (p : platform) (w w' : world) :
  update_last_sync p w = (w', Ok tt) →
  entry_field w' p (py "last_sync") = Some (JStr (utcnow_iso w ++ py "Z"))
  ∧ file_tokens w' p = file_tokens w p
  ∧ (∀ k, k ≠ py "last_sync" → k ≠ py "client_secret" →
          k ≠ py "client_secret_enc" → entry_field w' p k = entry_field w p k)
  ∧ keyring w' = keyring w.
Proof.
  unfold update_last_sync. intros Hu.
  apply bind_ok in Hu as (w0 & m & Hg & Hu). unfold gets in Hg. injection Hg as <- <-.
  apply bind_ok in Hu as (w0 & stamp & Hg & Hu). unfold gets in Hg. injection Hg as <- <-.
  apply bind_ok in Hu as (w0 & m' & Hset & Hu). unfold lift in Hset.
  injection Hset as <- Hset.
  destruct (load_meta_or_empty w p) as [| | | | |mm] eqn:Hload; try done.
  cbn [json_setitem] in Hset. injection Hset as <-.
  pose proof (save_meta_frame _ _ _ _ _ Hu) as [(_ & _ & _ & Hkr & _) _].
  apply saved_fields in Hu as (_ & m0 & He & Hk).
  assert (∀ k, k ≠ py "last_sync" → k ≠ py "client_secret" →
            k ≠ py "client_secret_enc" → entry_field w' p k = entry_field w p k) as Hsame.
  { intros k Hk1 Hk2 Hk3. rewrite (entry_field_entry _ _ _ _ He), Hk by done.
    rewrite lookup_insert_ne by done. rewrite (loaded_fields _ _ _ Hload) by done.
    by destruct (entry_field w p k). }
  split_and!; [|unfold file_tokens; by rewrite Hsame|done..].
  rewrite (entry_field_entry _ _ _ _ He), Hk by done. by rewrite lookup_insert_eq.
Qed.

(** X8. With a metadata file of the shape the program writes, the getter
    and the locator return: neither raises. *)
Theorem vault_reads_return (p : platform) (user_email : option pystr) (w : world) :
  store_well_formed w p →
  (∃ r, get_token_for_user p user_email w = Ok r)
  ∧ (∃ loc, token_storage_location_for_user p user_email w = Ok loc
            ∧ (loc = py "keyring" ∨ loc = py "encrypted_file" ∨ loc = py "none")).
Proof.
  intros Hwf. split.
  - unfold get_token_for_user. destruct (keyring_token _ _ _); [eauto|].
    rewrite loaded_tokens_well_formed by done. cbn [mbind res_bind json_get].
    destruct (negb _); [eauto|].
    destruct (try_except _ _) as [r|e] eqn:Htry; [eauto|].
    unfold try_except in Htry. by case_match.
  - unfold token_storage_location_for_user. destruct (keyring_token _ _ _); [eauto|].
    rewrite loaded_tokens_well_formed by done. cbn [mbind res_bind json_get].
    destruct (truthy (JObj _)); [|eauto 6].
    cbn [mbind res_bind json_get]. destruct (truthy _); eauto 6.
Qed.

(** X9. The getter and the locator agree: when the getter returns a token,
    the locator reports the keyring or the encrypted file, never [none]. *)
Theorem located_token (p : platform) (user_email : option pystr) (w : world)
    (t : pystr) :
  get_token_for_user p user_email w = Ok (Some t) →
  token_storage_location_for_user p user_email w = Ok (py "keyring")
  ∨ token_storage_location_for_user p user_email w = Ok (py "encrypted_file").
Proof.
  unfold get_token_for_user, token_storage_location_for_user.
  destruct (keyring_token _ _ _) as [t0|]; [auto|].
  destruct (json_get (load_meta_or_empty w p) _ _) as [tokens|]; cbn [mbind res_bind];
    [|done].
  destruct tokens as [| | | | |tk]; cbn [json_get mbind res_bind truthy]; try done.
  destruct (tk !! email_key_of user_email) as [enc|] eqn:Hlook;
    cbn [default from_option id]; [|done].
  rewrite bool_decide_false
    by (intros Htk; rewrite Htk in Hlook; by rewrite lookup_empty in Hlook).
  cbn [negb mbind res_bind]. destruct (truthy enc); cbn [negb]; [auto|done].
Qed.

(** What a migration that returns [True] has done. *)
Lemma migrate_success p user_email w w' :
  migrate_file_token_to_keyring_for_user p user_email w = (w', Ok true) →
  ∃ kr mm tk enc token w2,
    keyring w = Some kr ∧ kr_works kr = true
    ∧ load_meta_or_empty w p = JObj mm
    ∧ default (JObj ∅) (mm !! py "tokens") = JObj tk
    ∧ tk !! email_key_of user_email = Some (JStr enc) ∧ nonempty enc = true
    ∧ (eb ← latin1_encode enc; decrypt_token w eb) = Ok (Some token)
    ∧ nonempty token = true
    ∧ save_meta (plat_key p)
        (JObj (<[py "tokens" := JObj (delete (email_key_of user_email) tk)]> mm))
        (with_password p (email_key_of user_email) token kr w) = (w2, Ok tt)
    ∧ keyring w' = keyring w2 ∧ meta_file w' = meta_file w2
    ∧ environ w' = environ w2 ∧ fernet_imported w' = fernet_imported w2.
Proof.
  intros Hs. unfold migrate_file_token_to_keyring_for_user in Hs.
  apply bind_ok in Hs as (w0 & kr & Hg & Hs). unfold gets in Hg.
  injection Hg as <- <-.
  destruct (can_use_keyring w); [|by unfold ret in Hs]. cbn [negb] in Hs.
  apply bind_ok in Hs as (w0 & m & Hg & Hs). unfold gets in Hg.
  injection Hg as <- <-.
  apply bind_ok in Hs as (w0 & tokens & Htok & Hs). unfold lift in Htok.
  injection Htok as <- Htok.
  apply bind_ok in Hs as (w0 & enc & Henc & Hs). unfold lift in Henc.
  injection Henc as <- Henc.
  destruct (truthy enc) eqn:Htr; [|by unfold ret in Hs]. cbn [negb] in Hs.
  unfold catch in Hs.
  match type of Hs with
  | match ?body w with _ => _ end = _ =>
      destruct (body w) as [w2 [b|e]] eqn:Hbody; [|by unfold ret in Hs]
  end.
  injection Hs as -> ->.
  apply bind_ok in Hbody as (w0 & token & Hdec & Hbody). unfold reads in Hdec.
  injection Hdec as <- Hdec.
  destruct token as [token|]; [|by unfold ret in Hbody].
  destruct (nonempty token) eqn:Hne; [|by unfold ret in Hbody].
  cbn [negb] in Hbody.
  apply bind_ok in Hbody as (w0 & [] & Hset & Hbody).
  apply keyring_set_password_spec in Hset
    as [(_ & ? & _)|(kr & Hkr & Hw & _ & ->)]; [done|].
  apply bind_ok in Hbody as (w2 & [] & Hsave & Hbody).
  apply bind_ok in Hbody as (w3 & [] & Hlog & Hbody).
  unfold ret in Hbody. unfold log_info, log_record, modify in Hlog.
  injection Hbody as <-. injection Hlog as <-.
  destruct tokens as [| | | | |tk]; try done. cbn [json_get] in Henc.
  injection Henc as <-.
  destruct (tk !! email_key_of user_email) as [enc|] eqn:Hlook; [|done].
  cbn [json_delitem] in Hsave. rewrite Hlook in Hsave.
  cbn [mbind res_bind] in Hsave.
  destruct (load_meta_or_empty w p) as [| | | | |mm] eqn:Hload; try done.
  cbn [json_setitem json_get] in Hsave, Htok. injection Htok as Htok.
  destruct enc as [| | |enc| |]; try done. cbn [as_str mbind res_bind] in Hdec.
  exists kr, mm, tk, enc, token, w2. split_and!; done.
Qed.

(** X10. A migration that returns [True] has moved the token: the file held
    a ciphertext under the user's key, the retrieval that follows returns
    its decryption, and that is also what retrieval returned before when
    the keyring held nothing for the user. *)
Theorem migrate_keeps_token (p : platform) (user_email : option pystr)
    (w w' : world) :
  migrate_file_token_to_keyring_for_user p user_email w = (w', Ok true) →
  ∃ enc token,
    file_tokens w p !! email_key_of user_email = Some (JStr enc)
    ∧ (eb ← latin1_encode enc; decrypt_token w eb) = Ok (Some token)
    ∧ get_token_for_user p user_email w' = Ok (Some token)
    ∧ (keyring_token w p (email_key_of user_email) = None →
       get_token_for_user p user_email w = Ok (Some token)).
Proof.
  intros Hs.
  apply migrate_success in Hs
    as (kr & mm & tk & enc & token & w2 & Hkr & Hw & Hload & Htk & Hlook & Henc
        & Hdec & Hne & Hsave & Hk' & _).
  assert (json_get (load_meta_or_empty w p) (py "tokens") (JObj ∅) = Ok (JObj tk))
    as Hget by (rewrite Hload; cbn [json_get]; by rewrite Htk).
  pose proof (loaded_tokens _ _ _ Hget) as ->.
  exists enc, token. split_and!; [done..| |].
  - apply save_meta_frame in Hsave as [(_ & _ & _ & Hk2 & _) _].
    unfold get_token_for_user.
    erewrite keyring_token_password;
      [by rewrite Hne|by rewrite Hk', Hk2|done|cbn; by rewrite lookup_insert_eq].
  - intros Hnone. unfold get_token_for_user. rewrite Hnone, Hget.
    cbn [mbind res_bind json_get]. rewrite Hlook.
    cbn [default from_option id truthy as_str mbind res_bind]. rewrite Henc.
    cbn [negb]. by rewrite Hdec.
Qed.

(** X11. Migrating twice: after a migration that returned [True], a second
    migration for the same user returns [False] and changes nothing. *)
Theorem migrate_twice (p : platform) (user_email : option pystr) (w w' : world) :
  migrate_file_token_to_keyring_for_user p user_email w = (w', Ok true) →
  migrate_file_token_to_keyring_for_user p user_email w' = (w', Ok false).
Proof.
  intros Hs.
  apply migrate_success in Hs
    as (kr & mm & tk & enc & token & w2 & Hkr & Hw & Hload & Htk & Hlook & Henc
        & Hdec & Hne & Hsave & Hk' & Hmf' & _).
  apply saved_fields in Hsave as (_ & m0 & He & Hk).
  assert (file_entry w' (plat_key p) = Some (JObj m0)) as He'
    by (by rewrite (file_entry_same w2 w')).
  unfold migrate_file_token_to_keyring_for_user, bind, gets.
  destruct (can_use_keyring w'); [|done]. cbn [negb]. unfold lift.
  rewrite loaded_tokens_ok by (intros j; rewrite He'; intros [= <-]; eauto).
  rewrite (entry_field_entry _ _ _ _ He'), Hk by done. rewrite lookup_insert_eq.
  cbn [default from_option id json_get]. by rewrite lookup_delete_eq.
Qed.

(** *** What the reads of the vault depend on *)

Lemma keyring_username_inj p q k1 k2 :
  keyring_username p k1 = keyring_username q k2 → p = q ∧ k1 = k2.
Proof.
  unfold keyring_username. destruct p, q; intros Heq; vm_compute in Heq;
    try discriminate Heq; by injection Heq as ->.
Qed.

Lemma load_meta_of_dict w plat m :
  file_entry w plat = Some (JObj m) → load_meta w plat = with_client_secret w m.
Proof.
  unfold file_entry, load_meta, with_client_secret.
  destruct (meta_file w) as [[| | | | |d]|]; try done.
  intros Hd. cbn [json_get]. by rewrite Hd.
Qed.

Lemma with_client_secret_same w w' m :
  environ w' = environ w → fernet_imported w' = fernet_imported w →
  with_client_secret w' m = with_client_secret w m.
Proof.
  intros Henv Hf. unfold with_client_secret.
  rewrite (can_encrypt_same _ _ Henv Hf).
  destruct (m !! py "client_secret_enc") as [enc|]; [|done].
  destruct (_ && _); [|done].
  destruct (as_str enc) as [s|]; [|done]. cbn [mbind res_bind].
  destruct (latin1_encode s) as [eb|]; [|done]. cbn [mbind res_bind].
  by rewrite (decrypt_token_same _ _ _ Henv Hf).
Qed.

(** [load_meta] reads the entry of its platform, the cipher key and
    nothing else. *)
Lemma load_meta_entry_same w w' plat :
  file_entry w' plat = file_entry w plat →
  environ w' = environ w → fernet_imported w' = fernet_imported w →
  load_meta w' plat = load_meta w plat.
Proof.
  intros He Henv Hf.
  destruct (file_entry w plat) as [j|] eqn:Hj.
  - assert ((∃ m, j = JObj m) ∨ (∀ m, j ≠ JObj m)) as [[m ->]|Hother]
      by (destruct j; eauto).
    + rewrite (load_meta_of_dict _ _ _ Hj), (load_meta_of_dict _ _ _ He).
      by apply with_client_secret_same.
    + by rewrite (load_meta_other _ _ _ Hj), (load_meta_other _ _ _ He).
  - by rewrite (load_meta_none _ _ Hj), (load_meta_none _ _ He).
Qed.

Lemma keyring_token_same w w' p key :
  keyring w' = keyring w → keyring_token w' p key = keyring_token w p key.
Proof.
  unfold keyring_token, can_use_keyring, keyring_get_password. by intros ->.
Qed.

Lemma keyring_token_other p key token kr w q key2 :
  keyring w = Some kr → kr_works kr = true → (q, key2) ≠ (p, key) →
  keyring_token (with_password p key token kr w) q key2 = keyring_token w q key2.
Proof.
  intros Hkr Hw Hne.
  unfold keyring_token, can_use_keyring, keyring_get_password, with_password.
  cbn. rewrite Hkr, Hw. rewrite !bool_decide_true by eauto.
  rewrite lookup_insert_ne; [done|].
  intros [= Heq]. apply keyring_username_inj in Heq as [-> ->]. done.
Qed.

Lemma decrypt_entry_same w w' (enc : json) :
  environ w' = environ w → fernet_imported w' = fernet_imported w →
  try_except (s ← as_str enc; eb ← latin1_encode s; decrypt_token w' eb) (Ok None)
  = try_except (s ← as_str enc; eb ← latin1_encode s; decrypt_token w eb) (Ok None).
Proof.
  intros Henv Hf. destruct (as_str enc) as [s|]; [|done]. cbn [mbind res_bind].
  destruct (latin1_encode s) as [eb|]; [|done]. cbn [mbind res_bind].
  by rewrite (decrypt_token_same _ _ _ Henv Hf).
Qed.

(** The getter and the locator read the keyring entry of the user, the
    entry of the user in the token map of the platform, and the cipher key. *)
Lemma vault_reads_agree q u2 w w' :
  environ w' = environ w → fernet_imported w' = fernet_imported w →
  keyring_token w' q (email_key_of u2) = keyring_token w q (email_key_of u2) →
  (json_get (load_meta_or_empty w' q) (py "tokens") (JObj ∅)
   = json_get (load_meta_or_empty w q) (py "tokens") (JObj ∅)
   ∨ ∃ tk tk',
       json_get (load_meta_or_empty w q) (py "tokens") (JObj ∅) = Ok (JObj tk)
       ∧ json_get (load_meta_or_empty w' q) (py "tokens") (JObj ∅) = Ok (JObj tk')
       ∧ tk' !! email_key_of u2 = tk !! email_key_of u2 ∧ tk' ≠ ∅) →
  get_token_for_user q u2 w' = get_token_for_user q u2 w
  ∧ token_storage_location_for_user q u2 w' = token_storage_location_for_user q u2 w.
Proof.
  intros Henv Hf Hkr Htok.
  unfold get_token_for_user, token_storage_location_for_user. rewrite Hkr.
  destruct (keyring_token w q (email_key_of u2)); [done|].
  destruct Htok as [->|(tk & tk' & -> & -> & Hlook & Hne)].
  - split; [|done].
    destruct (json_get _ _ _) as [tokens|]; [|done]. cbn [mbind res_bind].
    destruct (json_get tokens _ _) as [enc|]; [|done]. cbn [mbind res_bind].
    destruct (negb _); [done|]. by apply decrypt_entry_same.
  - cbn [mbind res_bind json_get truthy]. rewrite Hlook.
    split.
    + destruct (negb _); [done|]. by apply decrypt_entry_same.
    + rewrite (bool_decide_false (tk' = ∅)) by done. cbn [negb mbind res_bind].
      case_bool_decide as Htk; cbn [negb mbind res_bind]; [|done].
      rewrite Htk, lookup_empty. done.
Qed.

(** What storing a token reaches in the file, beyond the token map of its
    platform: nothing of the other platforms; and it succeeds only on an
    entry of the shape the program writes. *)
Lemma store_in_file_effect p key token w w' r :
  store_in_file p key (JStr token) w = (w', r) →
  (∀ q, q ≠ p → file_entry w' (plat_key q) = file_entry w (plat_key q))
  ∧ (r = Ok true → store_well_formed w p).
Proof.
  intros Hs.
  assert (r = Ok true ∨ r ≠ Ok true) as [->|Hr] by (destruct r as [[]|]; auto).
  2: { apply store_in_file_frame in Hs as [_ Hmf]. split; [|done].
       intros q _. by apply file_entry_same, Hmf. }
  unfold store_in_file in Hs.
  apply bind_ok in Hs as (w0 & able & Ha & Hs). unfold gets in Ha. injection Ha as <- <-.
  destruct (can_encrypt w) eqn:Hce; [|unfold ret in Hs; by simplify_eq].
  cbn [negb] in Hs.
  apply bind_ok in Hs as (w1 & oenc & Henc & Hs).
  destruct oenc as [enc|]; [|unfold ret in Hs; by simplify_eq].
  destruct (nonempty enc) eqn:Hne; [|unfold ret in Hs; by simplify_eq].
  cbn [negb] in Hs.
  destruct (encrypt_token_frame _ _ _ _ Henc) as [Hsp1 Hmf1].
  apply bind_ok in Hs as (w2 & meta & Hmeta & Hs). unfold gets in Hmeta.
  injection Hmeta as <- <-.
  apply bind_ok in Hs as (w3 & tokens & Htok & Hs). unfold lift in Htok.
  injection Htok as <- Htok.
  apply bind_ok in Hs as (w3 & tokens1 & Htok1 & Hs). unfold lift in Htok1.
  injection Htok1 as <- Htok1.
  apply bind_ok in Hs as (w3 & meta2 & Hmeta2 & Hs). unfold lift in Hmeta2.
  injection Hmeta2 as <- Hmeta2.
  apply bind_ok in Hs as (w3 & meta3 & Hmeta3 & Hs). unfold lift in Hmeta3.
  injection Hmeta3 as <- Hmeta3.
  apply bind_ok in Hs as (w3 & [] & Hsave & Hs).
  apply bind_ok in Hs as (w4 & [] & Hlog & Hs).
  unfold ret in Hs. unfold log_info, log_record, modify in Hlog.
  injection Hs as <-. injection Hlog as <-.
  destruct tokens as [| | | | |tk]; try done.
  destruct (load_meta_or_empty w1 p) as [| | | | |mm] eqn:Hload; try done.
  cbn [json_setitem json_get] in *. injection Htok1 as <-. injection Hmeta2 as <-.
  cbn [json_setdefault] in Hmeta3. injection Hmeta3 as <-. injection Htok as Htok.
  split.
  - intros q Hq. transitivity (file_entry w3 (plat_key q)); [done|].
    rewrite <- (file_entry_same w w1) by done.
    eapply save_meta_others; [exact Hsave|]. intros Hpq. by apply plat_key_inj in Hpq.
  - intros _. split.
    + intros j. rewrite <- (file_entry_same w w1) by done.
      by eapply save_meta_was_dict.
    + intros j. rewrite <- (entry_field_same w w1) by done.
      rewrite <- (loaded_fields _ _ _ Hload) by done. intros Hj.
      rewrite Hj in Htok. cbn in Htok. eauto.
Qed.

Lemma store_in_keyring_effect p key token w w1 r :
  store_in_keyring p key (JStr token) w = (w1, r) →
  (∀ q, q ≠ p → file_entry w1 (plat_key q) = file_entry w (plat_key q))
  ∧ (r = Ok true →
     (∀ j, file_entry w (plat_key p) = Some j → ∃ m, j = JObj m)
     ∧ ∃ m, file_entry w1 (plat_key p) = Some (JObj m)).
Proof.
  intros Hs.
  assert (r = Ok true ∨ r ≠ Ok true) as [->|Hr] by (destruct r as [[]|]; auto).
  2: { apply store_in_keyring_spec in Hs as (b & w0 & -> & _ & _ & Hf & _).
       split; [|done]. intros q _. apply file_entry_same, Hf.
       destruct b; [done|done]. }
  unfold store_in_keyring, catch in Hs. unfold bind at 1 in Hs.
  destruct (keyring_set_password _ _ w) as [w0 r0] eqn:Hset.
  apply keyring_set_password_spec in Hset as [(-> & Hr & Hkr)|(kr & Hkr & Hw & -> & Hw0)].
  { destruct r0 as [|e]; [done|].
    unfold bind, log_error, log_record, modify, ret in Hs. done. }
  assert (meta_file w0 = meta_file w) as Hmf0 by (by subst w0).
  clear Hw0.
  unfold bind at 1, gets in Hs. unfold bind at 1, lift in Hs.
  destruct (json_setdefault _ _ _) as [meta|e] eqn:Hmeta;
    [|unfold bind, log_error, log_record, modify, ret in Hs; done].
  destruct (load_meta_or_empty w0 p) as [| | | | |mm] eqn:Hload; try done.
  cbn [json_setdefault] in Hmeta. injection Hmeta as <-.
  unfold bind at 1 in Hs.
  destruct (save_meta _ _ w0) as [w2 r2] eqn:Hsave.
  destruct r2 as [[]|e];
    [|unfold bind, log_error, log_record, modify, ret in Hs; done].
  unfold bind, log_info, log_record, modify, ret in Hs. injection Hs as <-.
  split.
  - intros q Hq. transitivity (file_entry w2 (plat_key q)); [done|].
    rewrite <- (file_entry_same w w0) by done.
    eapply save_meta_others; [exact Hsave|]. intros Hpq. by apply plat_key_inj in Hpq.
  - intros _. split.
    + intros j. rewrite <- (file_entry_same w w0) by done.
      by eapply save_meta_was_dict.
    + apply saved_fields in Hsave as (_ & m & Hm & _). by exists m.
Qed.

Lemma store_token_for_user_stages p token user w w' r :
  store_token_for_user p (JStr token) user w = (w', r) →
  ∃ w1 (b : bool),
    ((keyring w = None ∧ w1 = w ∧ b = false)
     ∨ store_in_keyring p (email_key_of user) (JStr token) w = (w1, Ok b))
    ∧ (if b then w' = w1 ∧ r = Ok true
       else store_in_file p (email_key_of user) (JStr token) w1 = (w', r)).
Proof.
  unfold store_token_for_user. unfold bind at 1, gets. unfold can_use_keyring.
  destruct (keyring w) as [kr|] eqn:Hkr.
  - rewrite bool_decide_true by eauto. unfold bind at 1.
    destruct (store_in_keyring _ _ _ w) as [w1 r1] eqn:Hk.
    destruct (store_in_keyring_spec _ _ _ _ _ _ Hk) as (b & _ & -> & _).
    intros Hs. exists w1, b. split; [by right|].
    destruct b; [|done]. unfold ret in Hs. by injection Hs as <- <-.
  - rewrite bool_decide_false by (by intros [? ?]). unfold bind at 1, ret.
    intros Hs. exists w, false. split; [by left|done].
Qed.

Lemma load_meta_or_empty_same w w' p :
  file_entry w' (plat_key p) = file_entry w (plat_key p) →
  environ w' = environ w → fernet_imported w' = fernet_imported w →
  load_meta_or_empty w' p = load_meta_or_empty w p.
Proof.
  intros He Henv Hf. unfold load_meta_or_empty.
  by rewrite (load_meta_entry_same w w').
Qed.

(** X12. Storing a token for one user of one platform changes what neither
    the getter nor the locator returns for any other user or any other
    platform, whatever the outcome of the store. *)
Theorem store_isolated (p q : platform) (token : pystr)
    (user_email other_email : option pystr) (w w' : world) (r : res bool) :
  store_token_for_user p (JStr token) user_email w = (w', r) →
  (q, email_key_of other_email) ≠ (p, email_key_of user_email) →
  get_token_for_user q other_email w' = get_token_for_user q other_email w
  ∧ token_storage_location_for_user q other_email w'
    = token_storage_location_for_user q other_email w.
Proof.
  intros Hs Hne.
  apply store_token_for_user_stages in Hs as (w1 & b & Hring & Hfile).
  (* the keyring stage *)
  assert (environ w1 = environ w ∧ fernet_imported w1 = fernet_imported w
          ∧ keyring_token w1 q (email_key_of other_email)
            = keyring_token w q (email_key_of other_email)
          ∧ (∀ q', q' ≠ p → file_entry w1 (plat_key q') = file_entry w (plat_key q'))
          ∧ (if b
             then (∀ j, file_entry w (plat_key p) = Some j → ∃ m, j = JObj m)
                  ∧ (∃ m, file_entry w1 (plat_key p) = Some (JObj m))
                  ∧ entry_field w1 p (py "tokens") = entry_field w p (py "tokens")
             else meta_file w1 = meta_file w))
    as (Henv1 & Hf1 & Hkr1 & Hoth1 & Hb1).
  { destruct Hring as [(Hkr & -> & ->)|Hring]; [done|].
    destruct (store_in_keyring_effect _ _ _ _ _ _ Hring) as [Hoth Heff].
    apply store_in_keyring_spec in Hring
      as (b' & w0 & [= <-] & Hsp & Ht & Hfl & Hw0).
    pose proof Hsp as (He & _ & Hfi & Hk & _).
    assert (environ w0 = environ w ∧ fernet_imported w0 = fernet_imported w
            ∧ keyring_token w0 q (email_key_of other_email)
              = keyring_token w q (email_key_of other_email)) as (He0 & Hf0 & Hk0).
    { destruct Hw0 as [(-> & _)|(kr & Hkr & Hw & ->)]; [done|].
      split_and!; [done..|]. by apply keyring_token_other. }
    split_and!; [congruence|congruence| |done|].
    - by rewrite (keyring_token_same w0 w1).
    - destruct b; [|by apply Hfl].
      destruct (Heff eq_refl) as [Hwas Hnow]. split_and!; [done..|].
      by apply Ht. }
  (* the file stage *)
  assert (environ w' = environ w1 ∧ fernet_imported w' = fernet_imported w1
          ∧ keyring w' = keyring w1
          ∧ (∀ q', q' ≠ p → file_entry w' (plat_key q') = file_entry w1 (plat_key q')))
    as (Henv2 & Hf2 & Hkr2 & Hoth2).
  { destruct b; [by destruct Hfile as [-> _]|].
    destruct (store_in_file_effect _ _ _ _ _ _ Hfile) as [Hoth _].
    apply store_in_file_frame in Hfile as [(He & _ & Hfi & Hk & _) _]. done. }
  apply vault_reads_agree; [congruence|congruence| |].
  { by rewrite (keyring_token_same w1 w'). }
  assert (q = p ∨ q ≠ p) as [->|Hqp] by (destruct p, q; auto).
  2: { left. f_equal. apply load_meta_or_empty_same; [|congruence..].
       by rewrite Hoth2, Hoth1. }
  assert (email_key_of other_email ≠ email_key_of user_email) as Hkey by congruence.
  destruct b.
  - destruct Hfile as [-> _]. destruct Hb1 as (Hwas & [m Hnow] & Htok). left.
    rewrite !loaded_tokens_ok; [by rewrite Htok|done|].
    intros j. rewrite Hnow. intros [= <-]. eauto.
  - assert (load_meta_or_empty w1 p = load_meta_or_empty w p) as Hload
      by (by apply load_meta_or_empty_same; [apply file_entry_same|..]).
    assert (r = Ok true ∨ r ≠ Ok true) as [->|Hr] by (destruct r as [[]|]; auto).
    + destruct (store_in_file_effect _ _ _ _ _ _ Hfile) as [_ Hwf].
      specialize (Hwf eq_refl).
      apply store_in_file_ok in Hfile
        as (skey & kb & f & tb & m & _ & _ & _ & _ & _ & _ & _ & He & Hm & _).
      right. eexists _, _. split_and!.
      * rewrite <- Hload. by apply loaded_tokens_well_formed.
      * rewrite loaded_tokens_ok by (intros j; rewrite He; intros [= <-]; eauto).
        by rewrite (entry_field_entry _ _ _ _ He), Hm.
      * by rewrite lookup_insert_ne.
      * apply insert_non_empty.
    + apply store_in_file_frame in Hfile as [_ Hmf]. left. f_equal.
      rewrite <- Hload. apply load_meta_or_empty_same; [|done..].
      by apply file_entry_same, Hmf.
Qed.

(** X13. After a store that returned [True], for a token that is not empty,
    the locator reports [keyring] when the keyring is there and works, and
    [encrypted_file] when it is absent or refuses its calls. *)
Theorem store_then_location (p : platform) (token : pystr)
    (user_email : option pystr) (w w' : world) :
  nonempty token = true →
  store_token_for_user p (JStr token) user_email w = (w', Ok true) →
  token_storage_location_for_user p user_email w'
  = Ok (match keyring w with
        | Some kr => if kr_works kr then py "keyring" else py "encrypted_file"
        | None => py "encrypted_file"
        end).
Proof.
  intros Hne Hs.
  apply store_token_for_user_inv in Hs as (w0 & w1 & b & Hsp & Hw0 & Hb).
  pose proof Hsp as (He1 & _ & Hf1 & Hk1 & _).
  assert (∀ kr, keyring w = Some kr → kr_works kr = true →
            w0 = with_password p (email_key_of user_email) token kr w →
            ∀ w2, same_process w1 w2 →
            token_storage_location_for_user p user_email w2 = Ok (py "keyring"))
    as Hfromkr.
  { intros kr Hkr Hw -> w2 (_ & _ & _ & Hk2 & _).
    unfold token_storage_location_for_user.
    erewrite keyring_token_password;
      [by rewrite Hne| by rewrite Hk2, Hk1|done|cbn; by rewrite lookup_insert_eq]. }
  destruct b.
  - destruct Hb as (-> & _ & _).
    destruct Hw0 as [(_ & ? & _)|(kr & Hkr & Hw & Hw0)]; [done|].
    rewrite Hkr, Hw. eapply Hfromkr; [done..|apply same_process_refl].
  - destruct Hb as [Hmf Hfile].
    apply store_in_file_ok in Hfile
      as (skey & kb & f & tb & m & Hfi & Hkey & Hsk & Hkb & Hf & Htb & Hsp' & He & Hm & _).
    destruct Hw0 as [(-> & _ & Hkr)|(kr & Hkr & Hw & Hw0)];
      [|rewrite Hkr, Hw; by eapply Hfromkr].
    pose proof Hsp' as (He2 & _ & Hf2 & Hk2 & _).
    assert (match keyring w with
            | Some kr => if kr_works kr then py "keyring" else py "encrypted_file"
            | None => py "encrypted_file"
            end = py "encrypted_file") as ->.
    { destruct Hkr as [->|(kr & -> & ->)]; done. }
    unfold token_storage_location_for_user.
    rewrite keyring_token_none by (by rewrite Hk2, Hk1).
    rewrite loaded_tokens_ok by (intros j; rewrite He; intros [= <-]; eauto).
    rewrite (entry_field_entry _ _ _ _ He), Hm.
    cbn [default from_option id mbind res_bind json_get truthy].
    rewrite bool_decide_false by (apply insert_non_empty).
    cbn [negb]. rewrite lookup_insert_eq.
    cbn [default from_option id mbind res_bind truthy].
    unfold latin1_decode. by rewrite fernet_token_nonempty.
Qed.

(** What a legacy migration that returns [True] has done. *)
Lemma legacy_migrate_success w w' :
  migrate_file_token_to_keyring w = (w', Ok true) →
  ∃ kr mm token,
    keyring w = Some kr ∧ kr_works kr = true
    ∧ load_meta_or_empty w Meta = JObj mm
    ∧ is_Some (mm !! py "access_token_encrypted")
    ∧ nonempty token = true
    ∧ save_meta (py "meta") (JObj (delete (py "access_token_encrypted") mm))
        (set_keyring
           (Some {| kr_entries := <[(service, py "meta_access_token") := token]>
                                    (kr_entries kr);
                    kr_works := true |}) w) = (w', Ok tt).
Proof.
  intros Hs. unfold migrate_file_token_to_keyring in Hs.
  apply bind_ok in Hs as (w0 & kr & Hg & Hs). unfold gets in Hg.
  injection Hg as <- <-.
  destruct (can_use_keyring w); [|by unfold ret in Hs]. cbn [negb] in Hs.
  apply bind_ok in Hs as (w0 & m & Hg & Hs). unfold gets in Hg.
  injection Hg as <- <-.
  apply bind_ok in Hs as (w0 & enc & Henc & Hs). unfold lift in Henc.
  injection Henc as <- Henc.
  destruct (truthy enc) eqn:Htr; [|by unfold ret in Hs]. cbn [negb] in Hs.
  unfold catch in Hs.
  match type of Hs with
  | match ?body w with _ => _ end = _ =>
      destruct (body w) as [w2 [b|e]] eqn:Hbody; [|by unfold ret in Hs]
  end.
  injection Hs as -> ->.
  apply bind_ok in Hbody as (w0 & token & Hdec & Hbody). unfold reads in Hdec.
  injection Hdec as <- Hdec.
  destruct token as [token|]; [|by unfold ret in Hbody].
  destruct (nonempty token) eqn:Hne; [|by unfold ret in Hbody].
  cbn [negb] in Hbody.
  apply bind_ok in Hbody as (w0 & [] & Hset & Hbody).
  apply keyring_set_password_spec in Hset
    as [(_ & ? & _)|(kr & Hkr & Hw & _ & ->)]; [done|].
  apply bind_ok in Hbody as (w2 & [] & Hsave & Hbody).
  unfold ret in Hbody. injection Hbody as <-.
  destruct (load_meta_or_empty w Meta) as [| | | | |mm] eqn:Hload; try done.
  cbn [json_get] in Henc. injection Henc as <-.
  destruct (mm !! py "access_token_encrypted") as [enc|] eqn:Hlook; [|done].
  cbn [json_delitem] in Hsave. rewrite Hlook in Hsave.
  exists kr, mm, token. split_and!; done.
Qed.

Lemma keyring_username_not_legacy q key :
  keyring_username q key ≠ py "meta_access_token".
Proof.
  unfold keyring_username. destruct q; intros Heq; vm_compute in Heq;
    discriminate Heq.
Qed.

(** X14. The legacy migration of the Meta connector does not move a token:
    when it returns [True], the field [access_token_encrypted] of the file
    is as it was (the merge of [save_meta] keeps it), the token map is as it
    was, and what the getter and the locator return is as it was, for every
    platform and user: the keyring entry it wrote is one they do not read. *)
Theorem legacy_migration_moves_nothing (w w' : world) (q : platform)
    (user_email : option pystr) :
  migrate_file_token_to_keyring w = (w', Ok true) →
  entry_field w' Meta (py "access_token_encrypted")
  = entry_field w Meta (py "access_token_encrypted")
  ∧ is_Some (entry_field w Meta (py "access_token_encrypted"))
  ∧ file_tokens w' Meta = file_tokens w Meta
  ∧ get_token_for_user q user_email w' = get_token_for_user q user_email w
  ∧ token_storage_location_for_user q user_email w'
    = token_storage_location_for_user q user_email w.
Proof.
  intros Hs.
  apply legacy_migrate_success in Hs
    as (kr & mm & token & Hkr & Hw & Hload & Hleg & Hne & Hsave).
  set (w0 := set_keyring _ w) in Hsave.
  change (py "meta") with (plat_key Meta) in Hsave.
  pose proof (save_meta_frame _ _ _ _ _ Hsave) as [(He & _ & Hf & Hk & _) _].
  pose proof (save_meta_was_dict _ _ _ _ Hsave) as Hwas.
  pose proof (save_meta_others _ _ _ _ Hsave) as Hoth.
  apply saved_fields in Hsave as (_ & m0 & Hm0 & Hfields).
  assert (∀ k, k ≠ py "client_secret" → k ≠ py "client_secret_enc" →
            entry_field w' Meta k = entry_field w Meta k) as Hsame.
  { intros k Hk1 Hk2. rewrite (entry_field_entry _ _ _ _ Hm0), Hfields by done.
    change (entry_field w0 Meta k) with (entry_field w Meta k).
    destruct (decide (k = py "access_token_encrypted")) as [->|Hk3].
    - by rewrite lookup_delete_eq.
    - rewrite lookup_delete_ne by done.
      rewrite (loaded_fields _ _ _ Hload) by done. by destruct (entry_field w Meta k). }
  assert (get_token_for_user q user_email w' = get_token_for_user q user_email w
          ∧ token_storage_location_for_user q user_email w'
            = token_storage_location_for_user q user_email w) as [Hget Hloc].
  { apply vault_reads_agree; [done|done| |].
    - rewrite (keyring_token_same w0 w') by done.
      unfold keyring_token, can_use_keyring, keyring_get_password. cbn.
      rewrite Hkr, Hw, !bool_decide_true by eauto.
      rewrite lookup_insert_ne; [done|].
      intros [= Heq]. symmetry in Heq. by apply keyring_username_not_legacy in Heq.
    - left. assert (q = Meta ∨ q ≠ Meta) as [->|Hq] by (destruct q; auto).
      + rewrite !loaded_tokens_ok; [by rewrite Hsame|done|].
        intros j. rewrite Hm0. intros [= <-]. eauto.
      + f_equal. apply load_meta_or_empty_same; [|done..].
        rewrite Hoth; [done|]. intros Hpq. by apply (plat_key_inj q Meta) in Hpq. }
  split_and!; [by apply Hsame| |unfold file_tokens; by rewrite Hsame|done..].
  by rewrite <- (loaded_fields _ _ _ Hload).
Qed.

(** ** The spend fetch, every platform *)

Lemma set_entropy_id w : set_entropy (entropy w) w = w.
Proof. by destruct w. Qed.

(** [save_meta] writes the metadata file and draws on the entropy; the rest
    of the world is as it was. *)
Lemma encrypt_token_world token w w' r :
  encrypt_token token w = (w', r) → ∃ e, w' = set_entropy e w.
Proof.
  unfold encrypt_token. intros He.
  assert (w' = w ∨ w' = set_entropy (entropy w + 1) w) as [->| ->].
  { repeat case_match; simplify_eq; auto. }
  - exists (entropy w). by rewrite set_entropy_id.
  - eauto.
Qed.

Lemma seal_client_secret_world meta w w' r :
  seal_client_secret meta w = (w', r) → ∃ e, w' = set_entropy e w.
Proof.
  unfold seal_client_secret. intros Hs.
  assert (∃ e, w = set_entropy e w) as Hid
    by (exists (entropy w); by rewrite set_entropy_id).
  destruct (meta !! py "client_secret"); [|by simplify_eq].
  destruct (can_encrypt w); [|by simplify_eq].
  destruct (encrypt_token _ w) as [w1 r1] eqn:He.
  apply encrypt_token_world in He as [e ->].
  exists e. repeat case_match; by simplify_eq.
Qed.

Lemma save_meta_world plat meta w w' r :
  save_meta plat meta w = (w', r) →
  ∃ e, w' = set_entropy e w ∨ ∃ mf, w' = set_meta_file mf (set_entropy e w).
Proof.
  unfold save_meta. destruct meta as [| | | | |meta];
    try (intros [= <- <-]; exists (entropy w); left; by rewrite set_entropy_id).
  unfold bind at 1, gets. unfold bind at 1.
  destruct (seal_client_secret meta w) as [w1 r1] eqn:Hs.
  apply seal_client_secret_world in Hs as [e ->]. intros Hx. exists e. revert Hx.
  destruct r1 as [meta1|]; [|intros [= <- <-]; by left].
  unfold bind, lift, modify.
  repeat case_match; intros [= <- <-]; eauto.
Qed.

Lemma update_last_sync_world p w w' r :
  update_last_sync p w = (w', r) →
  ∃ e, w' = set_entropy e w ∨ ∃ mf, w' = set_meta_file mf (set_entropy e w).
Proof.
  unfold update_last_sync. unfold bind at 1, gets. unfold bind at 1.
  unfold bind at 1, lift.
  destruct (json_setitem _ _ _) as [m|];
    [|intros [= <- <-]; exists (entropy w); left; by rewrite set_entropy_id].
  apply save_meta_world.
Qed.



Lemma same_process_field w w' :
  (∃ e, w' = set_entropy e w ∨ ∃ mf, w' = set_meta_file mf (set_entropy e w)) →
  same_process w w' ∧ spend_csv w' = spend_csv w ∧ log w' = log w.
Proof. intros [e [->|[mf ->]]]; by repeat split. Qed.

(** Saving metadata changes what neither the getter nor the locator
    returns, unless the token map is among the metadata saved. *)
Lemma save_meta_reads p meta w w' r :
  save_meta (plat_key p) (JObj meta) w = (w', r) →
  meta !! py "tokens" = entry_field w p (py "tokens") →
  ∀ q u, get_token_for_user q u w' = get_token_for_user q u w
         ∧ token_storage_location_for_user q u w'
           = token_storage_location_for_user q u w.
Proof.
  intros Hs Htok q u.
  pose proof (save_meta_frame _ _ _ _ _ Hs) as [(He & _ & Hf & Hk & _) Hraise].
  apply vault_reads_agree; [done|done|by apply keyring_token_same|]. left.
  destruct r as [[]|e].
  2: { f_equal. apply load_meta_or_empty_same; [|done..].
       by apply file_entry_same, Hraise. }
  assert (q = p ∨ q ≠ p) as [->|Hq] by (destruct p, q; auto).
  - pose proof (save_meta_was_dict _ _ _ _ Hs) as Hwas.
    apply saved_fields in Hs as (_ & m0 & Hm0 & Hfields).
    rewrite !loaded_tokens_ok; [|done|intros j; rewrite Hm0; intros [= <-]; eauto].
    rewrite (entry_field_entry _ _ _ _ Hm0), Hfields, Htok by done.
    by destruct (entry_field w p (py "tokens")).
  - f_equal. apply load_meta_or_empty_same; [|done..].
    eapply save_meta_others; [exact Hs|]. intros Hpq. by apply plat_key_inj in Hpq.
Qed.

Lemma update_last_sync_reads p w w' r :
  update_last_sync p w = (w', r) →
  ∀ q u, get_token_for_user q u w' = get_token_for_user q u w
         ∧ token_storage_location_for_user q u w'
           = token_storage_location_for_user q u w.
Proof.
  unfold update_last_sync. intros Hu.
  unfold bind at 1, gets in Hu. unfold bind at 1 in Hu. unfold bind at 1, lift in Hu.
  destruct (load_meta_or_empty w p) as [| | | | |mm] eqn:Hload;
    try (cbn in Hu; injection Hu as <- <-; done).
  cbn [json_setitem] in Hu.
  eapply save_meta_reads; [exact Hu|].
  rewrite lookup_insert_ne by done. by apply loaded_fields.
Qed.

Lemma reads_of_same_files w w' :
  environ w' = environ w → fernet_imported w' = fernet_imported w →
  keyring w' = keyring w → meta_file w' = meta_file w →
  ∀ q u, get_token_for_user q u w' = get_token_for_user q u w
         ∧ token_storage_location_for_user q u w'
           = token_storage_location_for_user q u w.
Proof.
  intros He Hf Hk Hm q u.
  apply vault_reads_agree; [done|done|by apply keyring_token_same|]. left.
  f_equal. apply load_meta_or_empty_same; [|done..]. by apply file_entry_same.
Qed.

Lemma write_spend_csv_reads p df note w w' r :
  write_spend_csv p df note w = (w', r) →
  same_process w w'
  ∧ ∀ q u, get_token_for_user q u w' = get_token_for_user q u w
           ∧ token_storage_location_for_user q u w'
             = token_storage_location_for_user q u w.
Proof.
  unfold write_spend_csv, catch. unfold bind at 1, modify. unfold bind at 1.
  match goal with
  | |- context [update_last_sync p ?w0] =>
      destruct (update_last_sync p w0) as [w2 r2] eqn:Hu
  end.
  pose proof (update_last_sync_reads _ _ _ _ Hu) as Hreads.
  apply update_last_sync_world, same_process_field in Hu as (Hsp & _).
  assert (same_process w w2) as Hsp2.
  { eapply same_process_trans; [|exact Hsp]. by repeat split. }
  assert (∀ q u, get_token_for_user q u w2 = get_token_for_user q u w
                 ∧ token_storage_location_for_user q u w2
                   = token_storage_location_for_user q u w) as Hreads2.
  { intros q u. destruct (Hreads q u) as [-> ->]. by apply reads_of_same_files. }
  destruct r2 as [[]|e]; [|unfold ret; by intros [= <- <-]].
  destruct note as [n|].
  - unfold bind, log_info, log_record, modify. intros [= <- <-]. split.
    + eapply same_process_trans; [exact Hsp2|apply same_process_log].
    + intros q u. destruct (Hreads2 q u) as [<- <-]. by apply reads_of_same_files.
  - unfold bind, ret. by intros [= <- <-].
Qed.

(** Fetching spend leaves the reads of the vault alone. *)
Lemma fetch_spend_reads (p q : platform) (access_token : json)
    (user_email other_email : option pystr) (write_to_csv : bool)
    (w w' : world) (r : res frame) :
  fetch_spend_and_persist p access_token user_email write_to_csv w = (w', r) →
  get_token_for_user q other_email w' = get_token_for_user q other_email w
  ∧ token_storage_location_for_user q other_email w'
    = token_storage_location_for_user q other_email w
  ∧ same_process w w'.
Proof.
  unfold fetch_spend_and_persist. unfold bind at 1, reads.
  destruct (resolve_token _ _ _ w) as [tok|];
    [|intros [= <- <-]; split_and!; [done..|apply same_process_refl]].
  unfold bind at 1.
  destruct (resolve_ad_account _ _ w) as [acct|];
    [|intros [= <- <-]; split_and!; [done..|apply same_process_refl]].
  unfold bind at 1, gets.
  match goal with |- context [nonempty ?rows] => destruct (nonempty rows) end.
  - unfold bind at 1. destruct write_to_csv.
    + match goal with
      | |- context [write_spend_csv ?a ?b ?c w] =>
          destruct (write_spend_csv a b c w) as [w1 r1] eqn:Hw
      end.
      apply write_spend_csv_reads in Hw as [Hsp Hreads].
      destruct (Hreads q other_email) as [Hg Hl].
      destruct r1 as [[]|e]; unfold ret; by intros [= <- <-].
    + unfold ret. intros [= <- <-]. split_and!; [done..|apply same_process_refl].
  - unfold bind at 1, log_info, log_record, modify. unfold bind at 1.
    destruct write_to_csv.
    + match goal with
      | |- context [write_spend_csv ?a ?b ?c ?w0] =>
          destruct (write_spend_csv a b c w0) as [w1 r1] eqn:Hw
      end.
      apply write_spend_csv_reads in Hw as [Hsp Hreads].
      destruct (Hreads q other_email) as [Hg Hl].
      assert (same_process w w1)
        by (eapply same_process_trans; [apply same_process_log|exact Hsp]).
      destruct r1 as [[]|e]; unfold ret; intros [= <- <-];
        (split_and!; [| |done]);
        first [rewrite Hg|rewrite Hl]; by apply reads_of_same_files.
    + unfold ret. intros [= <- <-].
      split_and!; [by apply reads_of_same_files..|apply same_process_log].
Qed.

(** X16. Fetching spend, live or synthetic, written or not, changes what
    neither the getter nor the locator returns, for any platform and user;
    the keyring and the configuration of the process are as they were. *)
Theorem fetch_keeps_vault (p q : platform) (access_token : json)
    (user_email other_email : option pystr) (write_to_csv : bool)
    (w w' : world) (r : res frame) :
  fetch_spend_and_persist p access_token user_email write_to_csv w = (w', r) →
  get_token_for_user q other_email w' = get_token_for_user q other_email w
  ∧ token_storage_location_for_user q other_email w'
    = token_storage_location_for_user q other_email w
  ∧ same_process w w'.
Proof. intros Hf. by eapply fetch_spend_reads. Qed.


(** ** The callback, end to end *)

(** A token that is not empty, once stored, is what the getter returns. *)
Lemma stored_token_is_read (p : platform) (token : pystr)
    (user_email : option pystr) (w w' : world) :
  nonempty token = true →
  store_token_for_user p (JStr token) user_email w = (w', Ok true) →
  get_token_for_user p user_email w' = Ok (Some token).
Proof.
  intros Hne Hs.
  apply store_token_for_user_inv in Hs as (w0 & w1 & b & Hsp & Hw0 & Hb).
  pose proof Hsp as (He1 & _ & Hf1 & Hk1 & _).
  assert (∀ kr, keyring w = Some kr → kr_works kr = true →
            w0 = with_password p (email_key_of user_email) token kr w →
            ∀ w2, same_process w1 w2 →
            get_token_for_user p user_email w2 = Ok (Some token)) as Hfromkr.
  { intros kr Hkr Hw -> w2 (_ & _ & _ & Hk2 & _). unfold get_token_for_user.
    erewrite keyring_token_password;
      [by rewrite Hne| by rewrite Hk2, Hk1|done|cbn; by rewrite lookup_insert_eq]. }
  destruct b.
  - destruct Hb as (-> & _ & _).
    destruct Hw0 as [(_ & ? & _)|(kr & Hkr & Hw & Hw0)]; [done|].
    eapply Hfromkr; [done..|apply same_process_refl].
  - destruct Hb as [Hmf Hfile].
    apply store_in_file_ok in Hfile
      as (skey & kb & f & tb & m & Hfi & Hkey & Hsk & Hkb & Hf & Htb & Hsp' & He & Hm & _).
    destruct Hw0 as [(-> & _ & Hkr)|(kr & Hkr & Hw & Hw0)];
      [|by eapply Hfromkr].
    pose proof Hsp' as (He2 & _ & Hf2 & Hk2 & _).
    erewrite get_token_from_file;
      [|apply keyring_token_none; by rewrite Hk2, Hk1|exact He|exact Hm
       |apply lookup_insert_eq|apply fernet_token_nonempty|apply fernet_token_bytes].
    erewrite decrypt_encrypt; [done|by rewrite Hf2| |done..].
    unfold env_get in *. by rewrite He2.
Qed.

Lemma store_token_for_user_process p token user w w' r :
  store_token_for_user p (JStr token) user w = (w', r) →
  environ w' = environ w ∧ fernet_imported w' = fernet_imported w
  ∧ fastapi_available w' = fastapi_available w
  ∧ fastapi_imported w' = fastapi_imported w.
Proof.
  intros Hs. apply store_token_for_user_stages in Hs as (w1 & b & Hring & Hfile).
  assert (environ w1 = environ w ∧ fernet_imported w1 = fernet_imported w
          ∧ fastapi_available w1 = fastapi_available w
          ∧ fastapi_imported w1 = fastapi_imported w) as (? & ? & ? & ?).
  { destruct Hring as [(_ & -> & _)|Hring]; [done|].
    apply store_in_keyring_spec in Hring as (b' & w0 & _ & Hsp & _ & _ & Hw0).
    destruct Hsp as (? & _ & ? & _ & ? & ? & _).
    destruct Hw0 as [(-> & _)|(kr & _ & _ & ->)]; split_and!; by etrans. }
  destruct b; [by destruct Hfile as [-> _]|].
  apply store_in_file_frame in Hfile as [(? & _ & ? & _ & ? & ? & _) _].
  split_and!; by etrans.
Qed.

Lemma sync_rows_reads p tok user w w' r :
  sync_rows p tok user w = (w', r) →
  (∃ rows, r = Ok rows)
  ∧ same_process w w'
  ∧ ∀ q u, get_token_for_user q u w' = get_token_for_user q u w.
Proof.
  unfold sync_rows, catch. unfold bind.
  destruct (fetch_spend_and_persist p tok user true w) as [w1 r1] eqn:Hf.
  pose proof (λ q u, fetch_spend_reads p q _ _ u _ _ _ _ Hf) as Hreads.
  assert (same_process w w1) as Hsp by (by destruct (Hreads p None) as (_ & _ & ?)).
  assert (∀ q u, get_token_for_user q u w1 = get_token_for_user q u w) as Hget.
  { intros q u. by destruct (Hreads q u) as (? & _). }
  destruct r1 as [df|e]; unfold ret; intros [= <- <-]; eauto.
Qed.

Lemma store_for_process p tok user w w' r :
  store_for p (JStr tok) user w = (w', r) →
  fastapi_available w' = fastapi_available w
  ∧ fastapi_imported w' = fastapi_imported w.
Proof.
  unfold store_for. intros Hs.
  destruct (opt_truthy user);
    by apply store_token_for_user_process in Hs as (_ & _ & ? & ?).
Qed.

(** The [try] block that stores and syncs: it always completes, and when
    it reports the token stored, the connector of the platform has stored
    it and the sync has not changed what the vault returns. *)
Lemma store_and_sync_spec plat tok user w :
  ∃ w2 stored rows,
    store_and_sync plat (JStr tok) user w = (w2, Ok (stored, rows))
    ∧ fastapi_available w2 = fastapi_available w
    ∧ fastapi_imported w2 = fastapi_imported w
    ∧ (stored = true →
       ∃ w3, store_for (connector_for plat) (JStr tok) user w = (w3, Ok true)
             ∧ ∀ q u, get_token_for_user q u w2 = get_token_for_user q u w3).
Proof.
  assert (∀ p, ∃ w2 stored rows,
            catch (let* stored_ok := store_for p (JStr tok) user in
                   let* rows := sync_rows p (JStr tok) user in
                   ret (stored_ok, rows)) (ret (false, None)) w
            = (w2, Ok (stored, rows))
            ∧ fastapi_available w2 = fastapi_available w
            ∧ fastapi_imported w2 = fastapi_imported w
            ∧ (stored = true →
               ∃ w3, store_for p (JStr tok) user w = (w3, Ok true)
                     ∧ ∀ q u, get_token_for_user q u w2 = get_token_for_user q u w3))
    as Hknown.
  { intros p. unfold catch. unfold bind at 1.
    destruct (store_for p (JStr tok) user w) as [w3 r3] eqn:Hstore.
    destruct (store_for_process _ _ _ _ _ _ Hstore) as [Ha Hi].
    destruct r3 as [stored|e]; [|unfold ret; by eexists _, false, None].
    unfold bind at 1.
    destruct (sync_rows p (JStr tok) user w3) as [w2 r2] eqn:Hsync.
    apply sync_rows_reads in Hsync as ([rows ->] & Hsp & Hget).
    destruct Hsp as (_ & _ & _ & _ & Hi2 & Ha2 & _).
    unfold ret. exists w2, stored, rows. split_and!; [done|congruence..|].
    intros ->. eauto. }
  unfold store_and_sync, connector_for.
  destruct (one_of plat ["meta"; "facebook"]); [apply Hknown|].
  destruct (one_of plat ["google"; "google_ads"]).
  { unfold catch at 1. unfold bind at 1, gets.
    destruct (google_connector_imported w); cbn [negb];
      [apply Hknown|unfold ret; by eexists _, false, None]. }
  destruct (one_of plat ["tiktok"]).
  { unfold catch at 1. unfold bind at 1, gets.
    destruct (tiktok_connector_imported w); cbn [negb];
      [apply Hknown|unfold ret; by eexists _, false, None]. }
  unfold catch. unfold bind.
  destruct (store_for Meta (JStr tok) user w) as [w3 r3] eqn:Hstore.
  destruct (store_for_process _ _ _ _ _ _ Hstore) as [Ha Hi].
  destruct r3 as [stored|e]; unfold ret.
  - exists w3, stored, None. split_and!; [done..|]. intros ->. eauto.
  - by exists w3, false, None.
Qed.

Lemma resolve_state_user w state user :
  state_stands_for w state user → resolve_state state w = (w, Ok (inr user)).
Proof.
  intros [[Hs ->]|(st & -> & Hne & Hst)]; unfold resolve_state.
  { destruct state as [st|]; [|done]. cbn in Hs. by rewrite Hs. }
  rewrite Hne. unfold catch, bind, reads.
  destruct Hst as [[Hv Hu]|(Hat & -> & Hv)].
  - rewrite Hv, Hu. done.
  - unfold state_fallback. rewrite Hat.
    destruct (verify_state_token w st 600) as [[e|]|]; [|done..].
    by rewrite (Hv e eq_refl).
Qed.

Lemma obtain_token_given plat code tok w :
  nonempty tok = true →
  obtain_token plat code (Some tok) w = (w, Ok (inr (JStr tok))).
Proof.
  intros Hne. unfold obtain_token, opt_truthy.
  cbn [env_truthy default from_option id]. rewrite Hne.
  cbn [truthy]. by rewrite Hne.
Qed.

Lemma get_token_for_user_key p u u' w :
  email_key_of u' = email_key_of u →
  get_token_for_user p u' w = get_token_for_user p u w.
Proof. unfold get_token_for_user. by intros ->. Qed.

(** X17. The callback is handed a token (not empty) and ends without an
    error: then the token is stored, and the getter of the platform's
    connector returns it for the user the state stands for (the default
    user without a state), the first sync having run in between. *)
Theorem callback_stored_token_is_read (platform code error state user : option pystr)
    (tok : pystr) (w w' : world) (resp : response) :
  opt_truthy error = false →
  nonempty tok = true →
  state_stands_for w state user →
  _callback_core platform code (Some tok) error state w = (w', Ok resp) →
  is_error_outcome (Ok resp) = false →
  get_token_for_user (connector_for (py_lower (default [] platform))) user w'
  = Ok (Some tok).
Proof.
  intros Herr Hne Hstate Hcore Hok.
  unfold _callback_core in Hcore. rewrite Herr in Hcore.
  unfold bind at 1 in Hcore. rewrite (obtain_token_given _ _ _ _ Hne) in Hcore.
  cbn [truthy] in Hcore. rewrite Hne in Hcore. cbn [negb] in Hcore.
  unfold bind at 1 in Hcore. rewrite (resolve_state_user _ _ _ Hstate) in Hcore.
  unfold persist_and_report in Hcore. unfold bind at 1 in Hcore.
  destruct (store_and_sync_spec (py_lower (default [] platform)) tok user w)
    as (w2 & stored & rows & Hss & _ & _ & Hstored).
  rewrite Hss in Hcore. cbn [fst snd] in Hcore.
  destruct stored; cbn [negb] in Hcore.
  2: { exfalso. unfold bind, log_error, log_record, modify, pair_or_html,
         html_response in Hcore.
       repeat case_match; simplify_eq; done. }
  destruct (Hstored eq_refl) as (w3 & Hstore & Hget).
  assert (w' = w2) as ->.
  { unfold bind, gets, ret, html_response in Hcore.
    repeat case_match; by simplify_eq. }
  rewrite Hget. unfold store_for in Hstore.
  destruct (opt_truthy user) eqn:Hu.
  - by eapply stored_token_is_read.
  - rewrite (get_token_for_user_key _ None user).
    + by eapply stored_token_is_read.
    + destruct user as [[|]|]; try done.
Qed.

(** X18. [simulate_callback] returns a plain string, and puts the module
    flag back, whenever it is handed an error, or a token (not empty)
    together with no state, a state that verifies, or a state holding an
    [@]: it then neither raises nor returns a tuple or an [HTMLResponse]. *)
Theorem simulate_callback_returns_text (platform code error state user : option pystr)
    (tok : pystr) (w : world) :
  opt_truthy error = true
  ∨ (nonempty tok = true ∧ state_stands_for w state user) →
  ∃ w' msg,
    simulate_callback platform code (Some tok) error state w = (w', Ok (Text msg))
    ∧ fastapi_available w' = fastapi_available w.
Proof.
  intros Hcase. unfold simulate_callback.
  set (wf := set_fastapi_available false w).
  assert (∃ w1 r, _callback_core platform code (Some tok) error state wf = (w1, Ok r)
                  ∧ ∃ msg, r = Text msg ∨ ∃ status, r = Pair msg status)
    as (w1 & r & -> & msg & Hr).
  { unfold _callback_core.
    destruct (opt_truthy error) eqn:Herr.
    { unfold pair_or_html. cbn. eauto 8. }
    destruct Hcase as [?|[Hne Hstate]]; [done|].
    unfold bind at 1. rewrite (obtain_token_given _ _ _ _ Hne).
    cbn [truthy]. rewrite Hne. cbn [negb].
    unfold bind at 1.
    assert (state_stands_for wf state user) as Hstate' by exact Hstate.
    rewrite (resolve_state_user _ _ _ Hstate').
    unfold persist_and_report. unfold bind at 1.
    destruct (store_and_sync_spec (py_lower (default [] platform)) tok user wf)
      as (w2 & stored & rows & -> & Ha & _ & _).
    cbn [fst snd]. change (fastapi_available wf) with false in Ha.
    destruct stored; cbn [negb].
    - unfold bind, gets, ret. rewrite Ha. cbn [negb]. eauto 8.
    - unfold bind, log_error, log_record, modify, pair_or_html. cbn.
      rewrite Ha. cbn [negb]. eauto 8. }
  exists (set_fastapi_available (fastapi_available w) w1), msg. split; [|done].
  destruct Hr as [->|[status ->]]; done.
Qed.

(** X19. Without a token the callback exchanges a code for Meta only: with
    no code at all, or with a code for any other platform, it ends in an
    error (status 400, or the exception raised for lack of [HTMLResponse])
    and changes nothing. *)
Theorem tokenless_callback_fails (platform code token error state : option pystr)
    (w : world) :
  opt_truthy error = false →
  opt_truthy token = false →
  opt_truthy code = false
  ∨ one_of (py_lower (default [] platform)) ["meta"; "facebook"] = false →
  ∃ r, _callback_core platform code token error state w = (w, r)
       ∧ is_error_outcome r = true.
Proof.
  intros Herr Htok Hcase. unfold _callback_core. rewrite Herr.
  unfold bind at 1, obtain_token. unfold opt_truthy in *. rewrite Htok.
  cbn [truthy negb andb].
  destruct (env_truthy code) eqn:Hcode.
  - destruct Hcase as [?|Hmeta]; [done|]. rewrite Hmeta.
    unfold bind, ret, html_response.
    repeat case_match; simplify_eq; eexists; (split; [done|]); done.
  - unfold ret. cbn [truthy negb]. unfold pair_or_html, html_response.
    repeat case_match; simplify_eq; eexists; (split; [done|]); done.
Qed.

(** ** The broker *)

Lemma broker_encrypt_token_world token w w' r :
  broker_encrypt_token token w = (w', r) → ∃ e, w' = set_entropy e w.
Proof.
  unfold broker_encrypt_token. intros He.
  assert (w' = w ∨ w' = set_entropy (entropy w + 1) w) as [->| ->].
  { repeat case_match; simplify_eq; auto. }
  - exists (entropy w). by rewrite set_entropy_id.
  - eauto.
Qed.

(** The record of a platform in [tokens.json]. *)
Lemma record_tokens_spec plat td w w' r :
  record_tokens plat td w = (w', r) →
  match r with
  | Ok resp =>
      ∃ tf acc ref,
        default (JObj ∅) (tokens_file w) = JObj tf
        ∧ resp = {| ok := true; access_token := Some acc;
                    refresh_token := Some ref; error := None |}
        ∧ tokens_file w'
          = Some (JObj (<[plat := JObj (list_to_map
                                          [(py "access_token", JStr acc);
                                           (py "refresh_token", JStr ref);
                                           (py "timestamp", JStr (now_iso w))])]> tf))
  | Raise _ => tokens_file w' = tokens_file w
  end.
Proof.
  unfold record_tokens. unfold bind at 1, lift.
  destruct (json_get td _ _) as [access|]; [|by intros [= <- <-]].
  unfold bind at 1.
  destruct (json_get td _ _) as [refresh|]; [|by intros [= <- <-]].
  unfold bind at 1.
  destruct (broker_encrypt_token access w) as [w1 r1] eqn:He1.
  apply broker_encrypt_token_world in He1 as [e1 ->].
  destruct r1 as [acc|]; [|by intros [= <- <-]].
  unfold bind at 1.
  assert (∃ e2 r2, (if truthy refresh then broker_encrypt_token refresh else ret [])
                     (set_entropy e1 w) = (set_entropy e2 w, r2)) as (e2 & r2 & ->).
  { destruct (truthy refresh); [|unfold ret; eauto].
    destruct (broker_encrypt_token refresh (set_entropy e1 w)) as [w2 r2] eqn:He2.
    apply broker_encrypt_token_world in He2 as [e2 ->]. eauto. }
  destruct r2 as [ref|]; [|by intros [= <- <-]].
  unfold bind at 1, gets. unfold bind at 1. unfold bind at 1.
  change (tokens_file (set_entropy e2 w)) with (tokens_file w).
  destruct (default (JObj ∅) (tokens_file w)) as [| | | | |tf] eqn:Htf;
    try by intros [= <- <-].
  cbn [json_setitem]. unfold bind, modify, ret. intros [= <- <-].
  exists tf, acc, ref. done.
Qed.

(** X20. [exchange_oauth_code] always returns a response; it changes
    [tokens.json] only when the response says [ok], and then the record of
    the platform (its name in lower case) holds the encrypted tokens that
    the response carries, the other records being kept. *)
Theorem exchange_records_or_leaves (request : OAuthCodeRequest) (w : world) :
  ∃ w' resp,
    exchange_oauth_code request w = (w', Ok resp)
    ∧ if ok resp
      then ∃ plat tf acc ref,
             default (JObj ∅) (tokens_file w) = JObj tf
             ∧ access_token resp = Some acc ∧ refresh_token resp = Some ref
             ∧ tokens_file w'
               = Some (JObj (<[plat := JObj (list_to_map
                                               [(py "access_token", JStr acc);
                                                (py "refresh_token", JStr ref);
                                                (py "timestamp", JStr (now_iso w))])]> tf))
             ∧ plat = py_lower (if opt_truthy (req_platform request)
                                then default [] (req_platform request)
                                else py "google")
      else tokens_file w' = tokens_file w.
Proof.
  unfold exchange_oauth_code, catch_as.
  set (plat := py_lower _).
  assert (∀ td, ∃ w' resp,
            match record_tokens plat td w with
            | (w', Ok a) => (w', Ok a)
            | (w', Raise e) => ret (failure (exn_str e)) w'
            end = (w', Ok resp)
            ∧ if ok resp
              then ∃ plat' tf acc ref,
                     default (JObj ∅) (tokens_file w) = JObj tf
                     ∧ access_token resp = Some acc ∧ refresh_token resp = Some ref
                     ∧ tokens_file w'
                       = Some (JObj (<[plat' := JObj (list_to_map
                                               [(py "access_token", JStr acc);
                                                (py "refresh_token", JStr ref);
                                                (py "timestamp", JStr (now_iso w))])]> tf))
                     ∧ plat' = plat
              else tokens_file w' = tokens_file w) as Hrec.
  { intros td. destruct (record_tokens plat td w) as [w1 r1] eqn:Hr.
    apply record_tokens_spec in Hr. destruct r1 as [resp|e].
    - destruct Hr as (tf & acc & ref & Htf & -> & Hfile).
      eexists w1, _. split; [done|]. cbn [ok]. by exists plat, tf, acc, ref.
    - unfold ret. by eexists w1, _. }
  destruct (one_of plat ["google"; "google_ads"]).
  { unfold exchange_google. unfold bind at 1, gets. unfold bind at 1. unfold bind at 1.
    destruct (_ || _); [unfold ret; by eexists w, _|].
    unfold bind at 1, http_post, reads.
    destruct (http w _) as [response|e]; [|unfold ret; by eexists w, _].
    destruct (negb _); [unfold ret; by eexists w, _|].
    unfold bind at 1, lift.
    destruct (body response) as [td|e]; [|unfold ret; by eexists w, _].
    apply Hrec. }
  destruct (one_of plat ["meta"; "facebook"]).
  { unfold exchange_meta. unfold bind at 1, gets. unfold bind at 1.
    destruct (_ || _); [unfold ret; by eexists w, _|].
    unfold bind at 1. unfold bind at 1, http_get, reads.
    destruct (http w _) as [response|e]; [|unfold ret; by eexists w, _].
    destruct (negb _); [unfold ret; by eexists w, _|].
    unfold bind at 1, lift.
    destruct (body response) as [td|e]; [|unfold ret; by eexists w, _].
    apply Hrec. }
  case_bool_decide as Htik; [|unfold ret; by eexists w, _].
  unfold exchange_tiktok. unfold bind at 1, gets. unfold bind at 1.
  destruct (_ || _); [unfold ret; by eexists w, _|].
  unfold bind at 1, http_post, reads.
  destruct (http w _) as [response|e]; [|unfold ret; by eexists w, _].
  destruct (negb _); [unfold ret; by eexists w, _|].
  unfold bind at 1, lift.
  destruct (body response) as [td|e]; [|unfold ret; by eexists w, _].
  unfold bind at 1.
  destruct (json_get td (py "code") JNull) as [embedded|e];
    [|unfold ret; by eexists w, _].
  destruct (ne_zero embedded).
  { unfold bind at 1.
    destruct (json_get td (py "message") JNull) as [m|e]; unfold ret; by eexists w, _. }
  unfold bind at 1.
  destruct (json_get td (py "data") (JObj ∅)) as [data|e];
    [|unfold ret; by eexists w, _].
  rewrite <- Htik. apply Hrec.
Qed.

(** ** The unpadded base64 of the dashboard *)

Lemma rstrip_replicate c n : rstrip c (replicate n c) = [].
Proof.
  induction n as [|n IH]; [done|]. cbn [replicate rstrip]. rewrite IH.
  by rewrite Z.eqb_refl.
Qed.

Lemma rstrip_app_replicate c data n :
  c ∉ data → rstrip c (data ++ replicate n c) = data.
Proof.
  induction data as [|x data IH]; intros Hc; [apply rstrip_replicate|].
  apply not_elem_of_cons in Hc as [Hx Hc].
  cbn [app rstrip]. rewrite (IH Hc).
  destruct data; [|done]. by rewrite (proj2 (Z.eqb_neq x c)) by done.
Qed.

Lemma b64_char_not_pad v : 0 ≤ v < 64 → b64_char v ≠ b64_pad.
Proof. intros Hv. by destruct (b64_char_range v Hv) as (_ & _ & ?). Qed.

(** The encoder writes data characters, then at most two pads, a multiple
    of four characters in all. *)
Lemma urlsafe_b64encode_shape b :
  forallb is_byte b = true →
  ∃ data npad,
    urlsafe_b64encode b = data ++ replicate npad 61
    ∧ (61 ∉ data) ∧ (npad ≤ 2)%nat
    ∧ (Z.of_nat (length data) + Z.of_nat npad) mod 4 = 0.
Proof.
  induction b as [|x|x y|x y z r IH] using list_ind3; intros Hb;
    cbn [forallb] in Hb; unfold is_byte in Hb; zhyps; cbn [urlsafe_b64encode].
  - exists [], 0%nat. split_and!; [done|apply not_elem_of_nil|lia|done].
  - exists [b64_char (x / 4); b64_char (x mod 4 * 16)], 2%nat.
    split_and!; [done| |lia|done].
    rewrite !not_elem_of_cons. split_and!; [| |apply not_elem_of_nil];
      intros Heq; symmetry in Heq; revert Heq; apply b64_char_not_pad;
      Z.to_euclidean_division_equations; lia.
  - exists [b64_char (x / 4); b64_char (x mod 4 * 16 + y / 16);
            b64_char (y mod 16 * 4)], 1%nat.
    split_and!; [done| |lia|done].
    rewrite !not_elem_of_cons. split_and!; [| | |apply not_elem_of_nil];
      intros Heq; symmetry in Heq; revert Heq; apply b64_char_not_pad;
      Z.to_euclidean_division_equations; lia.
  - destruct (IH ltac:(done)) as (data & npad & -> & Hdata & Hn & Hlen).
    exists (b64_char (x / 4) :: b64_char (x mod 4 * 16 + y / 16)
            :: b64_char (y mod 16 * 4 + z / 64) :: b64_char (z mod 64) :: data), npad.
    split_and!; [done| |done|].
    + rewrite !not_elem_of_cons. split_and!; [| | | |done];
        intros Heq; symmetry in Heq; revert Heq; apply b64_char_not_pad;
        Z.to_euclidean_division_equations; lia.
    + cbn [length]. rewrite !Nat2Z.inj_succ.
      Z.to_euclidean_division_equations; lia.
Qed.

(** X21. The two base64 helpers of the dashboard are inverse to each other
    on bytes: encoding gives a text without [=], and decoding that text
    gives the bytes back. *)
Theorem b64_url_round_trip (b : bytes) :
  forallb is_byte b = true →
  ∃ s, _b64_url_encode b = Ok s ∧ contains 61 s = false
       ∧ _b64_url_decode s = Ok b.
Proof.
  intros Hb.
  destruct (urlsafe_b64encode_shape b Hb) as (data & npad & Henc & Hdata & Hn & Hlen).
  destruct (b64_text_round_trip b Hb) as (Hdec & _ & Hback & _).
  exists data. unfold _b64_url_encode. rewrite Hdec. cbn [mbind res_bind].
  rewrite Henc, rstrip_app_replicate by done. split; [done|].
  split; [by apply bool_decide_false|].
  unfold _b64_url_decode.
  assert (Z.to_nat ((- Z.of_nat (length data)) mod 4) = npad) as ->.
  { apply Nat2Z.inj. rewrite Z2Nat.id by (apply Z.mod_pos_bound; lia).
    Z.to_euclidean_division_equations; lia. }
  rewrite <- Henc.
  destruct (forallb_plain_ascii _ (urlsafe_b64encode_plain b Hb)) as [-> _].
  done.
Qed.

(** ** The client secret in the metadata file *)

(** X22. Saving metadata that hold a client secret, with a cipher key that
    works: the file receives the ciphertext under [client_secret_enc], its
    field [client_secret] is what it was before (the secret is not written
    in clear), and [load_meta] afterwards shows the secret again. *)
Theorem client_secret_sealed (p : platform) (meta : gmap pystr json)
    (secret : pystr) (w w1 w' : world) (ct : bytes) :
  meta !! py "client_secret" = Some (JStr secret) →
  nonempty secret = true →
  encrypt_token (JStr secret) w = (w1, Ok (Some ct)) →
  save_meta (plat_key p) (JObj meta) w = (w', Ok tt) →
  entry_field w' p (py "client_secret") = entry_field w p (py "client_secret")
  ∧ entry_field w' p (py "client_secret_enc") = Some (JStr (latin1_decode ct))
  ∧ decrypt_token w' ct = Ok (Some secret)
  ∧ ∃ m, load_meta w' (plat_key p) = JObj m
         ∧ m !! py "client_secret" = Some (JStr secret).
Proof.
  intros Hsecret Hne Henc Hsave.
  pose proof (encrypt_token_ok _ _ _ _ Henc)
    as (key & kb & f & tb & Hfi & Hkey & Hk & Hkb & Hf & Htb & Hct & Hw1).
  assert (can_encrypt w = true) as Hce.
  { unfold can_encrypt. by rewrite Hfi, Hkey. }
  assert (nonempty ct = true) as Hctne by (rewrite Hct; apply fernet_token_nonempty).
  assert (forallb is_byte ct = true) as Hctb by (rewrite Hct; apply fernet_token_bytes).
  unfold save_meta in Hsave.
  apply bind_ok in Hsave as (w0 & data & Hd & Hsave). unfold gets in Hd.
  injection Hd as <- <-.
  apply bind_ok in Hsave as (w2 & meta1 & Hseal & Hsave).
  unfold seal_client_secret in Hseal. rewrite Hsecret, Hce, Henc, Hctne in Hseal.
  injection Hseal as <- <-.
  apply bind_ok in Hsave as (w3 & ex & Hex & Hsave). unfold lift in Hex.
  injection Hex as <- Hex.
  apply bind_ok in Hsave as (w3 & ex' & Hex' & Hsave). unfold lift in Hex'.
  injection Hex' as <- Hex'.
  apply bind_ok in Hsave as (w3 & data' & Hdata' & Hsave). unfold lift in Hdata'.
  injection Hdata' as <- Hdata'.
  unfold modify in Hsave. injection Hsave as <-.
  destruct (default (JObj ∅) (meta_file w)) as [| | | | |d] eqn:Hd; try done.
  cbn [json_get] in Hex. injection Hex as <-.
  destruct (default (JObj ∅) (d !! plat_key p)) as [| | | | |exm] eqn:Hexm; try done.
  cbn [json_update] in Hex'. injection Hex' as <-.
  cbn [json_setitem] in Hdata'. injection Hdata' as <-.
  set (sealed := delete (py "client_secret")
                   (<[py "client_secret_enc" := JStr (latin1_decode ct)]> meta)).
  set (w' := set_meta_file _ w1).
  assert (file_entry w' (plat_key p) = Some (JObj (sealed ∪ exm))) as He.
  { unfold file_entry, w'. cbn. by rewrite lookup_insert_eq. }
  assert (decrypt_token w' ct = Ok (Some secret)) as Hdec.
  { rewrite Hct. apply (decrypt_encrypt w' key kb f secret tb); try done.
    - unfold w'. by rewrite Hw1.
    - unfold w', env_get. rewrite Hw1. exact Hkey. }
  assert ((sealed ∪ exm) !! py "client_secret_enc" = Some (JStr (latin1_decode ct)))
    as Hcse.
  { apply lookup_union_Some_l. unfold sealed.
    rewrite lookup_delete_ne by done. by rewrite lookup_insert_eq. }
  split_and!.
  - rewrite (entry_field_entry _ _ _ _ He), lookup_union. unfold sealed.
    rewrite lookup_delete_eq. unfold entry_field.
    destruct (saved_entry w _ _ _ Hd Hexm) as [Hw|[Hw ->]]; rewrite Hw.
    + by destruct (exm !! py "client_secret").
    + by rewrite lookup_empty.
  - by rewrite (entry_field_entry _ _ _ _ He).
  - done.
  - rewrite (load_meta_of_dict _ _ _ He). unfold with_client_secret.
    rewrite Hcse. cbn [truthy].
    rewrite bool_decide_false
      by (intros Hempty; by rewrite Hempty, lookup_empty in Hcse).
    assert (can_encrypt w' = true) as ->.
    { unfold w'. rewrite Hw1. exact Hce. }
    cbn [negb andb as_str mbind res_bind]. unfold latin1_decode, latin1_encode.
    rewrite Hctb. cbn [mbind res_bind]. rewrite Hdec, Hne.
    eexists. split; [done|]. by rewrite lookup_insert_eq.
Qed.

(** ** The exchange, the migration, the store and the callback in full *)

(** *** The TikTok code exchange *)

(** C8 (amended). The TikTok token endpoint has answered.  With a
    transport status other than 200 the broker's [exchange_oauth_code]
    returns a failure carrying the text of the response, whatever the body
    says; with the status 200 and an embedded code other than 0 it returns a
    failure carrying the provider's message after [TikTok API error: ]; in
    both cases nothing is recorded.  The dashboard's [_exchange_tiktok_code]
    returns [None] in both cases: it keeps no message.  Conversely the
    broker reports success, and the dashboard returns a token, only when the
    status is 200 and the embedded code equals 0. *)
Theorem tiktok_embedded_error (request : OAuthCodeRequest) (w : world)
    (plat cid sec : pystr) (resp : http_response) :
  req_platform request = Some plat → py_lower plat = py "tiktok" →
  env_get w "TIKTOK_CLIENT_ID" = Some cid → nonempty cid = true →
  env_get w "TIKTOK_CLIENT_SECRET" = Some sec → nonempty sec = true →
  (∀ rq, rq_url rq
         = py "https://business-api.tiktok.com/open_api/v1.3/oauth2/access_token/" →
         http w rq = Ok resp) →
  (status_code resp ≠ 200 →
   exchange_oauth_code request w
   = (w, Ok (failure (py "Failed to exchange TikTok code: " ++ text resp)))
   ∧ _exchange_tiktok_code (code request) w = (w, Ok JNull))
  ∧ (∀ m, status_code resp = 200 → body resp = Ok (JObj m) →
          ne_zero (default JNull (m !! py "code")) = true →
          exchange_oauth_code request w
          = (w, Ok (failure (py "TikTok API error: "
                             ++ py_str (default JNull (m !! py "message")))))
          ∧ _exchange_tiktok_code (code request) w = (w, Ok JNull))
  ∧ (∀ w' r, exchange_oauth_code request w = (w', Ok r) → ok r = true →
             status_code resp = 200
             ∧ ∃ m, body resp = Ok (JObj m)
                    ∧ ne_zero (default JNull (m !! py "code")) = false)
  ∧ (∀ w' tok, _exchange_tiktok_code (code request) w = (w', Ok tok) →
               truthy tok = true →
               status_code resp = 200
               ∧ ∃ m, body resp = Ok (JObj m)
                      ∧ ne_zero (default JNull (m !! py "code")) = false).
Proof.
  intros Hplat Hlow Hcid Hcid' Hsec Hsec' Hhttp.
  assert (exchange_oauth_code request w
          = match exchange_tiktok request w with
            | (w', Ok a) => (w', Ok a)
            | (w', Raise e) => (w', Ok (failure (exn_str e)))
            end) as Hbroker.
  { unfold exchange_oauth_code, catch_as. rewrite Hplat.
    assert (opt_truthy (Some plat) = true) as ->.
    { destruct plat; [|done]. by vm_compute in Hlow. }
    cbn [default from_option id]. rewrite Hlow.
    rewrite one_of_tiktok_google, one_of_tiktok_meta, bool_decide_true by done.
    by destruct (exchange_tiktok request w) as [w' [a|e]]. }
  assert (exchange_tiktok request w
          = if negb (status_code resp =? 200)
            then (w, Ok (failure (py "Failed to exchange TikTok code: " ++ text resp)))
            else (let* token_data := lift (body resp) in
                  let* embedded := lift (json_get token_data (py "code") JNull) in
                  if ne_zero embedded then
                    let* message := lift (json_get token_data (py "message") JNull) in
                    ret (failure (py "TikTok API error: " ++ py_str message))
                  else
                    let* token_data := lift (json_get token_data (py "data") (JObj ∅)) in
                    record_tokens (py "tiktok") token_data) w) as Htik.
  { unfold exchange_tiktok. unfold bind at 1, gets. rewrite Hcid.
    unfold bind at 1. rewrite Hsec.
    unfold opt_truthy. cbn [env_truthy]. rewrite Hcid', Hsec'. cbn [negb orb].
    unfold bind at 1, http_post, reads. rewrite Hhttp by done.
    by destruct (status_code resp =? 200). }
  assert (_exchange_tiktok_code (code request) w
          = if status_code resp =? 200
            then match body resp with
                 | Ok (JObj m) =>
                     if eq_zero (default JNull (m !! py "code"))
                     then match (data ← json_get (JObj m) (py "data") (JObj ∅);
                                 json_get data (py "access_token") JNull) with
                          | Ok tok => (w, Ok tok)
                          | Raise _ => (w, Ok JNull)
                          end
                     else (w, Ok JNull)
                 | _ => (w, Ok JNull)
                 end
            else (w, Ok JNull)) as Hdash.
  { unfold _exchange_tiktok_code, catch. unfold bind at 1, gets. rewrite Hcid.
    unfold bind at 1. rewrite Hsec.
    unfold opt_truthy. cbn [env_truthy]. rewrite Hcid', Hsec'. cbn [negb orb].
    unfold bind at 1, http_post, reads. rewrite Hhttp by done.
    destruct (status_code resp =? 200); [|done].
    unfold bind, lift, ret.
    destruct (body resp) as [[| | | | |m]|]; try done.
    cbn [json_get]. destruct (eq_zero _); [|done].
    destruct (default (JObj ∅) (m !! py "data")) as [| | | | |d]; try done. }
  split_and!.
  - intros Hst. apply Z.eqb_neq in Hst.
    rewrite Hbroker, Htik, Hdash, Hst. done.
  - intros m Hst Hbody Hne. apply Z.eqb_eq in Hst.
    rewrite Hbroker, Htik, Hdash, Hst, Hbody. cbn [negb].
    unfold bind, lift, ret. cbn [json_get]. rewrite Hne.
    unfold eq_zero. rewrite Hne. done.
  - intros w' r. rewrite Hbroker, Htik.
    destruct (status_code resp =? 200) eqn:Hst; cbn [negb].
    2: { intros [= <- <-]. done. }
    apply Z.eqb_eq in Hst. unfold bind at 1, lift.
    destruct (body resp) as [[| | | | |m]|]; try (intros [= <- <-]; done).
    unfold bind at 1. cbn [json_get].
    destruct (ne_zero (default JNull (m !! py "code"))) eqn:Hne.
    { unfold bind, ret. intros [= <- <-]. done. }
    intros _ _. split; [done|]. by exists m.
  - intros w' tok. rewrite Hdash.
    destruct (status_code resp =? 200) eqn:Hst.
    2: { intros [= <- <-]. done. }
    apply Z.eqb_eq in Hst.
    destruct (body resp) as [[| | | | |m]|]; try (intros [= <- <-]; done).
    unfold eq_zero.
    destruct (ne_zero (default JNull (m !! py "code"))) eqn:Hne; cbn [negb].
    { intros [= <- <-]. done. }
    intros _ _. split; [done|]. by exists m.
Qed.

(** *** The migration to the keyring *)

(** C7 (amended). Whatever the platform and the user: when the migration
    returns [True], the location reported afterwards is the keyring and the
    token map of the file holds no entry for the user's key.  When there is
    nothing to migrate, that is the keyring is absent, or it is there and
    refuses the write, or the file holds no token under the user's key, the
    world is left as it was; the migration then returns [False], provided
    the keyring is absent or the file is of the shape this program
    writes. *)
Theorem migrate_to_keyring (p : platform) (user_email : option pystr)
    (w w' : world) (r : res bool) :
  migrate_file_token_to_keyring_for_user p user_email w = (w', r) →
  (r = Ok true →
   token_storage_location_for_user p user_email w' = Ok (py "keyring")
   ∧ file_tokens w' p !! email_key_of user_email = None)
  ∧ (keyring w = None
     ∨ (∃ kr, keyring w = Some kr ∧ kr_works kr = false)
     ∨ file_tokens w p !! email_key_of user_email = None →
     w' = w
     ∧ (keyring w = None ∨ store_well_formed w p → r = Ok false)).
Proof.
  intros Hs. split.
  - intros ->. unfold migrate_file_token_to_keyring_for_user in Hs.
    apply bind_ok in Hs as (w0 & kr & Hg & Hs). unfold gets in Hg.
    injection Hg as <- <-.
    destruct (can_use_keyring w); [|by unfold ret in Hs]. cbn [negb] in Hs.
    apply bind_ok in Hs as (w0 & m & Hg & Hs). unfold gets in Hg.
    injection Hg as <- <-.
    apply bind_ok in Hs as (w0 & tokens & Htok & Hs). unfold lift in Htok.
    injection Htok as <- Htok.
    apply bind_ok in Hs as (w0 & enc & Henc & Hs). unfold lift in Henc.
    injection Henc as <- Henc.
    destruct (truthy enc) eqn:Htr; [|by unfold ret in Hs]. cbn [negb] in Hs.
    unfold catch in Hs.
    match type of Hs with
    | match ?body w with _ => _ end = _ =>
        destruct (body w) as [w2 [b|e]] eqn:Hbody; [|by unfold ret in Hs]
    end.
    injection Hs as -> ->.
    apply bind_ok in Hbody as (w0 & token & Hdec & Hbody). unfold reads in Hdec.
    injection Hdec as <- Hdec.
    destruct token as [token|]; [|by unfold ret in Hbody].
    destruct (nonempty token) eqn:Hne; [|by unfold ret in Hbody].
    cbn [negb] in Hbody.
    apply bind_ok in Hbody as (w0 & [] & Hset & Hbody).
    apply keyring_set_password_spec in Hset
      as [(_ & ? & _)|(kr & Hkr & Hw & _ & ->)]; [done|].
    apply bind_ok in Hbody as (w2 & [] & Hsave & Hbody).
    apply bind_ok in Hbody as (w3 & [] & Hlog & Hbody).
    unfold ret in Hbody. unfold log_info, log_record, modify in Hlog.
    injection Hbody as <-. injection Hlog as <-.
    destruct tokens as [| | | | |tk]; try done. cbn [json_get] in Henc.
    injection Henc as <-.
    destruct (tk !! email_key_of user_email) as [enc|] eqn:Hlook; [|done].
    cbn [json_delitem] in Hsave. rewrite Hlook in Hsave.
    cbn [mbind res_bind] in Hsave.
    destruct (load_meta_or_empty w p) as [| | | | |mm]; try done.
    cbn [json_setitem] in Hsave.
    apply saved_fields in Hsave as (Hsp & m & Hm & Hk).
    pose proof Hsp as (_ & _ & _ & Hk2 & _).
    split.
    + unfold token_storage_location_for_user.
      erewrite keyring_token_password;
        [by rewrite Hne|cbn; by rewrite Hk2|done|cbn; by rewrite lookup_insert_eq].
    + erewrite file_tokens_entry;
        [apply lookup_delete_eq|cbn; exact Hm|].
      rewrite Hk by done. by rewrite lookup_insert_eq.
  - intros Hnothing.
    unfold migrate_file_token_to_keyring_for_user in Hs.
    unfold bind at 1, gets in Hs.
    destruct (can_use_keyring w) eqn:Hcan; cbn [negb] in Hs.
    2: { unfold ret in Hs. injection Hs as <- <-. split; [done|]. done. }
    assert (keyring w ≠ None) as Hsome.
    { unfold can_use_keyring in Hcan. apply bool_decide_eq_true in Hcan.
      by destruct Hcan as [kr ->]. }
    unfold bind at 1 in Hs. unfold bind at 1, lift in Hs.
    destruct (json_get (load_meta_or_empty w p) (py "tokens") (JObj ∅))
      as [tokens|e] eqn:Htok.
    2: { injection Hs as <- <-. split; [done|].
         intros [Hkr|Hwf]; [done|].
         by rewrite loaded_tokens_well_formed in Htok. }
    unfold bind at 1, lift in Hs.
    destruct (json_get tokens (email_key_of user_email) JNull) as [enc|e] eqn:Henc.
    2: { injection Hs as <- <-. split; [done|].
         intros [Hkr|Hwf]; [done|].
         rewrite loaded_tokens_well_formed in Htok by done.
         injection Htok as <-. done. }
    destruct (truthy enc) eqn:Htr; cbn [negb] in Hs.
    2: { unfold ret in Hs. by injection Hs as <- <-. }
    assert (tokens = JObj (file_tokens w p)) as ->.
    { destruct tokens as [| | | | |tk]; try done.
      by rewrite (loaded_tokens _ _ _ Htok). }
    cbn [json_get] in Henc. injection Henc as Henc.
    destruct Hnothing as [Hkr|[(kr & Hkr & Hw)|Hnone]]; [done| |].
    2: { rewrite Hnone in Henc. cbn in Henc. by subst enc. }
    unfold catch in Hs. unfold bind at 1, reads in Hs.
    destruct (s ← as_str enc; eb ← latin1_encode s; decrypt_token w eb)
      as [[token|]|e]; unfold ret in Hs; try (by injection Hs as <- <-).
    destruct (nonempty token); cbn [negb] in Hs; [|by injection Hs as <- <-].
    unfold bind at 1, keyring_set_password in Hs. rewrite Hkr, Hw in Hs.
    by injection Hs as <- <-.
Qed.

(** *** What storing a token writes to the file *)

Lemma sealed_under_key_same w w' plain v :
  environ w' = environ w → sealed_under_key w' plain v → sealed_under_key w plain v.
Proof.
  intros He (skey & kb & f & tb & t & iv & Hk & ?). exists skey, kb, f, tb, t, iv.
  split; [|done]. unfold env_get in *. by rewrite <- He.
Qed.

Lemma encrypt_token_str secret w w' enc :
  encrypt_token secret w = (w', Ok (Some enc)) → ∃ s, secret = JStr s.
Proof.
  unfold encrypt_token. intros He.
  destruct (fernet_imported w); [|done]. cbn [negb] in He.
  destruct (env_get w "DASHBOARD_SECRET_KEY") as [key|]; [|done].
  destruct (nonempty key); [|done].
  destruct (str_encode key) as [kb|]; [|done]. cbn [mbind res_bind] in He.
  destruct (fernet_new kb) as [f|]; [|done]. cbn [mbind res_bind] in He.
  destruct secret; try done. eauto.
Qed.

(** The [try] block of [save_meta] adds one thing to the metadata: the
    ciphertext of the client secret. *)
Lemma seal_client_secret_values meta w w1 meta1 :
  seal_client_secret meta w = (w1, Ok meta1) →
  ∀ k v, meta1 !! k = Some v →
    meta !! k = Some v
    ∨ (k = py "client_secret_enc"
       ∧ ∃ s, meta !! py "client_secret" = Some (JStr s) ∧ sealed_under_key w s v).
Proof.
  unfold seal_client_secret. intros Hseal k v Hv.
  destruct (meta !! py "client_secret") as [secret|] eqn:Hsecret;
    [|injection Hseal as <- <-; by left].
  destruct (can_encrypt w); [|injection Hseal as <- <-; by left].
  destruct (encrypt_token secret w) as [w2 r] eqn:He.
  destruct r as [[enc|]|]; [|injection Hseal as <- <-; by left..].
  destruct (nonempty enc); [|injection Hseal as <- <-; by left].
  injection Hseal as <- <-.
  destruct (encrypt_token_str _ _ _ _ He) as [s ->].
  apply encrypt_token_ok in He
    as (skey & kb & f & tb & _ & Hkey & _ & Hkb & Hf & Htb & -> & _).
  destruct (decide (k = py "client_secret")) as [->|Hk1];
    [by rewrite lookup_delete_eq in Hv|].
  rewrite lookup_delete_ne in Hv by done.
  destruct (decide (k = py "client_secret_enc")) as [->|Hk2].
  - rewrite lookup_insert_eq in Hv. injection Hv as <-. right. split; [done|].
    exists s. split; [done|]. by exists skey, kb, f, tb, (clock w), (entropy w).
  - rewrite lookup_insert_ne in Hv by done. by left.
Qed.

(** The entry of the platform once [save_meta] has returned: every field
    holds what the entry held, what the metadata passed hold, or the
    ciphertext of the client secret passed. *)
Lemma save_meta_values p meta w w' :
  save_meta (plat_key p) (JObj meta) w = (w', Ok tt) →
  ∃ entry, file_entry w' (plat_key p) = Some (JObj entry)
    ∧ ∀ k v, entry !! k = Some v →
        entry_field w p k = Some v
        ∨ meta !! k = Some v
        ∨ (k = py "client_secret_enc"
           ∧ ∃ s, meta !! py "client_secret" = Some (JStr s)
                  ∧ sealed_under_key w s v).
Proof.
  unfold save_meta. intros Hs.
  apply bind_ok in Hs as (w0 & data & Hd & Hs). unfold gets in Hd.
  injection Hd as <- <-.
  destruct (seal_client_secret_spec meta w) as (w1 & meta1 & Hseal & Hsp & Hmf & _).
  rewrite (bind_eq _ _ _ _ _ Hseal) in Hs.
  apply bind_ok in Hs as (w2 & ex & Hex & Hs). unfold lift in Hex.
  destruct (default (JObj ∅) (meta_file w)) as [| | | | |data] eqn:Hdata; try done.
  cbn [json_get] in Hex. injection Hex as <- <-.
  apply bind_ok in Hs as (w3 & ex' & Hex' & Hs). unfold lift in Hex'.
  destruct (default (JObj ∅) (data !! plat_key p)) as [| | | | |ex] eqn:Hexd; try done.
  cbn [json_update json_setitem] in *. injection Hex' as <- <-.
  unfold lift, bind, modify in Hs. injection Hs as <-.
  exists (meta1 ∪ ex). split.
  - unfold file_entry. cbn [meta_file set_meta_file]. by rewrite lookup_insert_eq.
  - intros k v Hv. apply lookup_union_Some_raw in Hv as [Hv|[_ Hv]].
    + destruct (seal_client_secret_values _ _ _ _ Hseal k v Hv); auto.
    + left. unfold entry_field.
      destruct (saved_entry w _ _ _ Hdata Hexd) as [He|[He ->]]; rewrite He; done.
Qed.

(** A field of the metadata as [load_meta(platform) or {}] returns them is
    the field of the file, or the client secret. *)
Lemma loaded_value w p mm k v :
  load_meta_or_empty w p = JObj mm → mm !! k = Some v →
  entry_field w p k = Some v
  ∨ (k = py "client_secret"
     ∧ ∃ mm', load_meta w (plat_key p) = JObj mm'
              ∧ mm' !! py "client_secret" = Some v).
Proof.
  intros Hl Hv. destruct (decide (k = py "client_secret")) as [->|Hk].
  - right. split; [done|]. unfold load_meta_or_empty, or_empty_dict in Hl.
    destruct (truthy (load_meta w (plat_key p))); [by exists mm|].
    injection Hl as <-. by rewrite lookup_empty in Hv.
  - left. by rewrite <- (loaded_fields _ _ _ Hl).
Qed.

(** The same for the client secret that [save_meta] seals. *)
Lemma loaded_secret w p mm s :
  load_meta_or_empty w p = JObj mm → mm !! py "client_secret" = Some s →
  ∃ mm', load_meta w (plat_key p) = JObj mm' ∧ mm' !! py "client_secret" = Some s.
Proof.
  intros Hl Hv. unfold load_meta_or_empty, or_empty_dict in Hl.
  destruct (truthy (load_meta w (plat_key p))); [by exists mm|].
  injection Hl as <-. by rewrite lookup_empty in Hv.
Qed.

Lemma written_by_store_same p token user w w0 k v :
  environ w0 = environ w → fernet_imported w0 = fernet_imported w →
  meta_file w0 = meta_file w →
  written_by_store p token user w0 k v → written_by_store p token user w k v.
Proof.
  intros He Hf Hm. unfold written_by_store.
  rewrite (entry_field_same w w0) by done.
  assert (file_tokens w0 p = file_tokens w p) as ->
    by (unfold file_tokens; by rewrite (entry_field_same w w0)).
  rewrite (load_meta_same w w0) by done.
  intros [?|[?|[(? & ct & Hct & ?)|(mm & secret & ? & ? & Hs)]]]; auto.
  - right; right; left. split; [done|]. exists ct. split; [|done].
    by eapply sealed_under_key_same.
  - right; right; right. exists mm, secret. split_and!; [done..|].
    destruct Hs as [?|(? & s & ? & Hs)]; [by left|right].
    split; [done|]. exists s. split; [done|]. by eapply sealed_under_key_same.
Qed.

(** The keyring branch, when it returns [True], has saved the metadata it
    loaded, [last_sync] set when it was missing. *)
Lemma store_in_keyring_file p key token user w w1 :
  store_in_keyring p key (JStr token) w = (w1, Ok true) →
  (∀ plat, plat ≠ plat_key p → file_entry w1 plat = file_entry w plat)
  ∧ ∃ entry, file_entry w1 (plat_key p) = Some (JObj entry)
      ∧ ∀ k v, entry !! k = Some v → written_by_store p token user w k v.
Proof.
  intros Hs. unfold store_in_keyring, catch in Hs. unfold bind at 1 in Hs.
  destruct (keyring_set_password _ _ w) as [w0 r0] eqn:Hset.
  apply keyring_set_password_spec in Hset as [(-> & Hr & Hkr)|(kr & Hkr & Hw & -> & Hw0)].
  { destruct r0 as [|e]; [done|].
    unfold bind, log_error, log_record, modify, ret in Hs. done. }
  assert (meta_file w0 = meta_file w ∧ environ w0 = environ w
          ∧ fernet_imported w0 = fernet_imported w) as (Hmf0 & He0 & Hf0)
    by (by subst w0).
  clear Hw0.
  unfold bind at 1, gets in Hs. unfold bind at 1, lift in Hs.
  destruct (json_setdefault _ _ _) as [meta|e] eqn:Hmeta;
    [|unfold bind, log_error, log_record, modify, ret in Hs; done].
  destruct (load_meta_or_empty w0 p) as [| | | | |mm] eqn:Hload; try done.
  cbn [json_setdefault] in Hmeta. injection Hmeta as <-.
  unfold bind at 1 in Hs.
  destruct (save_meta _ _ w0) as [w2 r2] eqn:Hsave.
  destruct r2 as [[]|e];
    [|unfold bind, log_error, log_record, modify, ret in Hs; done].
  unfold bind, log_info, log_record, modify, ret in Hs. injection Hs as <-.
  split.
  - intros plat Hplat. transitivity (file_entry w2 plat); [done|].
    rewrite <- (file_entry_same w w0) by done.
    by eapply save_meta_others.
  - destruct (save_meta_values _ _ _ _ Hsave) as (entry & Hentry & Hvalues).
    exists entry. split; [done|]. intros k v Hv.
    apply (written_by_store_same p token user w w0); [done..|].
    assert (∀ k v, match mm !! py "last_sync" with
                   | Some _ => mm
                   | None => <[py "last_sync" := JNull]> mm
                   end !! k = Some v →
                   (k = py "last_sync" ∧ v = JNull) ∨ mm !! k = Some v) as Hdefault.
    { intros k0 v0. destruct (mm !! py "last_sync") eqn:Hls; [auto|].
      destruct (decide (k0 = py "last_sync")) as [->|Hk0].
      - rewrite lookup_insert_eq. intros [= <-]. auto.
      - rewrite lookup_insert_ne by done. auto. }
    destruct (Hvalues k v Hv) as [?|[Hm|(-> & s & Hm & Hsealed)]].
    + by left.
    + apply Hdefault in Hm as [?|Hm]; [right; by left|].
      destruct (loaded_value _ _ _ _ _ Hload Hm) as [?|(-> & mm' & ? & ?)];
        [by left|].
      right; right; right. exists mm', v. split_and!; [done..|]. by left.
    + apply Hdefault in Hm as [[? _]|Hm]; [done|].
      destruct (loaded_secret _ _ _ _ Hload Hm) as (mm' & ? & ?).
      right; right; right. exists mm', (JStr s). split_and!; [done..|].
      right. split; [done|]. by exists s.
Qed.

(** The file branch, when it returns [True], has saved the metadata it
    loaded with the ciphertext of the token in the token map. *)
Lemma store_in_file_file p token user w w' :
  store_in_file p (email_key_of user) (JStr token) w = (w', Ok true) →
  (∀ plat, plat ≠ plat_key p → file_entry w' plat = file_entry w plat)
  ∧ ∃ entry, file_entry w' (plat_key p) = Some (JObj entry)
      ∧ ∀ k v, entry !! k = Some v → written_by_store p token user w k v.
Proof.
  intros Hs. unfold store_in_file in Hs.
  apply bind_ok in Hs as (w0 & able & Ha & Hs). unfold gets in Ha. injection Ha as <- <-.
  destruct (can_encrypt w) eqn:Hce; [|unfold ret in Hs; by simplify_eq].
  cbn [negb] in Hs.
  apply bind_ok in Hs as (w1 & oenc & Henc & Hs).
  destruct oenc as [enc|]; [|unfold ret in Hs; by simplify_eq].
  destruct (nonempty enc) eqn:Hne; [|unfold ret in Hs; by simplify_eq].
  cbn [negb] in Hs.
  destruct (encrypt_token_frame _ _ _ _ Henc) as [Hsp1 Hmf1].
  pose proof Hsp1 as (He1 & _ & Hf1 & _).
  apply encrypt_token_ok in Henc
    as (skey & kb & f & tb & _ & Hkey & _ & Hkb & Hf & Htb & -> & _).
  apply bind_ok in Hs as (w2 & meta & Hmeta & Hs). unfold gets in Hmeta.
  injection Hmeta as <- <-.
  apply bind_ok in Hs as (w3 & tokens & Htok & Hs). unfold lift in Htok.
  injection Htok as <- Htok.
  apply bind_ok in Hs as (w3 & tokens1 & Htok1 & Hs). unfold lift in Htok1.
  injection Htok1 as <- Htok1.
  apply bind_ok in Hs as (w3 & meta2 & Hmeta2 & Hs). unfold lift in Hmeta2.
  injection Hmeta2 as <- Hmeta2.
  apply bind_ok in Hs as (w3 & meta3 & Hmeta3 & Hs). unfold lift in Hmeta3.
  injection Hmeta3 as <- Hmeta3.
  apply bind_ok in Hs as (w3 & [] & Hsave & Hs).
  apply bind_ok in Hs as (w4 & [] & Hlog & Hs).
  unfold ret in Hs. unfold log_info, log_record, modify in Hlog.
  injection Hs as <-. injection Hlog as <-.
  destruct tokens as [| | | | |tk]; try done.
  apply loaded_tokens in Htok. subst tk.
  destruct (load_meta_or_empty w1 p) as [| | | | |mm] eqn:Hload; try done.
  cbn [json_setitem] in *. injection Htok1 as <-. injection Hmeta2 as <-.
  cbn [json_setdefault] in Hmeta3. injection Hmeta3 as <-.
  set (ct := JStr (latin1_decode (fernet_encrypt f (clock w) (entropy w) tb))) in *.
  split.
  - intros plat Hplat. transitivity (file_entry w3 plat); [done|].
    rewrite <- (file_entry_same w w1) by done.
    by eapply save_meta_others.
  - destruct (save_meta_values _ _ _ _ Hsave) as (entry & Hentry & Hvalues).
    exists entry. split; [done|]. intros k v Hv.
    apply (written_by_store_same p token user w w1); [done..|].
    set (mt := <[py "tokens" := JObj (<[email_key_of user := ct]> (file_tokens w1 p))]> mm)
      in *.
    assert (∀ k v, match mt !! py "last_sync" with
                   | Some _ => mt
                   | None => <[py "last_sync" := JNull]> mt
                   end !! k = Some v →
                   (k = py "last_sync" ∧ v = JNull)
                   ∨ (k = py "tokens"
                      ∧ v = JObj (<[email_key_of user := ct]> (file_tokens w1 p)))
                   ∨ (k ≠ py "tokens" ∧ mm !! k = Some v)) as Hmeta.
    { intros k0 v0 Hv0.
      assert (mt !! k0 = Some v0 ∨ (k0 = py "last_sync" ∧ v0 = JNull)) as [Hmt|?];
        [| |auto].
      { destruct (mt !! py "last_sync") eqn:Hls; [auto|].
        destruct (decide (k0 = py "last_sync")) as [->|Hk0].
        - rewrite lookup_insert_eq in Hv0. injection Hv0 as <-. auto.
        - rewrite lookup_insert_ne in Hv0 by done. auto. }
      subst mt. destruct (decide (k0 = py "tokens")) as [->|Hk0].
      - rewrite lookup_insert_eq in Hmt. injection Hmt as <-. auto.
      - rewrite lookup_insert_ne in Hmt by done. auto. }
    assert (sealed_under_key w1 token ct) as Hct.
    { exists skey, kb, f, tb, (clock w), (entropy w). split_and!; try done.
      unfold env_get in *. by rewrite He1. }
    destruct (Hvalues k v Hv) as [?|[Hm|(-> & s & Hm & Hsealed)]].
    + by left.
    + apply Hmeta in Hm as [?|[[-> ->]|[_ Hm]]]; [right; by left| |].
      * right; right; left. split; [done|]. by exists ct.
      * destruct (loaded_value _ _ _ _ _ Hload Hm) as [?|(-> & mm' & ? & ?)];
          [by left|].
        right; right; right. exists mm', v. split_and!; [done..|]. by left.
    + apply Hmeta in Hm as [[? _]|[[? _]|[_ Hm]]]; [done..|].
      destruct (loaded_secret _ _ _ _ Hload Hm) as (mm' & ? & ?).
      right; right; right. exists mm', (JStr s). split_and!; [done..|].
      right. split; [done|]. by exists s.
Qed.

(** C5. Whatever the platform, the user and the token.  When the keyring
    is absent or refuses the write, and the token cannot be encrypted,
    storing the token returns [False] and leaves the keyring and the
    metadata file as they were.  And in every world the call leaves the
    metadata file as it was or writes the entry of its platform only, in
    which every field holds the value it had, [None] (for [last_sync]), the
    token map with a ciphertext of the token under the configured key at
    the user's key, or the client secret of the application and its
    ciphertext: the clear token is written nowhere in the file. *)
Theorem store_fails_closed (p : platform) (token : pystr)
    (user_email : option pystr) (w w' : world) (r : res bool) :
  store_token_for_user p (JStr token) user_email w = (w', r) →
  ((keyring w = None ∨ (∃ kr, keyring w = Some kr ∧ kr_works kr = false)) →
   can_encrypt w = false →
   r = Ok false ∧ persisted w' = persisted w)
  ∧ (meta_file w' = meta_file w
     ∨ ((∀ plat, plat ≠ plat_key p → file_entry w' plat = file_entry w plat)
        ∧ ∃ entry,
            file_entry w' (plat_key p) = Some (JObj entry)
            ∧ ∀ k v, entry !! k = Some v →
                     written_by_store p token user_email w k v)).
Proof.
  intros Hs. split.
  - apply store_token_for_user_inv in Hs as (w0 & w1 & b & Hsp & Hw0 & Hb).
    pose proof Hsp as (He1 & _ & Hf1 & Hk1 & _).
    intros Hkr Hce.
    destruct Hw0 as [(-> & -> & _)|(kr & Hkr' & Hw & _)].
    2: { destruct Hkr as [Hkr|(kr' & Hkr & Hw')]; congruence. }
    destruct Hb as [Hmf Hfile]. unfold store_in_file, bind, gets in Hfile.
    rewrite (can_encrypt_same w w1) in Hfile by done. rewrite Hce in Hfile.
    cbn in Hfile. injection Hfile as <- <-. split; [done|].
    unfold persisted. by rewrite Hk1, Hmf.
  - apply store_token_for_user_stages in Hs as (w1 & b & Hring & Hfile).
    destruct b.
    { destruct Hfile as [-> ->]. destruct Hring as [(_ & _ & ?)|Hring]; [done|].
      right. by apply (store_in_keyring_file p (email_key_of user_email)). }
    assert (meta_file w1 = meta_file w ∧ environ w1 = environ w
            ∧ fernet_imported w1 = fernet_imported w) as (Hm1 & He1 & Hf1).
    { destruct Hring as [(_ & -> & _)|Hring]; [done|].
      apply store_in_keyring_spec in Hring as (b & w0 & Hb & Hsp & _ & Hmf & Hw0).
      injection Hb as <-. destruct Hsp as (? & _ & ? & _).
      split; [by apply Hmf|].
      destruct Hw0 as [(-> & _)|(kr & _ & _ & ->)]; split; by etrans. }
    assert (r = Ok true ∨ r ≠ Ok true) as [->|Hr] by (destruct r as [[]|]; auto).
    2: { left. apply store_in_file_frame in Hfile as [_ Hmf]. by rewrite Hmf. }
    right. apply store_in_file_file in Hfile as [Hothers (entry & Hentry & Hvalues)].
    split.
    + intros plat Hplat. rewrite Hothers by done. by apply file_entry_same.
    + exists entry. split; [done|]. intros k v Hv.
      apply (written_by_store_same p token user_email w w1); [done..|].
      by apply Hvalues.
Qed.

(** *** The state check of the callback *)

(** The [try] block that stores and syncs reports the token stored exactly
    when the connector of the platform is there and its store returned
    [True]; the sync that follows changes nothing the getters read. *)
Lemma store_and_sync_stored plat tok user w w3 rs :
  store_for (connector_for plat) (JStr tok) user w = (w3, rs) →
  ∃ w2 rows,
    store_and_sync plat (JStr tok) user w
    = (w2, Ok (returned_true rs && connector_imported w (connector_for plat), rows))
    ∧ fastapi_available w2 = fastapi_available w
    ∧ fastapi_imported w2 = fastapi_imported w
    ∧ (returned_true rs && connector_imported w (connector_for plat) = true →
       ∀ q u, get_token_for_user q u w2 = get_token_for_user q u w3).
Proof.
  assert (∀ p w3 rs, store_for p (JStr tok) user w = (w3, rs) →
            ∃ w2 rows,
              catch (let* stored_ok := store_for p (JStr tok) user in
                     let* rows := sync_rows p (JStr tok) user in
                     ret (stored_ok, rows)) (ret (false, None)) w
              = (w2, Ok (returned_true rs, rows))
              ∧ fastapi_available w2 = fastapi_available w
              ∧ fastapi_imported w2 = fastapi_imported w
              ∧ (returned_true rs = true →
                 ∀ q u, get_token_for_user q u w2 = get_token_for_user q u w3))
    as Hknown.
  { intros p w4 rs' Hstore. unfold catch. unfold bind at 1. rewrite Hstore.
    destruct (store_for_process _ _ _ _ _ _ Hstore) as [Ha Hi].
    destruct rs' as [stored|e]; [|unfold ret; by eexists _, None].
    unfold bind at 1.
    destruct (sync_rows p (JStr tok) user w4) as [w2 r2] eqn:Hsync.
    apply sync_rows_reads in Hsync as ([rows ->] & Hsp & Hget).
    destruct Hsp as (_ & _ & _ & _ & Hi2 & Ha2 & _).
    unfold ret. exists w2, rows. split_and!; [by destruct stored|congruence..|].
    intros _. done. }
  intros Hstore. unfold store_and_sync.
  unfold connector_for in *.
  destruct (one_of plat ["meta"; "facebook"]).
  { cbn [connector_imported]. rewrite andb_true_r. by apply Hknown. }
  destruct (one_of plat ["google"; "google_ads"]).
  { cbn [connector_imported]. unfold catch at 1. unfold bind at 1, gets.
    destruct (google_connector_imported w); cbn [negb].
    - rewrite andb_true_r. by apply Hknown.
    - rewrite andb_false_r. unfold ret. by eexists _, None. }
  destruct (one_of plat ["tiktok"]).
  { cbn [connector_imported]. unfold catch at 1. unfold bind at 1, gets.
    destruct (tiktok_connector_imported w); cbn [negb].
    - rewrite andb_true_r. by apply Hknown.
    - rewrite andb_false_r. unfold ret. by eexists _, None. }
  cbn [connector_imported]. rewrite andb_true_r.
  unfold catch. unfold bind. rewrite Hstore.
  destruct (store_for_process _ _ _ _ _ _ Hstore) as [Ha Hi].
  destruct rs as [stored|e]; unfold ret.
  - exists w3, None. split_and!; [by destruct stored|done..].
  - by exists w3, None.
Qed.

(** C2. The callback has a token in hand and a state that is present and
    does not verify (the verification returns nothing or raises).

    If the state holds no [@], the call ends there, and the keyring and the
    metadata file are as they were when the callback began.  With FastAPI
    imported the answer is the status 400 with a message of its own; in a
    process without FastAPI the branch calls [HTMLResponse], which is
    [None], and the call raises [TypeError] instead.

    If the state holds an [@], the call goes on with the state itself as the
    user: the answer reports the token stored exactly when the connector of
    the platform is there and its store for that user returns [True]; the
    token is then what the connector's getter returns for that user, and the
    message names the user.  Otherwise the answer is the storage failure
    with the status 500, never the message about the state. *)
Theorem callback_state_check (platform code token error : option pystr)
    (st : pystr) (w w1 : world) (long_token : json) :
  opt_truthy error = false →
  obtain_token (py_lower (default [] platform)) code token w
  = (w1, Ok (inr long_token)) →
  truthy long_token = true →
  nonempty st = true →
  (∀ e, verify_state_token w1 st 600 = Ok (Some e) → e = []) →
  (contains 64 st = false →
   _callback_core platform code token error (Some st) w
   = (w1, if fastapi_imported w1
          then Ok (HTMLResponse
                     (if raises (verify_state_token w1 st 600)
                      then py "Invalid state token"
                      else py "Invalid or expired state token") 400)
          else Raise TypeError)
   ∧ is_error_outcome (_callback_core platform code token error (Some st) w).2 = true
   ∧ persisted w1 = persisted w)
  ∧ (contains 64 st = true → ∀ tok, long_token = JStr tok →
     let p := connector_for (py_lower (default [] platform)) in
     ∃ w' r,
       _callback_core platform code token error (Some st) w = (w', r)
       ∧ if returned_true (store_token_for_user p (JStr tok) (Some st) w1).2
            && connector_imported w1 p
         then get_token_for_user p (Some st) w' = Ok (Some tok)
              ∧ ∃ rows,
                  r = if negb (fastapi_available w1)
                      then Ok (Text (stored_message (Some st) rows))
                      else if fastapi_imported w1
                           then Ok (HTMLResponse (stored_message (Some st) rows) 200)
                           else Raise TypeError
         else r = if negb (fastapi_available w1)
                  then Ok (Pair not_stored_message 500)
                  else if fastapi_imported w1
                       then Ok (HTMLResponse not_stored_message 500)
                       else Raise TypeError).
Proof.
  intros Herr Hobt Hlong Hst Hver.
  assert (_callback_core platform code token error (Some st) w
          = match resolve_state (Some st) w1 with
            | (w2, Ok (inl early)) => (w2, Ok early)
            | (w2, Ok (inr user_email)) =>
                persist_and_report (py_lower (default [] platform)) long_token
                  user_email w2
            | (w2, Raise e) => (w2, Raise e)
            end) as Hcore.
  { unfold _callback_core. rewrite Herr. unfold bind at 1. rewrite Hobt, Hlong.
    cbn [negb]. unfold bind.
    destruct (resolve_state (Some st) w1) as [w2 [[early|user]|e]]; done. }
  rewrite Hcore. clear Hcore.
  split.
  - unfold resolve_state. rewrite Hst. unfold catch, bind, reads.
    assert (∀ msg, state_fallback st msg w1
                   = if contains 64 st then (w1, Ok (inr (Some st)))
                     else if fastapi_imported w1
                          then (w1, Ok (inl (HTMLResponse (py msg) 400)))
                          else (w1, Raise TypeError)) as Hfb.
    { intros msg. unfold state_fallback, bind, ret, html_response.
      destruct (contains 64 st); [done|]. by destruct (fastapi_imported w1). }
    assert (match verify_state_token w1 st 600 with
            | Ok user => opt_truthy user = false
            | Raise _ => True
            end) as Hfalsy.
    { destruct (verify_state_token w1 st 600) as [[e|]|]; [|done..].
      by rewrite (Hver e eq_refl). }
    intros Hat.
    match goal with |- ?eq ∧ _ => assert eq as Heq end.
    { destruct (verify_state_token w1 st 600) as [user|x]; cbn [raises].
      * rewrite Hfalsy, !Hfb, Hat. destruct (fastapi_imported w1); [done|].
        by rewrite Hfb, Hat.
      * rewrite Hfb, Hat. by destruct (fastapi_imported w1). }
    split_and!; [exact Heq| |by eapply obtain_token_frame].
    rewrite Heq. cbn [snd]. by destruct (fastapi_imported w1).
  - intros Hat tok -> p.
    assert (nonempty tok = true) as Htok by done.
    rewrite (resolve_state_user w1 (Some st) (Some st)).
    2: { right. exists st. split_and!; [done..|]. right. done. }
    destruct (store_token_for_user p (JStr tok) (Some st) w1) as [w3 rs] eqn:Hstore.
    assert (store_for p (JStr tok) (Some st) w1 = (w3, rs)) as Hfor.
    { unfold store_for, opt_truthy. cbn [env_truthy]. by rewrite Hst. }
    destruct (store_and_sync_stored _ _ _ _ _ _ Hfor)
      as (w2 & rows & Hss & Ha & Hi & Hget).
    fold p in Hss, Hget. cbn [snd].
    unfold persist_and_report. unfold bind at 1. rewrite Hss. cbn [fst snd].
    destruct (returned_true rs && connector_imported w1 p) eqn:Hstored; cbn [negb].
    + assert (rs = Ok true) as -> by (destruct rs as [[]|]; done).
      assert (get_token_for_user p (Some st) w2 = Ok (Some tok)) as Hread.
      { rewrite Hget by done. by eapply stored_token_is_read. }
      unfold bind, gets, ret, html_response. rewrite Ha.
      destruct (fastapi_available w1); cbn [negb]; cbn beta;
        [rewrite Hi; destruct (fastapi_imported w1)|]; eexists _, _;
        (split; [reflexivity|]); (split; [exact Hread|]); by exists rows.
    + unfold bind, log_error, log_record, modify, pair_or_html, html_response.
      cbn [fastapi_available fastapi_imported set_log]. rewrite Ha.
      destruct (fastapi_available w1); cbn [negb]; cbn beta;
        [cbn [fastapi_imported set_log]; rewrite Hi; destruct (fastapi_imported w1)|];
        eexists _, _; (split; [reflexivity|]); done.
Qed.
End vault_facts.

(** ** The theorems at concrete worlds *)

Lemma store_then_get_witness :
  nonempty (py "tok") = true
  ∧ store_token_for_user Meta (JStr (py "tok")) None vault_world
    = (stored_world, Ok true)
  ∧ get_token_for_user Meta None stored_world = Ok (Some (py "tok")).
Proof.
  assert (store_token_for_user Meta (JStr (py "tok")) None vault_world
          = (stored_world, Ok true)) as Hs by (vm_compute; reflexivity).
  split; [reflexivity|]. split; [exact Hs|].
  apply (store_then_get Meta (py "tok") None vault_world stored_world);
    [reflexivity|exact Hs].
Defined.

(** The counterexample to C6 as stated: with a working keyring, storing the
    empty string returns [True], and the retrieval that follows returns
    [None]: the getter takes an empty password for no password. *)
Lemma empty_token_not_returned :
  (store_token_for_user Meta (JStr []) None keyring_world).2 = Ok true
  ∧ keyring_get_password
      (store_token_for_user Meta (JStr []) None keyring_world).1
      (keyring_username Meta (py "default")) = Ok (Some [])
  ∧ get_token_for_user Meta None
      (store_token_for_user Meta (JStr []) None keyring_world).1 = Ok None.
Proof. vm_compute. done. Qed.

Lemma meta_default_slot_witness :
  keyring vault_world = None
  ∧ store_token_for_meta (JStr (py "tok")) vault_world = (stored_world, Ok true)
  ∧ migrate_file_token_to_keyring stored_world = (stored_world, Ok false)
  ∧ migrate_file_token_to_keyring migration_world = (migration_world, Ok false)
  ∧ token_storage_location_for_user Meta None stored_world
    = Ok (py "encrypted_file").
Proof.
  assert (store_token_for_meta (JStr (py "tok")) vault_world
          = (stored_world, Ok true)) as Hs by (vm_compute; reflexivity).
  split; [reflexivity|]. split; [exact Hs|].
  destruct (meta_default_slot (py "tok") vault_world stored_world eq_refl Hs)
    as (_ & Hm & Hlater & Hloc).
  split; [exact Hm|]. split; [|exact Hloc].
  apply (Hlater migration_world); reflexivity.
Defined.




(** ** The further properties at concrete worlds *)

Lemma dotless_token_ignores_key_witness :
  verify_state_token signing_world unsigned_token 600
  = verify_state_token (at_time 1700000000 bare_world) unsigned_token 600.
Proof.
  apply (dotless_token_ignores_key signing_world (at_time 1700000000 bare_world)
           unsigned_token 600).
  - vm_compute. reflexivity.
  - vm_compute. reflexivity.
  - vm_compute. reflexivity.
  - reflexivity.
Defined.

Lemma verify_state_token_monotone_witness :
  verify_state_token (at_time 1700000100 signing_world) issued_token 600
  = Ok (Some (py "a@b.c"))
  ∧ verify_state_token signing_world issued_token 3600 = Ok (Some (py "a@b.c")).
Proof.
  assert (verify_state_token (at_time 1700000100 signing_world) issued_token 600
          = Ok (Some (py "a@b.c"))) as Hv by (vm_compute; reflexivity).
  split; [exact Hv|].
  apply (verify_state_token_monotone (at_time 1700000100 signing_world)
           signing_world issued_token 600 3600 (py "a@b.c")).
  - reflexivity.
  - vm_compute. discriminate.
  - lia.
  - exact Hv.
Defined.

Lemma verified_email_has_no_bar_witness :
  contains 124 (py "a@b.c") = false.
Proof.
  apply (verified_email_has_no_bar signing_world issued_token 600 (py "a@b.c")).
  vm_compute. reflexivity.
Defined.

Lemma make_state_token_alphabet_witness :
  forallb state_token_char issued_token = true
  ∧ ∃ key, _get_key signing_world = Ok key
      ∧ if key_truthy key
        then ∃ b64 sig, issued_token = b64 ++ [46] ++ sig ∧ length sig = 64%nat
                        ∧ contains 46 b64 = false ∧ contains 46 sig = false
        else contains 46 issued_token = false.
Proof.
  apply (make_state_token_alphabet signing_world (py "a@b.c") 600 issued_token).
  vm_compute. reflexivity.
Defined.

Lemma encrypt_then_decrypt_witness :
  encrypt_token (JStr (py "tok")) vault_world
  = (set_entropy 1 vault_world, Ok (Some (128 :: py "tok")))
  ∧ decrypt_token (set_entropy 1 vault_world) (128 :: py "tok") = Ok (Some (py "tok")).
Proof.
  assert (encrypt_token (JStr (py "tok")) vault_world
          = (set_entropy 1 vault_world, Ok (Some (128 :: py "tok")))) as He
    by (vm_compute; reflexivity).
  split; [exact He|].
  exact (encrypt_then_decrypt (py "tok") vault_world _ _ He).
Defined.

Lemma save_then_load_witness :
  (∃ m, load_meta (save_meta (plat_key Google)
                     (JObj {[ py "ad_account_id" := JStr (py "123") ]}) stored_world).1
          (plat_key Google) = JObj m
        ∧ ∀ k, k ≠ py "client_secret" → k ≠ py "client_secret_enc" →
               m !! k = match ({[ py "ad_account_id" := JStr (py "123") ]}
                                 : gmap pystr json) !! k with
                        | Some v => Some v
                        | None => entry_field stored_world Google k
                        end)
  ∧ (∀ q, q ≠ Google →
          file_entry (save_meta (plat_key Google)
                        (JObj {[ py "ad_account_id" := JStr (py "123") ]}) stored_world).1
            (plat_key q)
          = file_entry stored_world (plat_key q))
  ∧ keyring (save_meta (plat_key Google)
               (JObj {[ py "ad_account_id" := JStr (py "123") ]}) stored_world).1
    = keyring stored_world.
Proof.
  apply (save_then_load Google {[ py "ad_account_id" := JStr (py "123") ]}
           stored_world).
  vm_compute. reflexivity.
Defined.

Lemma update_last_sync_keeps_tokens_witness :
  entry_field (update_last_sync Meta stored_world).1 Meta (py "last_sync")
  = Some (JStr (utcnow_iso stored_world ++ py "Z"))
  ∧ file_tokens (update_last_sync Meta stored_world).1 Meta
    = file_tokens stored_world Meta
  ∧ (∀ k, k ≠ py "last_sync" → k ≠ py "client_secret" →
          k ≠ py "client_secret_enc" →
          entry_field (update_last_sync Meta stored_world).1 Meta k
          = entry_field stored_world Meta k)
  ∧ keyring (update_last_sync Meta stored_world).1 = keyring stored_world.
Proof.
  apply (update_last_sync_keeps_tokens Meta stored_world).
  vm_compute. reflexivity.
Defined.

Lemma vault_reads_return_witness :
  (∃ r, get_token_for_user TikTok (Some (py "a@b.c")) bare_world = Ok r)
  ∧ (∃ loc, token_storage_location_for_user TikTok (Some (py "a@b.c")) bare_world
            = Ok loc
            ∧ (loc = py "keyring" ∨ loc = py "encrypted_file" ∨ loc = py "none")).
Proof.
  apply (vault_reads_return TikTok (Some (py "a@b.c")) bare_world).
  split; intros j Hj; vm_compute in Hj; discriminate Hj.
Defined.

Lemma located_token_witness :
  token_storage_location_for_user Meta None stored_world = Ok (py "keyring")
  ∨ token_storage_location_for_user Meta None stored_world
    = Ok (py "encrypted_file").
Proof.
  apply (located_token Meta None stored_world (py "tok")).
  vm_compute. reflexivity.
Defined.

Lemma migrate_keeps_token_witness :
  ∃ enc token,
    file_tokens migration_world Meta !! email_key_of None = Some (JStr enc)
    ∧ (eb ← latin1_encode enc; decrypt_token migration_world eb) = Ok (Some token)
    ∧ get_token_for_user Meta None
        (migrate_file_token_to_keyring_for_user Meta None migration_world).1
      = Ok (Some token)
    ∧ (keyring_token migration_world Meta (email_key_of None) = None →
       get_token_for_user Meta None migration_world = Ok (Some token)).
Proof.
  apply (migrate_keeps_token Meta None migration_world).
  vm_compute. reflexivity.
Defined.

Lemma migrate_twice_witness :
  migrate_file_token_to_keyring_for_user Meta None
    (migrate_file_token_to_keyring_for_user Meta None migration_world).1
  = ((migrate_file_token_to_keyring_for_user Meta None migration_world).1, Ok false).
Proof.
  apply (migrate_twice Meta None migration_world).
  vm_compute. reflexivity.
Defined.

Lemma store_isolated_witness :
  get_token_for_user Meta (Some (py "a@b.c"))
    (store_token_for_user Meta (JStr (py "new")) None stored_world).1
  = get_token_for_user Meta (Some (py "a@b.c")) stored_world
  ∧ token_storage_location_for_user Meta (Some (py "a@b.c"))
      (store_token_for_user Meta (JStr (py "new")) None stored_world).1
    = token_storage_location_for_user Meta (Some (py "a@b.c")) stored_world.
Proof.
  apply (store_isolated Meta Meta (py "new") None (Some (py "a@b.c")) stored_world
           _ _ (surjective_pairing _)).
  vm_compute. discriminate.
Defined.

Lemma store_then_location_witness :
  token_storage_location_for_user Google (Some (py "a@b.c"))
    (store_token_for_user Google (JStr (py "tok")) (Some (py "a@b.c")) vault_world).1
  = Ok (py "encrypted_file").
Proof.
  apply (store_then_location Google (py "tok") (Some (py "a@b.c")) vault_world).
  - reflexivity.
  - vm_compute. reflexivity.
Defined.

Lemma legacy_migration_moves_nothing_witness :
  entry_field (migrate_file_token_to_keyring legacy_world).1 Meta
    (py "access_token_encrypted")
  = entry_field legacy_world Meta (py "access_token_encrypted")
  ∧ is_Some (entry_field legacy_world Meta (py "access_token_encrypted"))
  ∧ file_tokens (migrate_file_token_to_keyring legacy_world).1 Meta
    = file_tokens legacy_world Meta
  ∧ get_token_for_user Meta None (migrate_file_token_to_keyring legacy_world).1
    = get_token_for_user Meta None legacy_world
  ∧ token_storage_location_for_user Meta None
      (migrate_file_token_to_keyring legacy_world).1
    = token_storage_location_for_user Meta None legacy_world.
Proof.
  apply (legacy_migration_moves_nothing legacy_world).
  vm_compute. reflexivity.
Defined.


Lemma fetch_keeps_vault_witness :
  get_token_for_user Meta None
    (fetch_spend_and_persist Meta JNull None true stored_world).1
  = get_token_for_user Meta None stored_world
  ∧ token_storage_location_for_user Meta None
      (fetch_spend_and_persist Meta JNull None true stored_world).1
    = token_storage_location_for_user Meta None stored_world
  ∧ same_process stored_world
      (fetch_spend_and_persist Meta JNull None true stored_world).1.
Proof.
  apply (fetch_keeps_vault Meta Meta JNull None None true stored_world _ _
           (surjective_pairing _)).
Defined.

Lemma callback_stored_token_is_read_witness :
  get_token_for_user (connector_for (py_lower (default [] (Some (py "meta"))))) None
    (_callback_core (Some (py "meta")) None (Some (py "SIMULATED_META_TOKEN"))
       None None vault_world).1
  = Ok (Some (py "SIMULATED_META_TOKEN")).
Proof.
  apply (callback_stored_token_is_read (Some (py "meta")) None None None None
           (py "SIMULATED_META_TOKEN") vault_world _
           (HTMLResponse (py "Token obtained and stored. You can close this window and return to the dashboard. Manual sync fetched 2 rows and updated `data/spend.csv`.") 200)).
  - reflexivity.
  - reflexivity.
  - left. split; reflexivity.
  - vm_compute. reflexivity.
  - reflexivity.
Defined.

Lemma simulate_callback_returns_text_witness :
  ∃ w' msg,
    simulate_callback (Some (py "meta")) None (Some (py "SIMULATED_META_TOKEN"))
      None None vault_world = (w', Ok (Text msg))
    ∧ fastapi_available w' = fastapi_available vault_world.
Proof.
  apply (simulate_callback_returns_text (Some (py "meta")) None None None None
           (py "SIMULATED_META_TOKEN") vault_world).
  right. split; [reflexivity|]. left. split; reflexivity.
Defined.

Lemma tokenless_callback_fails_witness :
  ∃ r, _callback_core (Some (py "google")) (Some (py "abc")) None None None
         bare_world = (bare_world, r)
       ∧ is_error_outcome r = true.
Proof.
  apply (tokenless_callback_fails (Some (py "google")) (Some (py "abc")) None None
           None bare_world).
  - reflexivity.
  - reflexivity.
  - right. vm_compute. reflexivity.
Defined.

Lemma b64_url_round_trip_witness :
  ∃ s, _b64_url_encode [1; 2; 3; 4] = Ok s ∧ contains 61 s = false
       ∧ _b64_url_decode s = Ok [1; 2; 3; 4].
Proof.
  apply (b64_url_round_trip [1; 2; 3; 4]).
  reflexivity.
Defined.

Lemma client_secret_sealed_witness :
  entry_field (save_meta (plat_key Google) (JObj secret_meta) vault_world).1 Google
    (py "client_secret")
  = entry_field vault_world Google (py "client_secret")
  ∧ entry_field (save_meta (plat_key Google) (JObj secret_meta) vault_world).1 Google
      (py "client_secret_enc")
    = Some (JStr (latin1_decode (128 :: py "s3cret")))
  ∧ decrypt_token (save_meta (plat_key Google) (JObj secret_meta) vault_world).1
      (128 :: py "s3cret") = Ok (Some (py "s3cret"))
  ∧ ∃ m, load_meta (save_meta (plat_key Google) (JObj secret_meta) vault_world).1
           (plat_key Google) = JObj m
         ∧ m !! py "client_secret" = Some (JStr (py "s3cret")).
Proof.
  apply (client_secret_sealed Google secret_meta (py "s3cret") vault_world
           (set_entropy 1 vault_world)).
  - vm_compute. reflexivity.
  - reflexivity.
  - vm_compute. reflexivity.
  - vm_compute. reflexivity.
Defined.

(** ** Further theorems at concrete worlds *)

Lemma tiktok_embedded_error_witness :
  (exchange_oauth_code tiktok_request tiktok_stub_world
   = (tiktok_stub_world,
      Ok (failure (py "TikTok API error: "
                   ++ py_str (default JNull (tiktok_error_body !! py "message")))))
   ∧ _exchange_tiktok_code (code tiktok_request) tiktok_stub_world
     = (tiktok_stub_world, Ok JNull))
  ∧ (exchange_oauth_code tiktok_request tiktok_down_world
     = (tiktok_down_world,
        Ok (failure (py "Failed to exchange TikTok code: Service Unavailable")))
     ∧ _exchange_tiktok_code (code tiktok_request) tiktok_down_world
       = (tiktok_down_world, Ok JNull)).
Proof.
  split.
  - destruct (tiktok_embedded_error tiktok_request tiktok_stub_world
                (py "TikTok") (py "id") (py "secret") tiktok_error_response)
      as (_ & Hembedded & _).
    + reflexivity.
    + vm_compute. reflexivity.
    + vm_compute. reflexivity.
    + reflexivity.
    + vm_compute. reflexivity.
    + reflexivity.
    + intros rq _. reflexivity.
    + apply (Hembedded tiktok_error_body); reflexivity.
  - destruct (tiktok_embedded_error tiktok_request tiktok_down_world
                (py "TikTok") (py "id") (py "secret") tiktok_down_response)
      as (Hdown & _).
    + reflexivity.
    + vm_compute. reflexivity.
    + vm_compute. reflexivity.
    + reflexivity.
    + vm_compute. reflexivity.
    + reflexivity.
    + intros rq _. reflexivity.
    + apply Hdown. vm_compute. discriminate.
Defined.

(** The counterexample to C8 as stated: on the provider's answer 200 with
    the embedded code 40001 and the message [Invalid auth_code], the
    dashboard's [_exchange_tiktok_code] returns [None]; the message reaches
    the caller of the broker only. *)
Lemma dashboard_exchange_keeps_no_message :
  status_code tiktok_error_response = 200
  ∧ tiktok_error_body !! py "code" = Some (JInt 40001)
  ∧ tiktok_error_body !! py "message" = Some (JStr (py "Invalid auth_code"))
  ∧ _exchange_tiktok_code (py "abc") tiktok_stub_world = (tiktok_stub_world, Ok JNull)
  ∧ (exchange_oauth_code tiktok_request tiktok_stub_world).2
    = Ok (failure (py "TikTok API error: Invalid auth_code")).
Proof. vm_compute. done. Qed.

Lemma migrate_to_keyring_witness :
  ((migrate_file_token_to_keyring_for_user Meta None migration_world).2 = Ok true
   ∧ token_storage_location_for_user Meta None
       (migrate_file_token_to_keyring_for_user Meta None migration_world).1
     = Ok (py "keyring")
   ∧ file_tokens (migrate_file_token_to_keyring_for_user Meta None migration_world).1
       Meta !! py "default" = None
   ∧ file_tokens migration_world Meta !! py "default" = Some (JStr (128 :: py "tok")))
  ∧ (file_tokens keyring_world Meta !! py "default" = None
     ∧ migrate_file_token_to_keyring_for_user Meta None keyring_world
       = (keyring_world, Ok false))
  ∧ (file_tokens refusing_keyring_world Meta !! py "default"
     = Some (JStr (128 :: py "tok"))
     ∧ migrate_file_token_to_keyring_for_user Meta None refusing_keyring_world
       = (refusing_keyring_world, Ok false)).
Proof.
  split; [|split].
  - assert ((migrate_file_token_to_keyring_for_user Meta None migration_world).2
            = Ok true) as Hr by (vm_compute; reflexivity).
    split; [exact Hr|].
    destruct (migrate_to_keyring Meta None migration_world _ _ (surjective_pairing _))
      as [Hyes _].
    destruct (Hyes Hr) as [Hloc Hgone].
    split; [exact Hloc|]. split; [exact Hgone|]. vm_compute. reflexivity.
  - split; [reflexivity|].
    destruct (migrate_to_keyring Meta None keyring_world _ _ (surjective_pairing _))
      as [_ Hno].
    destruct Hno as [Hw Hr]; [right; right; reflexivity|].
    rewrite (surjective_pairing
               (migrate_file_token_to_keyring_for_user Meta None keyring_world)).
    rewrite Hw, Hr; [reflexivity|].
    right. split; intros j Hj; vm_compute in Hj; discriminate Hj.
  - split; [vm_compute; reflexivity|].
    destruct (migrate_to_keyring Meta None refusing_keyring_world _ _
                (surjective_pairing _)) as [_ Hno].
    destruct Hno as [Hw Hr].
    { right; left. eexists. split; [vm_compute; reflexivity|reflexivity]. }
    rewrite (surjective_pairing
               (migrate_file_token_to_keyring_for_user Meta None
                  refusing_keyring_world)).
    rewrite Hw, Hr; [reflexivity|].
    right. split; intros j Hj; vm_compute in Hj; injection Hj as <-; eexists;
      reflexivity.
Defined.

(** The counterexample to C7 as stated: the keyring works and the file
    holds no token for the user, its entry for Meta being a list; the
    migration does not return [False], it raises [AttributeError] (the
    world is as it was). *)
Lemma malformed_file_migration_raises :
  can_use_keyring malformed_world = true
  ∧ file_tokens malformed_world Meta !! py "default" = None
  ∧ migrate_file_token_to_keyring_for_user Meta None malformed_world
    = (malformed_world, Raise AttributeError).
Proof. vm_compute. done. Qed.

Lemma store_fails_closed_witness :
  ((keyring bare_world = None
    ∨ ∃ kr, keyring bare_world = Some kr ∧ kr_works kr = false)
   ∧ can_encrypt bare_world = false
   ∧ (store_token_for_user Google (JStr (py "tok")) (Some (py "a@b.c")) bare_world).2
     = Ok false
   ∧ persisted
       (store_token_for_user Google (JStr (py "tok")) (Some (py "a@b.c")) bare_world).1
     = persisted bare_world)
  ∧ (store_token_for_user Meta (JStr (py "tok")) None vault_world
     = (stored_world, Ok true)
     ∧ (meta_file stored_world = meta_file vault_world
        ∨ ((∀ plat, plat ≠ plat_key Meta →
                    file_entry stored_world plat = file_entry vault_world plat)
           ∧ ∃ entry,
               file_entry stored_world (plat_key Meta) = Some (JObj entry)
               ∧ ∀ k v, entry !! k = Some v →
                        written_by_store Meta (py "tok") None vault_world k v))).
Proof.
  split.
  - split; [by left|]. split; [reflexivity|].
    apply (store_fails_closed Google (py "tok") (Some (py "a@b.c")) bare_world _ _
             (surjective_pairing _)).
    + by left.
    + reflexivity.
  - assert (store_token_for_user Meta (JStr (py "tok")) None vault_world
            = (stored_world, Ok true)) as Hs by (vm_compute; reflexivity).
    split; [exact Hs|].
    apply (store_fails_closed Meta (py "tok") None vault_world stored_world
             (Ok true) Hs).
Defined.

Lemma callback_state_check_witness :
  _callback_core (Some (py "meta")) None (Some (py "SIMULATED_META_TOKEN")) None
    (Some (py "not-a-token")) headless_world
  = (headless_world, Raise TypeError)
  ∧ _callback_core (Some (py "meta")) None (Some (py "SIMULATED_META_TOKEN")) None
      (Some (py "not-a-token")) signing_world
    = (signing_world, Ok (HTMLResponse (py "Invalid or expired state token") 400))
  ∧ ∃ w' r,
      _callback_core (Some (py "meta")) None (Some (py "SIMULATED_META_TOKEN")) None
        (Some (py "demo@local")) vault_world = (w', r)
      ∧ get_token_for_user Meta (Some (py "demo@local")) w'
        = Ok (Some (py "SIMULATED_META_TOKEN"))
      ∧ ∃ rows,
          r = Ok (HTMLResponse (stored_message (Some (py "demo@local")) rows) 200).
Proof.
  split; [|split].
  - destruct (callback_state_check (Some (py "meta")) None
                (Some (py "SIMULATED_META_TOKEN")) None (py "not-a-token")
                headless_world headless_world (JStr (py "SIMULATED_META_TOKEN")))
      as [Hno _].
    + reflexivity.
    + vm_compute. reflexivity.
    + reflexivity.
    + reflexivity.
    + intros e He. vm_compute in He. discriminate He.
    + destruct Hno as (Heq & _); [vm_compute; reflexivity|].
      rewrite Heq. reflexivity.
  - destruct (callback_state_check (Some (py "meta")) None
                (Some (py "SIMULATED_META_TOKEN")) None (py "not-a-token")
                signing_world signing_world (JStr (py "SIMULATED_META_TOKEN")))
      as [Hno _].
    + reflexivity.
    + vm_compute. reflexivity.
    + reflexivity.
    + reflexivity.
    + intros e He. vm_compute in He. discriminate He.
    + destruct Hno as (Heq & _); [vm_compute; reflexivity|].
      rewrite Heq. vm_compute. reflexivity.
  - destruct (callback_state_check (Some (py "meta")) None
                (Some (py "SIMULATED_META_TOKEN")) None (py "demo@local")
                vault_world vault_world (JStr (py "SIMULATED_META_TOKEN")))
      as [_ Hyes].
    + reflexivity.
    + vm_compute. reflexivity.
    + reflexivity.
    + reflexivity.
    + intros e He. vm_compute in He. discriminate He.
    + destruct (Hyes ltac:(vm_compute; reflexivity) (py "SIMULATED_META_TOKEN") eq_refl)
        as (w' & r & Hcore & Hif).
      exists w', r. split; [exact Hcore|].
      assert (returned_true
                (store_token_for_user
                   (connector_for (py_lower (default [] (Some (py "meta")))))
                   (JStr (py "SIMULATED_META_TOKEN")) (Some (py "demo@local"))
                   vault_world).2
              && connector_imported vault_world
                   (connector_for (py_lower (default [] (Some (py "meta")))))
              = true) as Hstored by (vm_compute; reflexivity).
      rewrite Hstored in Hif. exact Hif.
Defined.

(** The counterexample to C3 as stated: the address [a|b@c.d] holds a bar.
    The token issued for it is verified at once, with the signing key and
    without any key, and the result is [None]: the payload is split at its
    first bar, so what follows is not the timestamp. *)
Lemma bar_email_not_returned :
  (token ← make_state_token signing_world (py "a|b@c.d") 600;
   verify_state_token signing_world token 600) = Ok None
  ∧ (token ← make_state_token (at_time 1700000000 bare_world) (py "a|b@c.d") 600;
     verify_state_token (at_time 1700000000 bare_world) token 600) = Ok None
  ∧ _get_key signing_world = Ok (Some (py "k"))
  ∧ _get_key (at_time 1700000000 bare_world) = Ok None.
Proof. vm_compute. done. Qed.
